(** * BracketPair: the incremental update engine and its configuration

    A shallow embedding of [src/documentDecoration.ts] (the per-document
    session: dirty-line marker, line cache, token walk, aggregation and
    rendering) and of [src/settings.ts] (the [Settings] constructor, its
    decoration table and the scope decorations), followed by the properties
    established about them. *)

From Stdlib Require Import ZArith Lia Ascii.
From stdpp Require Import base option list strings pretty gmap sorting.

#[local] Set Warnings "-register-all".

(** ** JavaScript values and completions *)

Module Js.

(** Values that a configuration read can deliver.  Numbers are the integral
    ones (a delay in milliseconds); objects carry no payload because the
    code never looks inside one. *)
Inductive JValue : Type :=
| JUndefined
| JNull
| JBool (b : bool)
| JNumber (z : Z)
| JString (s : string)
| JArray (l : list JValue)
| JObject.

(** Structural equality, decided by a nested fixpoint over arrays. *)
Fixpoint jvalue_eqb (x y : JValue) {struct x} : bool :=
  match x, y with
  | JUndefined, JUndefined => true
  | JNull, JNull => true
  | JBool a, JBool b => bool_decide (a = b)
  | JNumber a, JNumber b => bool_decide (a = b)
  | JString a, JString b => bool_decide (a = b)
  | JArray l, JArray l' =>
      (fix all2 (l l' : list JValue) {struct l} : bool :=
         match l, l' with
         | [], [] => true
         | v :: r, v' :: r' => jvalue_eqb v v' && all2 r r'
         | _, _ => false
         end) l l'
  | JObject, JObject => true
  | _, _ => false
  end.

(** What a [throw] carries: [new Error(msg)] written by the program, or the
    [TypeError] the runtime raises on a bad member access. *)
Inductive JsError : Type :=
| Error (message : string)
| TypeError (message : string).

(** The outcome of running a block: it returns, or it throws. *)
Inductive Completion (A : Type) : Type :=
| Normal (a : A)
| Throw (e : JsError).
Arguments Normal {A} a.
Arguments Throw {A} e.

#[export] Instance completion_ret : MRet Completion := @Normal.
#[export] Instance completion_bind : MBind Completion := fun A B k c =>
  match c with
  | Normal a => k a
  | Throw e => Throw e
  end.

(** [typeof v === "boolean"], [typeof v === "number"] and friends. *)
Definition isBoolean (v : JValue) : bool := match v with JBool _ => true | _ => false end.
Definition isNumber (v : JValue) : bool := match v with JNumber _ => true | _ => false end.
Definition isString (v : JValue) : bool := match v with JString _ => true | _ => false end.
Definition isArray (v : JValue) : bool := match v with JArray _ => true | _ => false end.

(** The number a subtraction from an array length yields: an integer, or
    [-Infinity] when [Infinity] is subtracted. *)
Inductive Count : Type :=
| Int (z : Z)
| MinusInfinity.

End Js.
Export Js.

(** ** The editor API the engine calls *)

Module Vscode.

Record Position : Type := { line : nat; character : nat }.

(** [Position.translate(lineDelta, characterDelta)]. *)
Definition translate (p : Position) (lineDelta characterDelta : nat) : Position :=
  {| line := line p + lineDelta; character := character p + characterDelta |}.

Record Range : Type := { start : Position; end_ : Position }.

(** A decoration type is an object with an identity: every call of
    [window.createTextEditorDecorationType] returns one with a fresh key. *)
Record TextEditorDecorationType : Type := { key : nat; color : JValue }.

(** [window.createTextEditorDecorationType({color, rangeBehavior})], with the
    counter the window draws keys from passed along. *)
Definition createTextEditorDecorationType (color : JValue) (nextKey : nat)
  : TextEditorDecorationType * nat :=
  ({| key := nextKey; color := color |}, S nextKey).

(** A document is an object too ([uri] stands for its identity); its text is
    kept line by line. *)
Record TextDocument : Type := {
  uri : nat;
  fileName : string;
  languageId : string;
  textLines : list string }.

Definition newline : string := String (Ascii.ascii_of_nat 10) EmptyString.

(** [document.getText()]. *)
Definition getText (document : TextDocument) : string :=
  String.concat newline (textLines document).

(** [document.lineAt(i).text]; the editor throws for a line the document does
    not have. *)
Definition lineAt (document : TextDocument) (i : nat) : Completion string :=
  match textLines document !! i with
  | Some text => Normal text
  | None => Throw (Error "Illegal value for `line`")
  end.

(** An editor, and the document object it shows. *)
Record TextEditor : Type := { viewColumn : nat; document : nat }.

(** One call [editor.setDecorations(decoration, ranges)]. *)
Record SetDecorations : Type := {
  editor : TextEditor;
  decoration : TextEditorDecorationType;
  ranges : list Range }.

(** [contentChange.range.start.line] is all the engine reads of a change. *)
Record TextDocumentContentChangeEvent : Type := { range : Range }.

End Vscode.

(** ** Token trees *)

Module Prism.

(** [prism.Token]: a type tag and a content that is a string, an array of
    strings and tokens, or one more token. *)
Inductive Token : Type :=
| MkToken (type : string) (content : TokenContent)
with TokenContent : Type :=
| ContentString (s : string)
| ContentArray (l : list TokenOrString)
| ContentToken (t : Token)
with TokenOrString : Type :=
| IsString (s : string)
| IsToken (t : Token).

(** What [prism.tokenize] can do: return the array, return something falsy,
    or throw (an unsupported grammar). *)
Inductive Tokenized : Type :=
| Tokens (tokenized : list TokenOrString)
| Falsy
| Throws (err : JsError).

End Prism.

(** ** settings.ts *)

Import Vscode.

(** String helpers of the runtime that the constructor relies on. *)

(** [s.trim()], over the ASCII white space. *)
Fixpoint trimStart (s : string) : string :=
  match s with
  | String c s' => if Ascii.is_space c then trimStart s' else s
  | EmptyString => EmptyString
  end.

Definition trim (s : string) : string :=
  String.rev (trimStart (String.rev (trimStart s))).

(** [v.length] and [v[i]] for a string or an array. *)
Definition lengthOf (v : JValue) : nat :=
  match v with
  | JString s => String.length s
  | JArray l => length l
  | _ => 0
  end.

Definition elementAt (v : JValue) (i : nat) : JValue :=
  match v with
  | JString s =>
      match String.get i s with
      | Some c => JString (String c EmptyString)
      | None => JUndefined
      end
  | JArray l => default JUndefined (l !! i)
  | _ => JUndefined
  end.

(** [String(v)], the conversion a value undergoes when it is used as a
    property key. *)
Fixpoint toString (v : JValue) : string :=
  match v with
  | JUndefined => "undefined"
  | JNull => "null"
  | JBool b => if b then "true" else "false"
  | JNumber z => pretty z
  | JString s => s
  | JArray l =>
      (fix join (l : list JValue) : string :=
         match l with
         | [] => ""
         | v :: r =>
             let head := match v with
                         | JUndefined | JNull => ""
                         | _ => toString v
                         end in
             match r with
             | [] => head
             | _ => head +:+ "," +:+ join r
             end
         end) l
  | JObject => "[object Object]"
  end.

(** Modelled from the spec: the enum of [colorMode.ts], which is not among the
    sources; the mode selector has the members Consecutive and Independent. *)
Inductive ColorMode : Type :=
| Consecutive
| Independent.

(** [(ColorMode as any)[key]] is a number exactly for the two member names;
    every other key yields a string (the reverse mapping) or [undefined]. *)
Definition colorModeOf (key : JValue) : option ColorMode :=
  let name := toString key in
  if decide (name = "Consecutive") then Some Consecutive
  else if decide (name = "Independent") then Some Independent
  else None.

(** Modelled from the spec: the class of [bracketPair.ts], which is not among
    the sources; a pair definition holds an open literal, a close literal, an
    ordered palette of colors and an orphan color.  The constructor passes the
    literals and the palette entries on without inspecting them, so they stay
    untyped values here. *)
Record BracketPair : Type := {
  openCharacter : JValue;
  closeCharacter : JValue;
  colors : list JValue;
  orphanColor : string }.

Record RegExp : Type := { source : string; global : bool }.

(** A JavaScript [Map] in insertion order.  Keys are compared structurally:
    for the primitive keys used here that is the runtime's comparison. *)
Definition JsMap (V : Type) : Type := list (JValue * V).

Fixpoint mapSet {V} (k : JValue) (v : V) (m : JsMap V) : JsMap V :=
  match m with
  | [] => [(k, v)]
  | (k', v') :: m' =>
      if jvalue_eqb k' k then (k, v) :: m' else (k', v') :: mapSet k v m'
  end.

Fixpoint mapGet {V} (k : JValue) (m : JsMap V) : option V :=
  match m with
  | [] => None
  | (k', v') :: m' => if jvalue_eqb k' k then Some v' else mapGet k m'
  end.

Record Settings : Type := {
  bracketDecorations : JsMap TextEditorDecorationType;
  bracketPairs : list BracketPair;
  colorMode : ColorMode;
  forceIterationColorCycle : bool;
  forceUniqueOpeningColor : bool;
  prismLanguageID : string;
  regexNonExact : RegExp;
  timeOutLength : Z;
  highlightActiveScope : bool;
  showScopeLine : bool;
  showScopeLineExtra : bool;
  showBracketsInGutter : bool;
  scopeLineRelativePosition : bool;
  isDisposed : bool;
  activeBracketCSSElements : list (string * string);
  activeScopeLineCSSElements : list (string * string);
  activeScopeLineCSSBorder : string;
  fontFamily : JValue }.

(** [workspace.getConfiguration(section, uri).get(key)]; a missing key reads
    as [undefined]. *)
Definition Configuration : Type := string -> JValue.

(** [e => [e.substring(0, e.indexOf(":")).trim(),
           e.substring(e.indexOf(":") + 1).trim()]]; a member access on
    something that is not a string throws. *)
Definition cssElement (e : JValue) : Completion (string * string) :=
  match e with
  | JString e =>
      match String.index 0 ":" e with
      | Some i =>
          Normal (trim (String.substring 0 i e),
                  trim (String.substring (S i) (String.length e - S i) e))
      | None => Normal (trim "", trim e)
      end
  | _ => Throw (TypeError "substring is not a function")
  end.

Definition cssElements (configuration : Configuration) (key : string)
  : Completion (list (string * string)) :=
  match configuration key with
  | JArray css => mapM cssElement css
  | _ => Throw (Error (key +:+ " is not an array"))
  end.

Definition getBoolean (configuration : Configuration) (key message : string)
  : Completion bool :=
  match configuration key with
  | JBool b => Normal b
  | _ => Throw (Error message)
  end.

(** [xs.forEach((x, index) => ...)] with a body that may throw. *)
Fixpoint forEachFrom {A B} (f : A -> nat -> Completion B) (index : nat) (xs : list A)
  : Completion (list B) :=
  match xs with
  | [] => Normal []
  | x :: rest =>
      b ← f x index;
      bs ← forEachFrom f (S index) rest;
      Normal (b :: bs)
  end.

(** The branch [colorMode === ColorMode.Consecutive] of the constructor. *)
Definition consecutivePair (colors : list JValue) (orphanColor : string)
    (brackets : JValue) (index : nat) : Completion BracketPair :=
  if isString brackets || isArray brackets then
    if decide (lengthOf brackets ≠ 2) then
      Throw (Error ("consecutivePairColors[" +:+ pretty index
                    +:+ "] requires 2 element, e.g. ['(',')']"))
    else
      Normal {| openCharacter := elementAt brackets 0;
                closeCharacter := elementAt brackets 1;
                colors := colors;
                orphanColor := orphanColor |}
  else
    Throw (Error ("consecutivePairColors[ " +:+ pretty index
                  +:+ "] should be a string or an array of strings")).

Definition consecutivePairs (configuration : Configuration)
  : Completion (list BracketPair) :=
  match configuration "consecutivePairColors" with
  | JArray consecutiveSettings =>
      let n := length consecutiveSettings in
      if decide (n < 3) then
        Throw (Error ("consecutivePairColors expected at least 3 parameters, actual: "
                      +:+ pretty n))
      else
        match elementAt (JArray consecutiveSettings) (n - 1) with
        | JString orphanColor =>
            match elementAt (JArray consecutiveSettings) (n - 2) with
            | JArray colors =>
                forEachFrom (consecutivePair colors orphanColor) 0
                            (take (n - 2) consecutiveSettings)
            | _ =>
                Throw (Error ("consecutivePairColors[" +:+ pretty (n - 2)
                              +:+ "] is not a string[]"))
            end
        | _ =>
            Throw (Error ("consecutivePairColors[" +:+ pretty (n - 1)
                          +:+ "] is not a string"))
        end
  | _ => Throw (Error "consecutivePairColors is not an array")
  end.

(** The other branch: one [[brackets, colors, orphanColor]] entry per pair. *)
Definition independentPair (innerArray : JValue) (index : nat)
  : Completion BracketPair :=
  if negb (isArray innerArray) then
    Throw (Error ("independentPairColors[" +:+ pretty index +:+ "] is not an array"))
  else
    let brackets := elementAt innerArray 0 in
    if negb (isString brackets) && negb (isArray brackets) then
      Throw (Error ("independentSettings[" +:+ pretty index
                    +:+ "][0] is not a string or an array of strings"))
    else if decide (lengthOf brackets < 2) then
      Throw (Error ("independentSettings[" +:+ pretty index
                    +:+ "][0] needs at least 2 elements"))
    else
      match elementAt innerArray 1 with
      | JArray colors =>
          match elementAt innerArray 2 with
          | JString orphanColor =>
              Normal {| openCharacter := elementAt brackets 0;
                        closeCharacter := elementAt brackets 1;
                        colors := colors;
                        orphanColor := orphanColor |}
          | _ =>
              Throw (Error ("independentSettings[" +:+ pretty index
                            +:+ "][2] is not a string"))
          end
      | _ =>
          Throw (Error ("independentSettings[" +:+ pretty index
                        +:+ "][1] is not string[]"))
      end.

Definition independentPairs (configuration : Configuration)
  : Completion (list BracketPair) :=
  match configuration "independentPairColors" with
  | JArray independentSettings => forEachFrom independentPair 0 independentSettings
  | _ => Throw (Error "independentPairColors is not an array")
  end.

(** [createRegex]. *)

(** [s.replace(/[-\/\\^$*+?.()|[\]{}]/g, "\\$&")]. *)
Definition escaped : list ascii := String.list_ascii_of_string "-/\^$*+?.()|[]{}".

Fixpoint escape (s : string) : string :=
  match s with
  | EmptyString => EmptyString
  | String c rest =>
      if bool_decide (c ∈ escaped) then String "\"%char (String c (escape rest))
      else String c (escape rest)
  end.

(** [matches.sort((a, b) => b.length - a.length)]: longest first, equal
    lengths in their original order. *)
Fixpoint insertByLength (a : string) (sorted : list string) : list string :=
  match sorted with
  | [] => [a]
  | b :: rest =>
      if String.length b <=? String.length a then a :: b :: rest
      else b :: insertByLength a rest
  end.

Definition sortByLength (matches : list string) : list string :=
  foldr insertByLength [] matches.

(** The comparator reads [.length] and [escape] calls [.replace]: either
    throws on a literal that is not a string. *)
Definition asLiteral (literal : JValue) : Completion string :=
  match literal with
  | JString s => Normal s
  | _ => Throw (TypeError "replace is not a function")
  end.

Definition createRegex (bracketPairs : list BracketPair) (exact : bool)
  : Completion RegExp :=
  let matches :=
    flat_map (fun bracketPair =>
                [openCharacter bracketPair; closeCharacter bracketPair])
             bracketPairs in
  literals ← mapM asLiteral matches;
  let regex :=
    foldl (fun regex match_ =>
             (if decide (regex = "") then regex else regex +:+ "|")
             +:+ escape match_)
          "" (sortByLength literals) in
  Normal {| source := regex; global := negb exact |}.

(** [createBracketDecorations]: one fresh decoration per palette entry and
    per orphan color; setting a color twice keeps the newer decoration. *)
Fixpoint decoratePalette (palette : list JValue)
    (decorations : JsMap TextEditorDecorationType) (nextKey : nat)
  : JsMap TextEditorDecorationType * nat :=
  match palette with
  | [] => (decorations, nextKey)
  | color :: rest =>
      let '(decoration, nextKey) := createTextEditorDecorationType color nextKey in
      decoratePalette rest (mapSet color decoration decorations) nextKey
  end.

Fixpoint decoratePairs (bracketPairs : list BracketPair)
    (decorations : JsMap TextEditorDecorationType) (nextKey : nat)
  : JsMap TextEditorDecorationType * nat :=
  match bracketPairs with
  | [] => (decorations, nextKey)
  | bracketPair :: rest =>
      let '(decorations, nextKey) :=
        decoratePalette (colors bracketPair) decorations nextKey in
      let '(errorDecoration, nextKey) :=
        createTextEditorDecorationType (JString (orphanColor bracketPair)) nextKey in
      decoratePairs rest
        (mapSet (JString (orphanColor bracketPair)) errorDecoration decorations)
        nextKey
  end.

Definition createBracketDecorations (bracketPairs : list BracketPair) (nextKey : nat)
  : JsMap TextEditorDecorationType * nat :=
  decoratePairs bracketPairs [] nextKey.

(** [borderStyle[0][1]] of the first [borderStyle] element; every element is
    a two-entry array, so the length test of the source always succeeds, and
    reading [borderStyle[0].length] without such an element throws. *)
Definition scopeLineBorder (elements : list (string * string)) : Completion string :=
  match filter (fun e => e.1 = "borderStyle") elements with
  | e :: _ => Normal e.2
  | [] => Throw (TypeError "Cannot read property 'length' of undefined")
  end.

(** The constructor.  [nextKey] is the editor's decoration counter; the
    gutter icon manager is only stored and is left out. *)
Definition newSettings (languageID : string)
    (editorConfiguration configuration : Configuration) (nextKey : nat)
  : Completion (Settings * nat) :=
  activeBracketCSSElements ← cssElements configuration "activeScopeCSS";
  activeScopeLineCSSElements ← cssElements configuration "scopeLineCSS";
  activeScopeLineCSSBorder ← scopeLineBorder activeScopeLineCSSElements;
  highlightActiveScope ←
    getBoolean configuration "highlightActiveScope"
               "alwaysHighlightActiveScope is not a boolean";
  showScopeLine ←
    getBoolean configuration "showScopeLine" "showScopeLine is not a boolean";
  showScopeLineExtra ←
    getBoolean configuration "showScopeLineExtra" "showScopeLineExtra is not a boolean";
  scopeLineRelativePosition ←
    getBoolean configuration "scopeLineRelativePosition"
               "scopeLineRelativePosition is not a boolean";
  showBracketsInGutter ←
    getBoolean configuration "showBracketsInGutter"
               "showBracketsInGutter is not a boolean";
  forceUniqueOpeningColor ←
    getBoolean configuration "forceUniqueOpeningColor"
               "forceUniqueOpeningColor is not a boolean";
  forceIterationColorCycle ←
    getBoolean configuration "forceIterationColorCycle"
               "forceIterationColorCycle is not a boolean";
  colorMode ←
    match colorModeOf (configuration "colorMode") with
    | Some mode => Normal mode
    | None => Throw (Error "colorMode enum could not be parsed")
    end;
  timeOutLength ←
    match configuration "timeOut" with
    | JNumber z => Normal z
    | _ => Throw (Error "timeOutLength is not a number")
    end;
  bracketPairs ←
    match colorMode with
    | Consecutive => consecutivePairs configuration
    | Independent => independentPairs configuration
    end;
  regexNonExact ← createRegex bracketPairs false;
  let '(bracketDecorations, nextKey) :=
    createBracketDecorations bracketPairs nextKey in
  Normal ({| bracketDecorations := bracketDecorations;
             bracketPairs := bracketPairs;
             colorMode := colorMode;
             forceIterationColorCycle := forceIterationColorCycle;
             forceUniqueOpeningColor := forceUniqueOpeningColor;
             prismLanguageID := languageID;
             regexNonExact := regexNonExact;
             timeOutLength := timeOutLength;
             highlightActiveScope := highlightActiveScope;
             showScopeLine := showScopeLine;
             showScopeLineExtra := showScopeLineExtra;
             showBracketsInGutter := showBracketsInGutter;
             scopeLineRelativePosition := scopeLineRelativePosition;
             isDisposed := false;
             activeBracketCSSElements := activeBracketCSSElements;
             activeScopeLineCSSElements := activeScopeLineCSSElements;
             activeScopeLineCSSBorder := activeScopeLineCSSBorder;
             fontFamily := editorConfiguration "fontFamily" |},
          nextKey).

(** [Settings.dispose()]. *)
Definition disposeSettings (settings : Settings) : Settings :=
  if isDisposed settings then settings
  else
    {| bracketDecorations := [];
       bracketPairs := bracketPairs settings;
       colorMode := colorMode settings;
       forceIterationColorCycle := forceIterationColorCycle settings;
       forceUniqueOpeningColor := forceUniqueOpeningColor settings;
       prismLanguageID := prismLanguageID settings;
       regexNonExact := regexNonExact settings;
       timeOutLength := timeOutLength settings;
       highlightActiveScope := highlightActiveScope settings;
       showScopeLine := showScopeLine settings;
       showScopeLineExtra := showScopeLineExtra settings;
       showBracketsInGutter := showBracketsInGutter settings;
       scopeLineRelativePosition := scopeLineRelativePosition settings;
       isDisposed := true;
       activeBracketCSSElements := activeBracketCSSElements settings;
       activeScopeLineCSSElements := activeScopeLineCSSElements settings;
       activeScopeLineCSSBorder := activeScopeLineCSSBorder settings;
       fontFamily := fontFamily settings |}.

(** The scope decorations. *)

(** [GetSubstitution] for a string pattern, which has no captures: in the
    replacement text [$$] stands for a dollar sign, [$&] for the matched
    text, [$`] for the text before the match and [$'] for the text after it;
    any other dollar sign stands for itself. *)
Fixpoint getSubstitution (matched before after replacement : string) : string :=
  match replacement with
  | EmptyString => EmptyString
  | String c tail =>
      if Ascii.eqb c "$" then
        match tail with
        | EmptyString => String c EmptyString
        | String d rest =>
            if Ascii.eqb d "$" then
              String "$" (getSubstitution matched before after rest)
            else if Ascii.eqb d "&" then
              matched +:+ getSubstitution matched before after rest
            else if Ascii.eqb d "`" then
              before +:+ getSubstitution matched before after rest
            else if Ascii.eqb d "'" then
              after +:+ getSubstitution matched before after rest
            else String c (getSubstitution matched before after tail)
        end
      else String c (getSubstitution matched before after tail)
  end.

(** The text before and the text after the first occurrence of [pattern]. *)
Fixpoint splitAtFirst (pattern s : string) : option (string * string) :=
  if String.prefix pattern s then
    Some (EmptyString,
          String.substring (String.length pattern)
                           (String.length s - String.length pattern) s)
  else
    match s with
    | EmptyString => None
    | String c rest =>
        match splitAtFirst pattern rest with
        | Some (before, after) => Some (String c before, after)
        | None => None
        end
    end.

(** [s.replace(pattern, replacement)] with a string pattern: the first
    occurrence only. *)
Definition stringReplace (pattern replacement s : string) : string :=
  match splitAtFirst pattern s with
  | Some (before, after) =>
      before +:+ getSubstitution pattern before after replacement +:+ after
  | None => s
  end.

Section ScopeDecorations.

(** [gutterIconManager.ts] is not among the sources: the address type and
    [GetIconUri] are taken as given. *)
Context {Uri : Type}.
Variable GetIconUri : string -> string -> JValue -> Uri.

(** What an option of a decoration holds: [undefined], a number (the range
    behaviour), a string (a style value) or the address of a gutter icon. *)
Inductive OptionValue : Type :=
| OptUndefined
| OptNumber (z : Z)
| OptString (s : string)
| OptUri (u : Uri).

(** [vscode.DecorationRenderOptions], an object that is filled by name. *)
Definition DecorationRenderOptions : Type := gmap string OptionValue.

(** [vscode.DecorationRangeBehavior.ClosedClosed]. *)
Definition ClosedClosed : OptionValue := OptNumber 1.

(** The decoration type the window creates from a whole options object. *)
Record ScopeDecorationType : Type := {
  scopeKey : nat;
  renderOptions : DecorationRenderOptions }.

Definition createTextEditorDecorationTypeWith (options : DecorationRenderOptions)
    (nextKey : nat) : ScopeDecorationType * nat :=
  ({| scopeKey := nextKey; renderOptions := options |}, S nextKey).

(** [decorationSettings[name] = value] with a string value: assigning a
    string to [__proto__] leaves the object as it is. *)
Definition assign (decorationSettings : DecorationRenderOptions) (name : string)
    (value : OptionValue) : DecorationRenderOptions :=
  if decide (name = "__proto__") then decorationSettings
  else <[name := value]> decorationSettings.

(** [elements.forEach((element) => { decorationSettings[element[0]] =
    element[1].replace("{color}", color); })]. *)
Definition applyElements (elements : list (string * string)) (color : string)
    (decorationSettings : DecorationRenderOptions) : DecorationRenderOptions :=
  foldl (fun decorationSettings element =>
           assign decorationSettings element.1
                  (OptString (stringReplace "{color}" color element.2)))
        decorationSettings elements.

(** [createScopeBracketDecorations(color, bracket, showGutter?)]. *)
Definition createScopeBracketDecorations (settings : Settings)
    (color bracket : string) (showGutter : option bool) (nextKey : nat)
  : ScopeDecorationType * nat :=
  let showGutter := default (showBracketsInGutter settings) showGutter in
  let gutterIcon :=
    if showGutter then OptUri (GetIconUri bracket color (fontFamily settings))
    else OptUndefined in
  let decorationSettings : DecorationRenderOptions :=
    <["rangeBehavior" := ClosedClosed]> (<["gutterIconPath" := gutterIcon]> ∅) in
  let decorationSettings :=
    applyElements (activeBracketCSSElements settings) color decorationSettings in
  createTextEditorDecorationTypeWith decorationSettings nextKey.

(** [createScopeLineDecorations(color, top = true, right = true,
    bottom = true, left = true)]. *)
Definition createScopeLineDecorations (settings : Settings) (color : string)
    (top right bottom left : option bool) (nextKey : nat)
  : ScopeDecorationType * nat :=
  let decorationSettings : DecorationRenderOptions :=
    <["rangeBehavior" := ClosedClosed]> ∅ in
  let none := "none" in
  let topBorder :=
    if default true top then activeScopeLineCSSBorder settings else none in
  let rightBorder :=
    if default true right then activeScopeLineCSSBorder settings else none in
  let botBorder :=
    if default true bottom then activeScopeLineCSSBorder settings else none in
  let leftBorder :=
    if default true left then activeScopeLineCSSBorder settings else none in
  let decorationSettings :=
    applyElements (activeScopeLineCSSElements settings) color decorationSettings in
  let decorationSettings :=
    assign decorationSettings "borderStyle"
           (OptString (topBorder +:+ " " +:+ rightBorder +:+ " " +:+ botBorder
                       +:+ " " +:+ leftBorder)) in
  createTextEditorDecorationTypeWith decorationSettings nextKey.

End ScopeDecorations.

Arguments OptionValue Uri : clear implicits.
Arguments DecorationRenderOptions Uri : clear implicits.
Arguments ScopeDecorationType Uri : clear implicits.

(** ** documentDecoration.ts *)

Import Prism.

(** [foundBracket.ts] is not among the sources; the session builds a found
    bracket from a range and the matched text and reads its [range] back. *)
Record FoundBracket : Type := { range : Range; bracketText : string }.

(** The values [lineToUpdateWhenTimeoutEnds] takes: a line index, or the
    [Infinity] that [colorDecorations] stores. *)
Inductive LineNumber : Type :=
| Line (n : nat)
| Infinity.

(** [Math.min(marker, line)]. *)
Definition mathMin (marker : LineNumber) (line : nat) : LineNumber :=
  match marker with
  | Line n => Line (n `min` line)
  | Infinity => Line line
  end.

(** [lineIndex >= marker]. *)
Definition atOrAbove (lineIndex : nat) (marker : LineNumber) : bool :=
  match marker with
  | Line n => bool_decide (n ≤ lineIndex)
  | Infinity => false
  end.

(** [length - marker], the second argument of the [splice]. *)
Definition minus (length : nat) (marker : LineNumber) : Count :=
  match marker with
  | Line n => Int (Z.of_nat length - Z.of_nat n)
  | Infinity => MinusInfinity
  end.

(** [array.splice(start, deleteCount)] on the array that is left: the start is
    clamped to the length, the count to what lies between 0 and the rest. *)
Definition splice {A} (array : list A) (start : LineNumber) (deleteCount : Count)
  : list A :=
  let len := length array in
  let actualStart := match start with
                     | Line n => n `min` len
                     | Infinity => len
                     end in
  let actualDeleteCount :=
    match deleteCount with
    | Int z => Z.to_nat (Z.max 0 (Z.min z (Z.of_nat (len - actualStart))))
    | MinusInfinity => 0
    end in
  take actualStart array ++ drop (actualStart + actualDeleteCount) array.

(** [content.split(separator)] for a one-character separator. *)
Fixpoint split (separator : ascii) (content : string) : list string :=
  match content with
  | EmptyString => [EmptyString]
  | String c rest =>
      if Ascii.eqb c separator then EmptyString :: split separator rest
      else match split separator rest with
           | [] => [String c EmptyString]
           | piece :: pieces => String c piece :: pieces
           end
  end.

Record Cursor : Type := { lineIndex : nat; charIndex : nat }.

(** [parseString]. *)
Definition parseString (content : string) (lineIndex charIndex : nat) : Cursor :=
  let split := split (ascii_of_nat 10) content in
  if decide (1 < length split) then
    {| lineIndex := lineIndex + (length split - 1);
       charIndex := String.length (default "" (last split)) |}
  else
    {| lineIndex := lineIndex; charIndex := charIndex + String.length content |}.

(** [textLine.ts] is not among the sources: the session only constructs
    lines, copies the context of the previous line into the next one, adds
    brackets and reads the per-line color map (in its iteration order). *)
Class TextLineClass (TextLine : Type) : Type := {
  MultilineContext : Type;
  newTextLine : string -> Settings -> nat -> option MultilineContext -> TextLine;
  copyMultilineContext : TextLine -> MultilineContext;
  addBracket : TextLine -> FoundBracket -> TextLine;
  colorRanges : TextLine -> list (string * list Range) }.

(** The tokenizer, and the test [content.match(settings.regexPattern)]: the
    session reads a [regexPattern] that [settings.ts] does not declare. *)
Class Collaborators : Type := {
  tokenize : string -> string -> Tokenized;
  regexPattern : Settings -> string -> bool }.

(** What [console.warn] was given. *)
Inductive Warning : Type :=
| WarnText (text : string)
| WarnError (err : JsError).

(** The editor window and the runtime around a session: the visible editors,
    the calls of [setDecorations] so far (oldest first), the console, and the
    pending timers ([handle], delay); every timer of a session calls its
    [updateDecorations]. *)
Record Host : Type := {
  visibleTextEditors : list TextEditor;
  setDecorations : list SetDecorations;
  console : list Warning;
  timers : list (nat * Z);
  nextTimer : nat }.

(** How a call of [updateDecorations] ended. *)
Inductive PassExit : Type :=
| NoEditors
| TokenizeFalsy
| TokenizeThrew
| Colored
| Threw (e : JsError).

Section Session.

Context {TextLine : Type} {textLineClass : TextLineClass TextLine}
  {collaborators : Collaborators}.

Record DocumentDecoration : Type := {
  updateDecorationTimeout : option nat;
  lineToUpdateWhenTimeoutEnds : LineNumber;
  lines : list TextLine;
  document : TextDocument;
  settings : Settings }.

(** The constructor, with the field initializers of the class. *)
Definition newDocumentDecoration (document : TextDocument) (settings : Settings)
  : DocumentDecoration :=
  {| updateDecorationTimeout := None;
     lineToUpdateWhenTimeoutEnds := Line 0;
     lines := [];
     document := document;
     settings := settings |}.

Definition withLines (this : DocumentDecoration) (lines : list TextLine)
  : DocumentDecoration :=
  {| updateDecorationTimeout := updateDecorationTimeout this;
     lineToUpdateWhenTimeoutEnds := lineToUpdateWhenTimeoutEnds this;
     lines := lines;
     document := document this;
     settings := settings this |}.

Definition withLineToUpdate (this : DocumentDecoration) (marker : LineNumber)
  : DocumentDecoration :=
  {| updateDecorationTimeout := updateDecorationTimeout this;
     lineToUpdateWhenTimeoutEnds := marker;
     lines := lines this;
     document := document this;
     settings := settings this |}.

Definition withTimeout (this : DocumentDecoration) (handle : option nat)
  : DocumentDecoration :=
  {| updateDecorationTimeout := handle;
     lineToUpdateWhenTimeoutEnds := lineToUpdateWhenTimeoutEnds this;
     lines := lines this;
     document := document this;
     settings := settings this |}.

Definition withSettings (this : DocumentDecoration) (settings : Settings)
  : DocumentDecoration :=
  {| updateDecorationTimeout := updateDecorationTimeout this;
     lineToUpdateWhenTimeoutEnds := lineToUpdateWhenTimeoutEnds this;
     lines := lines this;
     document := document this;
     settings := settings |}.

(** [dispose]. *)
Definition dispose (this : DocumentDecoration) : DocumentDecoration :=
  withSettings this (disposeSettings (settings this)).

(** [getLine]: the loop that appends the lines from [i] on, [count] of them.
    A throw of [lineAt] leaves the lines appended so far in place. *)
Fixpoint pushLines (document : TextDocument) (settings : Settings)
    (count i : nat) (lines : list TextLine) : list TextLine * Completion unit :=
  match count with
  | 0 => (lines, Normal ())
  | S count =>
      match lineAt document i with
      | Throw e => (lines, Throw e)
      | Normal text =>
          match last lines with
          | None =>
              (lines, Throw (TypeError "Cannot read property 'copyMultilineContext' of undefined"))
          | Some previousLine =>
              let newLine :=
                newTextLine text settings i (Some (copyMultilineContext previousLine)) in
              pushLines document settings count (S i) (lines ++ [newLine])
          end
      end
  end.

(** [getLine] returns a reference into [this.lines]: here the index of the
    line, next to the array as the call leaves it. *)
Definition getLine (this : DocumentDecoration) (index : nat) (document : TextDocument)
  : DocumentDecoration * Completion nat :=
  if decide (index < length (lines this)) then (this, Normal index)
  else
    let first :=
      if decide (length (lines this) = 0) then
        match lineAt document 0 with
        | Normal text => (lines this ++ [newTextLine text (settings this) 0 None], Normal ())
        | Throw e => (lines this, Throw e)
        end
      else (lines this, Normal ()) in
    match first with
    | (lines0, Throw e) => (withLines this lines0, Throw e)
    | (lines0, Normal _) =>
        match pushLines document (settings this)
                        (S index - length lines0) (length lines0) lines0 with
        | (lines1, Throw e) => (withLines this lines1, Throw e)
        | (lines1, Normal _) => (withLines this lines1, Normal (length lines1 - 1))
        end
    end.

(** [updateLowestLineNumber]. *)
Definition updateLowestLineNumber (this : DocumentDecoration)
    (contentChanges : list TextDocumentContentChangeEvent) : DocumentDecoration :=
  foldl (fun this contentChange =>
           withLineToUpdate this
             (mathMin (lineToUpdateWhenTimeoutEnds this)
                      (line (start (Vscode.range contentChange)))))
        this contentChanges.

(** [parseTokenOrStringArray], over the function that handles a token. *)
Definition parseArrayWith
    (parseToken : Token -> nat -> nat -> list FoundBracket -> Cursor * list FoundBracket)
  : list TokenOrString -> nat -> nat -> list FoundBracket -> Cursor * list FoundBracket :=
  fix go tokenized lineIndex charIndex positions :=
    match tokenized with
    | [] => ({| lineIndex := lineIndex; charIndex := charIndex |}, positions)
    | token :: rest =>
        let '(result, positions) :=
          match token with
          | IsToken token => parseToken token lineIndex charIndex positions
          | IsString token => (parseString token lineIndex charIndex, positions)
          end in
        match result with
        | Build_Cursor lineIndex charIndex => go rest lineIndex charIndex positions
        end
    end.

(** [parseToken]; [positions.push] appends. *)
Fixpoint parseToken (this : DocumentDecoration) (token : Token)
    (lineIndex charIndex : nat) (positions : list FoundBracket) {struct token}
  : Cursor * list FoundBracket :=
  match token with
  | MkToken type (ContentString content) =>
      let positions :=
        if decide (type = "punctuation") then
          if atOrAbove lineIndex (lineToUpdateWhenTimeoutEnds this)
             && regexPattern (settings this) content then
            let startPos := {| line := lineIndex; character := charIndex |} in
            let endPos := translate startPos 0 (String.length content) in
            positions ++ [{| range := {| start := startPos; end_ := endPos |};
                             bracketText := content |}]
          else positions
        else positions in
      (parseString content lineIndex charIndex, positions)
  | MkToken _ (ContentArray content) =>
      parseArrayWith (parseToken this) content lineIndex charIndex positions
  | MkToken _ (ContentToken inner) =>
      match inner with
      | MkToken _ (ContentArray content) =>
          parseArrayWith (parseToken this) content lineIndex charIndex positions
      | _ => parseToken this inner lineIndex charIndex positions
      end
  end.

Definition parseTokenOrStringArray (this : DocumentDecoration)
  : list TokenOrString -> nat -> nat -> list FoundBracket -> Cursor * list FoundBracket :=
  parseArrayWith (parseToken this).

(** Updates of the host record. *)
Definition warn (host : Host) (warning : Warning) : Host :=
  {| visibleTextEditors := visibleTextEditors host;
     setDecorations := setDecorations host;
     console := console host ++ [warning];
     timers := timers host;
     nextTimer := nextTimer host |}.

Definition render (host : Host) (calls : list SetDecorations) : Host :=
  {| visibleTextEditors := visibleTextEditors host;
     setDecorations := setDecorations host ++ calls;
     console := console host;
     timers := timers host;
     nextTimer := nextTimer host |}.

(** [clearTimeout(handle)]: a handle that is not pending is ignored. *)
Definition clearTimeout (handle : nat) (host : Host) : Host :=
  {| visibleTextEditors := visibleTextEditors host;
     setDecorations := setDecorations host;
     console := console host;
     timers := filter (fun timer => timer.1 ≠ handle) (timers host);
     nextTimer := nextTimer host |}.

(** [setTimeout(callback, delay)] returns a fresh handle. *)
Definition setTimeout (delay : Z) (host : Host) : nat * Host :=
  (nextTimer host,
   {| visibleTextEditors := visibleTextEditors host;
      setDecorations := setDecorations host;
      console := console host;
      timers := timers host ++ [(nextTimer host, delay)];
      nextTimer := S (nextTimer host) |}).

(** The [positions.forEach] of [updateDecorations]: [addBracket] changes the
    line object that [getLine] returned, in place. *)
Fixpoint addBrackets (this : DocumentDecoration) (positions : list FoundBracket)
  : DocumentDecoration * Completion unit :=
  match positions with
  | [] => (this, Normal ())
  | element :: rest =>
      match getLine this (line (start (range element))) (document this) with
      | (this, Throw e) => (this, Throw e)
      | (this, Normal currentLine) =>
          addBrackets
            (withLines this
               (alter (fun textLine => addBracket textLine element) currentLine
                      (lines this)))
            rest
      end
  end.

(** [colorDecorations], first half: all lines reduced into one map. *)
Definition reduceLine (colorMap : gmap string (list Range)) (line : TextLine)
  : gmap string (list Range) :=
  foldl (fun colorMap entry =>
           match colorMap !! entry.1 with
           | Some existingRanges => <[entry.1 := existingRanges ++ entry.2]> colorMap
           | None => <[entry.1 := entry.2]> colorMap
           end)
        colorMap (colorRanges line).

Definition reduceLines (lines : list TextLine) : gmap string (list Range) :=
  foldl reduceLine ∅ lines.

(** [colorMap.get(color)]: a key that is not a string is not a key of the
    map. *)
Definition colorMapGet (colorMap : gmap string (list Range)) (color : JValue)
  : option (list Range) :=
  match color with
  | JString color => colorMap !! color
  | _ => None
  end.

(** Second half, for one entry of [settings.bracketDecorations]: the empty
    color is passed over; any other gets one call per editor, with the ranges
    of the map or with an empty array. *)
Definition decorate (colorMap : gmap string (list Range)) (editors : list TextEditor)
    (entry : JValue * TextEditorDecorationType) : list SetDecorations :=
  match entry.1 with
  | JString EmptyString => []
  | color =>
      let ranges := colorMapGet colorMap color in
      (fun editor =>
         {| editor := editor;
            decoration := entry.2;
            ranges := match ranges with
                      | Some ranges => ranges
                      | None => []
                      end |}) <$> editors
  end.

Definition colorDecorations (this : DocumentDecoration) (editors : list TextEditor)
    (host : Host) : DocumentDecoration * Host :=
  let colorMap := reduceLines (lines this) in
  let calls :=
    flat_map (decorate colorMap editors) (bracketDecorations (settings this)) in
  (withLineToUpdate this Infinity, render host calls).

(** [vscode.window.visibleTextEditors.filter((e) => this.document === e.document)]. *)
Definition documentEditors (this : DocumentDecoration) (host : Host)
  : list TextEditor :=
  filter (fun e => uri (document this) = Vscode.document e) (visibleTextEditors host).

(** [updateDecorations]. *)
Definition updateDecorations (this : DocumentDecoration) (host : Host)
  : DocumentDecoration * Host * PassExit :=
  let editors := documentEditors this host in
  if decide (length editors = 0) then
    (this,
     warn host (WarnText ("No editors associated with document: "
                          +:+ fileName (document this))),
     NoEditors)
  else
    let lineNumber := lineToUpdateWhenTimeoutEnds this in
    let amountToRemove := minus (length (lines this)) lineNumber in
    let this := withLines this (splice (lines this) lineNumber amountToRemove) in
    let text := getText (document this) in
    match tokenize text (languageId (document this)) with
    | Throws err => (this, warn host (WarnError err), TokenizeThrew)
    | Falsy => (this, host, TokenizeFalsy)
    | Tokens tokenized =>
        let positions := (parseTokenOrStringArray this tokenized 0 0 []).2 in
        match addBrackets this positions with
        | (this, Throw e) => (this, host, Threw e)
        | (this, Normal _) => (colorDecorations this editors host, Colored)
        end
    end.

(** [triggerUpdateDecorations]; the last component is the exit of the pass
    that ran inside the call, if one did. *)
Definition triggerUpdateDecorations (this : DocumentDecoration) (host : Host)
  : DocumentDecoration * Host * option PassExit :=
  if isDisposed (settings this) then (this, host, None)
  else if decide (0 < timeOutLength (settings this))%Z then
    let host := match updateDecorationTimeout this with
                | Some handle => clearTimeout handle host
                | None => host
                end in
    let '(handle, host) := setTimeout (timeOutLength (settings this)) host in
    (withTimeout this (Some handle), host, None)
  else
    let '(this, host, exit) := updateDecorations this host in
    (this, host, Some exit).

(** [onDidChangeTextDocument]. *)
Definition onDidChangeTextDocument (this : DocumentDecoration)
    (contentChanges : list TextDocumentContentChangeEvent) (host : Host)
  : DocumentDecoration * Host * option PassExit :=
  triggerUpdateDecorations (updateLowestLineNumber this contentChanges) host.

(** The runtime fires a pending timer: the timer leaves the queue and its
    callback, [() => this.updateDecorations()], runs. *)
Definition timerFires (handle : nat) (this : DocumentDecoration) (host : Host)
  : DocumentDecoration * Host * option PassExit :=
  if bool_decide (handle ∈ (timers host).*1) then
    let '(this, host, exit) := updateDecorations this (clearTimeout handle host) in
    (this, host, Some exit)
  else (this, host, None).

End Session.

Arguments DocumentDecoration TextLine : clear implicits.

(** ** A stand-in line, tokenizer and configuration for the examples *)

(** A line that keeps the brackets it was given and colors all of them Gold. *)
Record PlainLine : Type := {
  plainIndex : nat;
  plainText : string;
  plainBrackets : list FoundBracket }.

Definition plainLineClass : TextLineClass PlainLine :=
  {| MultilineContext := unit;
     newTextLine text _ index _ :=
       {| plainIndex := index; plainText := text; plainBrackets := [] |};
     copyMultilineContext _ := ();
     addBracket textLine found :=
       {| plainIndex := plainIndex textLine;
          plainText := plainText textLine;
          plainBrackets := plainBrackets textLine ++ [found] |};
     colorRanges textLine :=
       match plainBrackets textLine with
       | [] => []
       | brackets => [("Gold", range <$> brackets)]
       end |}.

(** One token per character: round brackets are punctuation, the rest is
    plain text; the empty text comes back as the array of itself. *)
Fixpoint charTokens (text : string) : list TokenOrString :=
  match text with
  | EmptyString => []
  | String c rest =>
      (if bool_decide (c ∈ String.list_ascii_of_string "()") then
         IsToken (MkToken "punctuation" (ContentString (String c EmptyString)))
       else IsString (String c EmptyString)) :: charTokens rest
  end.

(** A tokenizer without a grammar for [typescriptreact], the name the editor
    gives the language of a [.tsx] file (the tokenizer's name for it is
    [tsx]): [prism.languages[languageId]] is then [undefined] and
    [prism.tokenize] throws on reading its [rest].  The pattern test is the
    one of the code as it stands: [settings.ts] declares no [regexPattern], so
    the test is [content.match(undefined)], which every string passes. *)
Definition plainCollaborators : Collaborators :=
  {| tokenize text languageId :=
       if decide (languageId = "typescriptreact") then
         Throws (TypeError "Cannot read property 'rest' of undefined")
       else
         match text with
         | EmptyString => Tokens [IsString ""]
         | _ => Tokens (charTokens text)
         end;
     regexPattern _ _ := true |}.

Fixpoint lookupKey (entries : list (string * JValue)) (key : string) : JValue :=
  match entries with
  | [] => JUndefined
  | (k, v) :: rest => if decide (k = key) then v else lookupKey rest key
  end.

(** The scalar settings of a working configuration. *)
Definition scalarEntries (timeOut : Z) : list (string * JValue) :=
  [("activeScopeCSS",
    JArray [JString "borderStyle : solid"; JString "borderWidth : 1px";
            JString "borderColor : {color}; opacity: 0.5"]);
   ("scopeLineCSS",
    JArray [JString "borderStyle : solid"; JString "borderWidth : 1px";
            JString "borderColor : {color}; opacity: 0.5"]);
   ("highlightActiveScope", JBool false);
   ("showScopeLine", JBool false);
   ("showScopeLineExtra", JBool false);
   ("scopeLineRelativePosition", JBool true);
   ("showBracketsInGutter", JBool false);
   ("forceUniqueOpeningColor", JBool false);
   ("forceIterationColorCycle", JBool false);
   ("timeOut", JNumber timeOut)].

(** A configuration in Consecutive mode with the given [consecutivePairColors]. *)
Definition consecutiveConfiguration (timeOut : Z) (pairColors : JValue) : Configuration :=
  lookupKey (("colorMode", JString "Consecutive")
             :: ("consecutivePairColors", pairColors) :: scalarEntries timeOut).

(** A configuration in Independent mode with the given [independentPairColors]. *)
Definition independentConfiguration (timeOut : Z) (pairColors : JValue) : Configuration :=
  lookupKey (("colorMode", JString "Independent")
             :: ("independentPairColors", pairColors) :: scalarEntries timeOut).

Definition editorConfiguration : Configuration :=
  lookupKey [("fontFamily", JString "monospace")].

(** The settings a configuration constructs, or [None] when the constructor
    throws. *)
Definition constructed (configuration : Configuration) : option Settings :=
  match newSettings "typescript" editorConfiguration configuration 0 with
  | Normal (settings, _) => Some settings
  | Throw _ => None
  end.

(** What stands in where the constructor threw: nothing configured. *)
Definition noSettings : Settings :=
  {| bracketDecorations := [];
     bracketPairs := [];
     colorMode := Consecutive;
     forceIterationColorCycle := false;
     forceUniqueOpeningColor := false;
     prismLanguageID := "";
     regexNonExact := {| source := ""; global := true |};
     timeOutLength := 0;
     highlightActiveScope := false;
     showScopeLine := false;
     showScopeLineExtra := false;
     showBracketsInGutter := false;
     scopeLineRelativePosition := false;
     isDisposed := true;
     activeBracketCSSElements := [];
     activeScopeLineCSSElements := [];
     activeScopeLineCSSBorder := "none";
     fontFamily := JUndefined |}.

Definition settingsOf (configuration : Configuration) : Settings :=
  default noSettings (constructed configuration).

(** Round brackets, palette Gold and Orchid, orphans Red. *)
Definition goldConfiguration (timeOut : Z) : Configuration :=
  consecutiveConfiguration timeOut
    (JArray [JString "()"; JArray [JString "Gold"; JString "Orchid"]; JString "Red"]).

(** The same with the empty string as orphan color. *)
Definition noOrphanConfiguration : Configuration :=
  consecutiveConfiguration 0
    (JArray [JString "()"; JArray [JString "Gold"; JString "Orchid"]; JString ""]).

Definition plainDocument (languageId : string) (textLines : list string) : TextDocument :=
  {| uri := 1; fileName := "sample.ts"; languageId := languageId;
     textLines := textLines |}.

(** A session on the stand-in line, and its steps with the stand-in
    collaborators. *)
Definition plainSession (marker : LineNumber) (cache : list PlainLine)
    (document : TextDocument) (settings : Settings) : DocumentDecoration PlainLine :=
  {| updateDecorationTimeout := None;
     lineToUpdateWhenTimeoutEnds := marker;
     lines := cache;
     document := document;
     settings := settings |}.

Definition plainPass
  : DocumentDecoration PlainLine -> Host -> DocumentDecoration PlainLine * Host * PassExit :=
  @updateDecorations PlainLine plainLineClass plainCollaborators.

(** A window with one editor, which shows the document above. *)
Definition plainHost : Host :=
  {| visibleTextEditors := [{| viewColumn := 1; Vscode.document := 1 |}];
     setDecorations := [];
     console := [];
     timers := [];
     nextTimer := 0 |}.

Definition plainEdit
  : DocumentDecoration PlainLine -> list TextDocumentContentChangeEvent -> Host ->
    DocumentDecoration PlainLine * Host * option PassExit :=
  @onDidChangeTextDocument PlainLine plainLineClass plainCollaborators.

(** A change that starts on the given line. *)
Definition changeAt (startLine : nat) : TextDocumentContentChangeEvent :=
  {| Vscode.range := {| start := {| line := startLine; character := 0 |};
                        end_ := {| line := startLine; character := 1 |} |} |}.

(** A new session on a two-line document. *)
Definition goldSession : DocumentDecoration PlainLine :=
  plainSession (Line 0) [] (plainDocument "typescript" ["(("; ")"])
               (settingsOf (goldConfiguration 0)).

(** The same document in a language the tokenizer has no grammar for. *)
Definition tsxSession : DocumentDecoration PlainLine :=
  plainSession (Line 0) [] (plainDocument "typescriptreact" ["(("; ")"])
               (settingsOf (goldConfiguration 0)).

(** The same document with the empty string configured as orphan color. *)
Definition noOrphanSession : DocumentDecoration PlainLine :=
  plainSession (Line 0) [] (plainDocument "typescript" ["(("; ")"])
               (settingsOf noOrphanConfiguration).

(** A document that was emptied: the cache still holds the line it had. *)
Definition emptiedSession : DocumentDecoration PlainLine :=
  plainSession (Line 0) (lines (plainPass goldSession plainHost).1.1)
               (plainDocument "typescript" [""])
               (settingsOf (goldConfiguration 0)).

(** A document that was emptied without an edit being notified: the marker
    is where the earlier pass left it, beyond every line. *)
Definition staleSession : DocumentDecoration PlainLine :=
  plainSession Infinity (lines (plainPass goldSession plainHost).1.1)
               (plainDocument "typescript" [""])
               (settingsOf (goldConfiguration 0)).

(** A new session on an empty document, with the empty string configured as
    orphan color. *)
Definition emptyNoOrphanSession : DocumentDecoration PlainLine :=
  plainSession (Line 0) [] (plainDocument "typescript" [""])
               (settingsOf noOrphanConfiguration).

(** The session a pass left, on the document with its second line edited,
    and the same with a debounce delay. *)
Definition editedSession : DocumentDecoration PlainLine :=
  plainSession Infinity (lines (plainPass goldSession plainHost).1.1)
               (plainDocument "typescript" ["(("; "))"])
               (settingsOf (goldConfiguration 0)).

Definition delayedSession : DocumentDecoration PlainLine :=
  plainSession Infinity (lines (plainPass goldSession plainHost).1.1)
               (plainDocument "typescript" ["(("; "))"])
               (settingsOf (goldConfiguration 200)).

(** The session a pass left, with a debounce delay, on the document with
    both of its lines edited. *)
Definition burstSession : DocumentDecoration PlainLine :=
  plainSession Infinity (lines (plainPass goldSession plainHost).1.1)
               (plainDocument "typescript" ["("; "))"])
               (settingsOf (goldConfiguration 200)).

(** The timer of a stand-in session fires. *)
Definition plainTimerFires
  : nat -> DocumentDecoration PlainLine -> Host ->
    DocumentDecoration PlainLine * Host * option PassExit :=
  @timerFires PlainLine plainLineClass plainCollaborators.

(** The configuration above with a [scopeLineCSS] that names no border
    style, and one in Independent mode. *)
Definition borderlessConfiguration : Configuration :=
  lookupKey (("scopeLineCSS", JArray [JString "borderWidth : 1px"])
             :: ("colorMode", JString "Consecutive")
             :: ("consecutivePairColors",
                 JArray [JString "()"; JArray [JString "Gold"]; JString "Red"])
             :: scalarEntries 0).

(** Independent mode with one entry, whose brackets are a single character. *)
Definition shortConfiguration : Configuration :=
  independentConfiguration 0
    (JArray [JArray [JString "("; JArray [JString "Gold"]; JString "Red"]]).

Definition squareConfiguration : Configuration :=
  independentConfiguration 0
    (JArray [JArray [JArray [JString "["; JString "]"; JString "unused"];
                     JArray [JString "Gold"]; JString "Red"]]).

(** A window without an editor. *)
Definition emptyHost : Host :=
  {| visibleTextEditors := [];
     setDecorations := [];
     console := [];
     timers := [];
     nextTimer := 0 |}.

(** The tokens the stand-in tokenizer returns for the two-line document. *)
Definition goldTokens : list TokenOrString :=
  charTokens (getText (plainDocument "typescript" ["(("; ")"])).

(** ** Notions the properties are stated with *)

(** The colors known to a configuration: the palette entries and the orphan
    color of every pair definition. *)
Definition configuredColors (bracketPairs : list BracketPair) : list JValue :=
  flat_map (fun bracketPair =>
              colors bracketPair ++ [JString (orphanColor bracketPair)])
           bracketPairs.

(** The calls of [setDecorations] that a step added to the host. *)
Definition emitted (before after : Host) : list SetDecorations :=
  drop (length (setDecorations before)) (setDecorations after).

(** The text a token tree covers: its leaves, concatenated. *)
Fixpoint leafText (token : Token) : string :=
  match token with
  | MkToken _ (ContentString content) => content
  | MkToken _ (ContentArray content) =>
      (fix go (content : list TokenOrString) : string :=
         match content with
         | [] => ""
         | IsString s :: rest => s +:+ go rest
         | IsToken t :: rest => leafText t +:+ go rest
         end) content
  | MkToken _ (ContentToken inner) => leafText inner
  end.

Fixpoint leafTexts (tokenized : list TokenOrString) : string :=
  match tokenized with
  | [] => ""
  | IsString s :: rest => s +:+ leafTexts rest
  | IsToken t :: rest => leafText t +:+ leafTexts rest
  end.

(** Document order on positions: by line, then by column. *)
Definition notAfter (p q : Position) : Prop :=
  line p < line q \/ (line p = line q /\ character p ≤ character q).

(** The brackets of a list start in document order. *)
Fixpoint inDocumentOrder (positions : list FoundBracket) : Prop :=
  match positions with
  | [] => True
  | found :: rest =>
      Forall (fun later => notAfter (start (range found)) (start (range later))) rest
      /\ inDocumentOrder rest
  end.

(** The brackets recorded so far are in document order and none starts
    after the cursor. *)
Definition walked (li ci : nat) (positions : list FoundBracket) : Prop :=
  Forall (fun found => notAfter (start (range found)) {| line := li; character := ci |})
         positions
  /\ inDocumentOrder positions.

(** Every decoration of a table was drawn from the counter before [nextKey],
    and no two entries share one. *)
Definition freshTable (decorations : JsMap TextEditorDecorationType) (nextKey : nat)
  : Prop :=
  Forall (fun entry => key entry.2 < nextKey) decorations
  /\ NoDup ((fun entry => key entry.2) <$> decorations).

(** A thrown [Error] whose message starts with the name of a setting. *)
Definition names (field : string) (e : JsError) : Prop :=
  exists message, e = Error message /\ String.prefix field message = true.

(** A thrown [Error] whose message starts the way the Independent branch
    names an entry: with [independentPairColors] when the entry is not an
    array, with [independentSettings] in every later check. *)
Definition namesIndependentEntry (e : JsError) : Prop :=
  names "independentPairColors" e \/ names "independentSettings" e.

(** Every setting the constructor reads before the pair colors is of the
    type it asks for. *)
Definition scalarsValid (configuration : Configuration) : Prop :=
  (exists elements, cssElements configuration "activeScopeCSS" = Normal elements)
  /\ (exists elements,
        cssElements configuration "scopeLineCSS" = Normal elements
        /\ exists border, scopeLineBorder elements = Normal border)
  /\ Forall (fun key => isBoolean (configuration key) = true)
            ["highlightActiveScope"; "showScopeLine"; "showScopeLineExtra";
             "scopeLineRelativePosition"; "showBracketsInGutter";
             "forceUniqueOpeningColor"; "forceIterationColorCycle"]
  /\ isNumber (configuration "timeOut") = true.

(** A wrong element count in [consecutivePairColors]: fewer than three
    entries, or a bracket entry that is not made of two elements. *)
Definition wrongConsecutiveCount (consecutiveSettings : list JValue) : Prop :=
  length consecutiveSettings < 3
  \/ exists index brackets,
       index < length consecutiveSettings - 2
       /\ consecutiveSettings !! index = Some brackets
       /\ isString brackets || isArray brackets = true
       /\ lengthOf brackets ≠ 2.

(** A wrong element count in [independentPairColors]: an entry whose
    brackets have fewer than two elements. *)
Definition wrongIndependentCount (independentSettings : list JValue) : Prop :=
  exists index innerArray,
    independentSettings !! index = Some innerArray
    /\ isArray innerArray = true
    /\ isString (elementAt innerArray 0) || isArray (elementAt innerArray 0) = true
    /\ lengthOf (elementAt innerArray 0) < 2.

(** The pair colors the constructor reads in a mode. *)
Definition pairsFor (mode : ColorMode) (configuration : Configuration)
  : Completion (list BracketPair) :=
  match mode with
  | Consecutive => consecutivePairs configuration
  | Independent => independentPairs configuration
  end.

Section SessionNotions.

Context {TextLine : Type} {textLineClass : TextLineClass TextLine}
  {collaborators : Collaborators}.

Implicit Types this : DocumentDecoration TextLine.

(** Two sessions that differ at most in their cached lines. *)
Definition sameButLines this this' : Prop :=
  updateDecorationTimeout this' = updateDecorationTimeout this
  /\ lineToUpdateWhenTimeoutEnds this' = lineToUpdateWhenTimeoutEnds this
  /\ document this' = document this
  /\ settings this' = settings this.

(** The session as the pass has it once the cache is cut at the marker. *)
Definition cut this : DocumentDecoration TextLine :=
  withLines this
    (splice (lines this) (lineToUpdateWhenTimeoutEnds this)
            (minus (length (lines this)) (lineToUpdateWhenTimeoutEnds this))).

(** What a pass does once it has found editors and cut the cache. *)
Definition afterCut this (editors : list TextEditor) host
  : DocumentDecoration TextLine * Host * PassExit :=
  match tokenize (getText (document this)) (languageId (document this)) with
  | Throws err => (this, warn host (WarnError err), TokenizeThrew)
  | Falsy => (this, host, TokenizeFalsy)
  | Tokens tokenized =>
      match addBrackets this (parseTokenOrStringArray this tokenized 0 0 []).2 with
      | (this, Throw e) => (this, host, Threw e)
      | (this, Normal _) => (colorDecorations this editors host, Colored)
      end
  end.

End SessionNotions.

Section WalkNotions.

Context {TextLine : Type} {collaborators : Collaborators}.

Implicit Types this : DocumentDecoration TextLine.

(** A bracket as [parseToken] builds it: it lies on one line, ends its text's
    length after its start, and its text passed the pattern test. *)
Definition recordedBy this (found : FoundBracket) : Prop :=
  line (end_ (range found)) = line (start (range found))
  /\ character (end_ (range found))
     = character (start (range found)) + String.length (bracketText found)
  /\ regexPattern (settings this) (bracketText found) = true.

End WalkNotions.

Section CacheNotions.

Context {TextLine : Type} {textLineClass : TextLineClass TextLine}.

(** The context a line at index [i] is constructed with: none for line 0, a
    copy of the context of the line before it otherwise. *)
Definition carriedContext (cache : list TextLine) (i : nat) : option MultilineContext :=
  match i with
  | 0 => None
  | S j => copyMultilineContext <$> cache !! j
  end.

(** From index [from] on, every line of the cache is a line as [getLine]
    constructs it: from the document's text of the same index and the context
    of the line before it. *)
Definition builtFrom (document : TextDocument) (settings : Settings)
    (cache : list TextLine) (from : nat) : Prop :=
  forall i,
    from ≤ i -> i < length cache ->
    exists text,
      textLines document !! i = Some text
      /\ cache !! i = Some (newTextLine text settings i (carriedContext cache i)).

End CacheNotions.

Section RebuildNotions.

Context {TextLine : Type} {textLineClass : TextLineClass TextLine}.

(** From index [from] on, every line of the cache is the line [getLine]
    constructs for its index, with the brackets of [found] that start on it
    added in their order. *)
Definition rebuiltFrom (document : TextDocument) (settings : Settings)
    (cache : list TextLine) (from : nat) (found : list FoundBracket) : Prop :=
  forall i,
    from ≤ i -> i < length cache ->
    exists text,
      textLines document !! i = Some text
      /\ cache !! i
         = Some (foldl addBracket
                       (newTextLine text settings i (carriedContext cache i))
                       (filter (fun bracket => line (start (range bracket)) = i) found)).

End RebuildNotions.

Section RenderNotions.

Context {TextLine : Type} {textLineClass : TextLineClass TextLine}.

(** The ranges the lines of a cache hold for a color: those of every entry
    under that color, line after line, in the order the entries come. *)
Definition rangesOf (color : string) (cache : list TextLine) : list (list Range) :=
  snd <$> filter (fun entry => entry.1 = color) (flat_map colorRanges cache).

End RenderNotions.

Section SchedulerNotions.

Context {TextLine : Type} {textLineClass : TextLineClass TextLine}
  {collaborators : Collaborators}.

Implicit Types this : DocumentDecoration TextLine.

(** A run of edit notifications, one after the other. *)
Definition afterEdits this (host : Host)
    (edits : list (list TextDocumentContentChangeEvent))
  : DocumentDecoration TextLine * Host :=
  foldl (fun state contentChanges =>
           (onDidChangeTextDocument state.1 contentChanges state.2).1)
        (this, host) edits.

(** The start lines of the changes of a run of notifications. *)
Definition startLines (edits : list (list TextDocumentContentChangeEvent)) : list nat :=
  (fun change => line (start (Vscode.range change))) <$> concat edits.

End SchedulerNotions.

(** The text of a literal that is a string. *)
Definition stringOf (v : JValue) : string :=
  match v with
  | JString s => s
  | _ => ""
  end.

(** The open and close literals of the pairs, in the order [createRegex]
    collects them. *)
Definition literalsOf (bracketPairs : list BracketPair) : list JValue :=
  flat_map (fun bracketPair =>
              [openCharacter bracketPair; closeCharacter bracketPair])
           bracketPairs.

(** A table whose decorations were all drawn from the counter at or after
    [first], each created with the color it is stored under, and whose keys
    are distinct. *)
Definition exactTable (first : nat) (m : JsMap TextEditorDecorationType) : Prop :=
  Forall (fun entry => first ≤ key entry.2 /\ color entry.2 = entry.1) m
  /\ NoDup (fst <$> m).

(** ** Induction over values and token trees *)

Lemma JValue_nested_ind (P : JValue -> Prop) :
  P JUndefined -> P JNull -> (forall b, P (JBool b)) -> (forall z, P (JNumber z)) ->
  (forall s, P (JString s)) -> (forall l, Forall P l -> P (JArray l)) -> P JObject ->
  forall v, P v.
Proof.
  intros Hu Hn Hb Hz Hs Ha Ho.
  fix IH 1.
  intros [| |b|z|s|l|];
    [exact Hu | exact Hn | apply Hb | apply Hz | apply Hs | | exact Ho].
  apply Ha. induction l as [|v l IHl]; constructor; [apply IH | exact IHl].
Qed.

Lemma jvalue_eqb_eq (x y : JValue) : jvalue_eqb x y = true <-> x = y.
Proof.
  revert y. induction x as [| |b|z|s|l IHl|] using JValue_nested_ind;
    intros [| |b'|z'|s'|l'|]; simpl; try (split; [discriminate|congruence]);
    try (split; reflexivity);
    try (rewrite bool_decide_eq_true; split; congruence).
  revert l'. induction IHl as [|v l Hv _ IHl]; intros [|v' l'];
    try (split; [discriminate|congruence]); try (split; reflexivity).
  rewrite andb_true_iff, Hv. split.
  - intros [-> Hl]. apply IHl in Hl. congruence.
  - intros [= -> ->]. split; [reflexivity|]. apply IHl. reflexivity.
Qed.

Lemma jvalue_eqb_refl (x : JValue) : jvalue_eqb x x = true.
Proof. apply jvalue_eqb_eq. reflexivity. Qed.

#[export] Instance jvalue_eq_dec : EqDecision JValue.
Proof.
  intros x y. destruct (jvalue_eqb x y) eqn:E.
  - left. apply jvalue_eqb_eq, E.
  - right. intros Heq. apply jvalue_eqb_eq in Heq. congruence.
Defined.

Lemma Token_nested_ind (P : Token -> Prop) :
  (forall type s, P (MkToken type (ContentString s))) ->
  (forall type l,
      Forall (fun t => match t with IsToken t => P t | IsString _ => True end) l ->
      P (MkToken type (ContentArray l))) ->
  (forall type t, P t -> P (MkToken type (ContentToken t))) ->
  forall t, P t.
Proof.
  intros Hs Ha Ht.
  fix IH 1. intros [type [s|l|t]].
  - apply Hs.
  - apply Ha. induction l as [|[s|t] l IHl]; constructor;
      [exact I | exact IHl | apply IH | exact IHl].
  - apply Ht, IH.
Qed.

(** ** The runtime helpers *)

Lemma splice_line {A} (array : list A) (n : nat) :
  splice array (Line n) (minus (length array) (Line n)) = take n array.
Proof.
  unfold splice, minus.
  destruct (decide (n ≤ length array)) as [Hle|Hgt].
  - rewrite Nat.min_l by lia.
    replace (Z.to_nat _) with (length array - n) by lia.
    rewrite drop_ge by lia. apply app_nil_r.
  - rewrite Nat.min_r by lia.
    replace (Z.to_nat _) with 0 by lia.
    rewrite Nat.add_0_r, take_drop. symmetry. apply take_ge. lia.
Qed.

Lemma splice_Infinity {A} (array : list A) :
  splice array Infinity (minus (length array) Infinity) = array.
Proof. unfold splice, minus. rewrite Nat.add_0_r. apply take_drop. Qed.

Lemma atOrAbove_mathMin_l (marker : LineNumber) (line n : nat) :
  atOrAbove n marker = true -> atOrAbove n (mathMin marker line) = true.
Proof.
  destruct marker as [m|]; simpl; [|discriminate].
  rewrite !bool_decide_eq_true. lia.
Qed.

Lemma atOrAbove_mathMin_r (marker : LineNumber) (line : nat) :
  atOrAbove line (mathMin marker line) = true.
Proof. destruct marker as [m|]; simpl; rewrite bool_decide_eq_true; lia. Qed.

Lemma atOrAbove_Infinity (marker : LineNumber) :
  (forall n, atOrAbove n marker = false) <-> marker = Infinity.
Proof.
  split; [|intros ->; reflexivity].
  destruct marker as [m|]; [|reflexivity].
  intros H. specialize (H m). simpl in H.
  rewrite bool_decide_eq_false in H. lia.
Qed.

Lemma mapGet_mapSet_eq {V} (k : JValue) (v : V) (m : JsMap V) :
  mapGet k (mapSet k v m) = Some v.
Proof.
  induction m as [|[k' v'] m IH]; simpl.
  - rewrite jvalue_eqb_refl. reflexivity.
  - destruct (jvalue_eqb k' k) eqn:E; simpl.
    + rewrite jvalue_eqb_refl. reflexivity.
    + rewrite E. exact IH.
Qed.

Lemma mapGet_mapSet_ne {V} (k k0 : JValue) (v : V) (m : JsMap V) :
  k ≠ k0 -> mapGet k0 (mapSet k v m) = mapGet k0 m.
Proof.
  intros Hne. induction m as [|[k' v'] m IH]; simpl.
  - destruct (jvalue_eqb k k0) eqn:E; [|reflexivity].
    apply jvalue_eqb_eq in E. contradiction.
  - destruct (jvalue_eqb k' k) eqn:E; simpl.
    + apply jvalue_eqb_eq in E. subst k'.
      destruct (jvalue_eqb k k0) eqn:E'; [|reflexivity].
      apply jvalue_eqb_eq in E'. contradiction.
    + destruct (jvalue_eqb k' k0); [reflexivity|exact IH].
Qed.

Lemma mapGet_Some_elem {V} (k : JValue) (v : V) (m : JsMap V) :
  mapGet k m = Some v -> (k, v) ∈ m.
Proof.
  induction m as [|[k' v'] m IH]; simpl; [discriminate|].
  destruct (jvalue_eqb k' k) eqn:E.
  - apply jvalue_eqb_eq in E. intros [= ->]. subst. left.
  - intros H. right. auto.
Qed.

(** ** The decoration table *)

Lemma mapSet_elem {V} (k k0 : JValue) (v v0 : V) (m : JsMap V) :
  (k0, v0) ∈ mapSet k v m -> (k0, v0) = (k, v) \/ (k0, v0) ∈ m.
Proof.
  induction m as [|[k' v'] m IH]; simpl.
  - intros H. apply list_elem_of_singleton in H. auto.
  - destruct (jvalue_eqb k' k).
    + intros H. apply elem_of_cons in H as [H|H]; [auto|].
      right. right. exact H.
    + intros H. apply elem_of_cons in H as [H|H].
      * right. rewrite H. left.
      * destruct (IH H) as [?|?]; [auto|]. right. right. assumption.
Qed.

Lemma mapSet_fresh (c : JValue) (m : JsMap TextEditorDecorationType) (k : nat) :
  freshTable m k -> freshTable (mapSet c {| key := k; color := c |} m) (S k).
Proof.
  intros [Hlt Hnd]. split.
  - apply Forall_forall. intros [c' d'] Hin.
    apply mapSet_elem in Hin as [[= -> ->]|Hin]; simpl; [lia|].
    rewrite Forall_forall in Hlt. specialize (Hlt _ Hin). simpl in Hlt. lia.
  - induction m as [|[c' d'] m IH]; simpl.
    + apply NoDup_singleton.
    + apply Forall_cons in Hlt as [Hd Hlt]. simpl in Hd, Hnd.
      apply NoDup_cons in Hnd as [Hnotin Hnd].
      destruct (jvalue_eqb c' c); simpl.
      * apply NoDup_cons. split; [|exact Hnd].
        intros Hin. apply list_elem_of_fmap in Hin as [e [Hk He]].
        rewrite Forall_forall in Hlt. specialize (Hlt _ He). simpl in Hk. lia.
      * apply NoDup_cons. split; [|apply IH; assumption].
        intros Hin. apply list_elem_of_fmap in Hin as [[c2 d2] [Hk He]].
        apply mapSet_elem in He as [[= -> ->]|He]; simpl in Hk; [lia|].
        apply Hnotin. apply list_elem_of_fmap. exists (c2, d2). auto.
Qed.

Lemma decoratePalette_fresh (palette : list JValue)
    (m : JsMap TextEditorDecorationType) (k : nat) :
  freshTable m k ->
  freshTable (decoratePalette palette m k).1 (decoratePalette palette m k).2.
Proof.
  revert m k. induction palette as [|c palette IH]; intros m k H; simpl; [exact H|].
  apply IH, mapSet_fresh, H.
Qed.

Lemma decoratePairs_fresh (bracketPairs : list BracketPair)
    (m : JsMap TextEditorDecorationType) (k : nat) :
  freshTable m k ->
  freshTable (decoratePairs bracketPairs m k).1 (decoratePairs bracketPairs m k).2.
Proof.
  revert m k. induction bracketPairs as [|bp bps IH]; intros m k H; simpl; [exact H|].
  pose proof (decoratePalette_fresh (colors bp) m k H) as Hp.
  destruct (decoratePalette (colors bp) m k) as [m1 k1]. simpl in Hp.
  apply IH, mapSet_fresh, Hp.
Qed.

Lemma createBracketDecorations_fresh (bracketPairs : list BracketPair) (k : nat) :
  freshTable (createBracketDecorations bracketPairs k).1
             (createBracketDecorations bracketPairs k).2.
Proof.
  apply decoratePairs_fresh. split; [constructor|]. simpl. apply NoDup_nil_2.
Qed.

Lemma freshTable_distinct (m : JsMap TextEditorDecorationType) (k : nat)
    (c c' : JValue) (d d' : TextEditorDecorationType) :
  freshTable m k -> (c, d) ∈ m -> (c', d') ∈ m -> key d = key d' -> c = c'.
Proof.
  intros [_ Hnd]. induction m as [|[c0 d0] m IH]; [intros H; inversion H|].
  simpl in Hnd. apply NoDup_cons in Hnd as [Hnotin Hnd].
  intros H1 H2 Hk.
  apply elem_of_cons in H1 as [[= -> ->]|H1];
    apply elem_of_cons in H2 as [[= -> ->]|H2]; [reflexivity| | |auto].
  - exfalso. apply Hnotin. apply list_elem_of_fmap. exists (c', d'). auto.
  - exfalso. apply Hnotin. apply list_elem_of_fmap. exists (c, d). auto.
Qed.

Lemma mapGet_mapSet_is_Some {V} (k k0 : JValue) (v : V) (m : JsMap V) :
  k0 = k \/ is_Some (mapGet k0 m) -> is_Some (mapGet k0 (mapSet k v m)).
Proof.
  destruct (decide (jvalue_eqb k k0 = true)) as [E|E].
  - apply jvalue_eqb_eq in E. subst k0. rewrite mapGet_mapSet_eq. eauto.
  - intros [->|H].
    + rewrite mapGet_mapSet_eq. eauto.
    + rewrite mapGet_mapSet_ne; [exact H|].
      intros ->. apply E, jvalue_eqb_refl.
Qed.

Lemma decoratePalette_get (palette : list JValue)
    (m : JsMap TextEditorDecorationType) (k : nat) (c : JValue) :
  c ∈ palette \/ is_Some (mapGet c m) ->
  is_Some (mapGet c (decoratePalette palette m k).1).
Proof.
  revert m k. induction palette as [|c0 palette IH]; intros m k H; simpl.
  - destruct H as [H|H]; [inversion H|exact H].
  - apply IH. destruct H as [H|H].
    + apply elem_of_cons in H as [->|H]; [|auto].
      right. apply mapGet_mapSet_is_Some. auto.
    + right. apply mapGet_mapSet_is_Some. auto.
Qed.

Lemma decoratePairs_get (bracketPairs : list BracketPair)
    (m : JsMap TextEditorDecorationType) (k : nat) (c : JValue) :
  c ∈ configuredColors bracketPairs \/ is_Some (mapGet c m) ->
  is_Some (mapGet c (decoratePairs bracketPairs m k).1).
Proof.
  revert m k. induction bracketPairs as [|bp bps IH]; intros m k H; simpl.
  - destruct H as [H|H]; [inversion H|exact H].
  - pose proof (decoratePalette_get (colors bp) m k c) as Hp.
    destruct (decoratePalette (colors bp) m k) as [m1 k1]. simpl in Hp.
    apply IH. unfold configuredColors in H. simpl in H.
    destruct H as [H|H].
    + rewrite !elem_of_app in H. destruct H as [[H|H]|H].
      * right. apply mapGet_mapSet_is_Some. auto.
      * apply list_elem_of_singleton in H. subst c.
        right. apply mapGet_mapSet_is_Some. auto.
      * left. exact H.
    + right. apply mapGet_mapSet_is_Some. auto.
Qed.

Lemma createBracketDecorations_get (bracketPairs : list BracketPair) (k : nat)
    (c : JValue) :
  c ∈ configuredColors bracketPairs ->
  is_Some (mapGet c (createBracketDecorations bracketPairs k).1).
Proof. intros H. apply decoratePairs_get. auto. Qed.

(** ** The token walk *)

Section Walk.

Context {TextLine : Type} {textLineClass : TextLineClass TextLine}
  {collaborators : Collaborators}.

Implicit Types this : DocumentDecoration TextLine.

Lemma parseArrayWith_ext f g (tokenized : list TokenOrString) :
  Forall (fun t => match t with
                   | IsToken t => forall li ci pos, f t li ci pos = g t li ci pos
                   | IsString _ => True
                   end) tokenized ->
  forall li ci pos,
    parseArrayWith f tokenized li ci pos = parseArrayWith g tokenized li ci pos.
Proof.
  induction 1 as [|[s|t] l Ht _ IH]; intros li ci pos; simpl; [reflexivity| |].
  - destruct (parseString s li ci). apply IH.
  - rewrite Ht. destruct (g t li ci pos) as [[li' ci'] pos']. apply IH.
Qed.

(** The walk reads the session only through its marker and its settings. *)
Lemma parseToken_ext this this' (token : Token) :
  lineToUpdateWhenTimeoutEnds this = lineToUpdateWhenTimeoutEnds this' ->
  settings this = settings this' ->
  forall li ci pos, parseToken this token li ci pos = parseToken this' token li ci pos.
Proof.
  intros Hm Hs.
  induction token as [type s|type l IH|type t IH] using Token_nested_ind;
    intros li ci pos.
  - simpl. rewrite Hm, Hs. reflexivity.
  - simpl. apply parseArrayWith_ext, IH.
  - destruct t as [type' [s|l|t]]; apply IH.
Qed.

Lemma parseArrayWith_Forall (Good : FoundBracket -> Prop) f
    (tokenized : list TokenOrString) :
  Forall (fun t => match t with
                   | IsToken t =>
                       forall li ci pos, Forall Good pos -> Forall Good (f t li ci pos).2
                   | IsString _ => True
                   end) tokenized ->
  forall li ci pos,
    Forall Good pos -> Forall Good (parseArrayWith f tokenized li ci pos).2.
Proof.
  induction 1 as [|[s|t] l Ht _ IH]; intros li ci pos Hpos; simpl; [exact Hpos| |].
  - destruct (parseString s li ci). apply IH, Hpos.
  - specialize (Ht li ci pos Hpos).
    destruct (f t li ci pos) as [[li' ci'] pos']. apply IH, Ht.
Qed.

(** Whatever holds of each bracket at the point where [parseToken] pushes it
    holds of every bracket the walk adds. *)
Lemma parseToken_Forall (Good : FoundBracket -> Prop) this :
  (forall li ci content,
      atOrAbove li (lineToUpdateWhenTimeoutEnds this) = true ->
      regexPattern (settings this) content = true ->
      Good {| range := {| start := {| line := li; character := ci |};
                          end_ := translate {| line := li; character := ci |}
                                            0 (String.length content) |};
              bracketText := content |}) ->
  forall token li ci pos,
    Forall Good pos -> Forall Good (parseToken this token li ci pos).2.
Proof.
  intros Hpush token.
  induction token as [type s|type l IH|type t IH] using Token_nested_ind;
    intros li ci pos Hpos.
  - simpl. destruct (decide (type = "punctuation")); [|exact Hpos].
    destruct (atOrAbove li _) eqn:Ha; [|exact Hpos].
    destruct (regexPattern _ s) eqn:Hr; [|exact Hpos]. simpl.
    apply Forall_app. split; [exact Hpos|].
    constructor; [|constructor]. apply Hpush; assumption.
  - simpl. apply parseArrayWith_Forall; assumption.
  - destruct t as [type' [s|l|t]]; apply IH; assumption.
Qed.

Lemma parseTokenOrStringArray_Forall (Good : FoundBracket -> Prop) this :
  (forall li ci content,
      atOrAbove li (lineToUpdateWhenTimeoutEnds this) = true ->
      regexPattern (settings this) content = true ->
      Good {| range := {| start := {| line := li; character := ci |};
                          end_ := translate {| line := li; character := ci |}
                                            0 (String.length content) |};
              bracketText := content |}) ->
  forall tokenized li ci pos,
    Forall Good pos ->
    Forall Good (parseTokenOrStringArray this tokenized li ci pos).2.
Proof.
  intros Hpush tokenized li ci pos Hpos.
  apply parseArrayWith_Forall; [|exact Hpos].
  apply Forall_forall. intros [s|t] _; [exact I|].
  intros. apply parseToken_Forall; assumption.
Qed.

(** Every bracket the walk records lies at or above the marker. *)
Lemma positions_atOrAbove this tokenized li ci :
  Forall (fun found =>
            atOrAbove (line (start (range found)))
                      (lineToUpdateWhenTimeoutEnds this) = true)
         (parseTokenOrStringArray this tokenized li ci []).2.
Proof.
  apply parseTokenOrStringArray_Forall; [|constructor].
  intros li' ci' content Ha _. exact Ha.
Qed.


Lemma notAfter_refl (p : Position) : notAfter p p.
Proof. right. split; reflexivity. Qed.

Lemma notAfter_trans (p q r : Position) : notAfter p q -> notAfter q r -> notAfter p r.
Proof. unfold notAfter. intros [?|[? ?]] [?|[? ?]]; [left|left|left|right]; lia. Qed.

Lemma inDocumentOrder_snoc (positions : list FoundBracket) (found : FoundBracket) :
  inDocumentOrder positions ->
  Forall (fun earlier => notAfter (start (range earlier)) (start (range found)))
         positions ->
  inDocumentOrder (positions ++ [found]).
Proof.
  induction positions as [|first rest IH]; simpl; intros Hsorted Hall.
  - split; [constructor|exact I].
  - destruct Hsorted as [Hfirst Hrest]. apply Forall_cons in Hall as [Hhead Hall].
    split; [|apply IH; assumption].
    apply Forall_app. split; [exact Hfirst|]. constructor; [exact Hhead|constructor].
Qed.

(** [parseString] never moves the cursor back. *)
Lemma parseString_notAfter (content : string) (li ci : nat) :
  notAfter {| line := li; character := ci |}
           {| line := lineIndex (parseString content li ci);
              character := charIndex (parseString content li ci) |}.
Proof.
  unfold parseString.
  destruct (decide (1 < length (split (ascii_of_nat 10) content))); simpl.
  - left. simpl. lia.
  - right. simpl. split; lia.
Qed.

Lemma walked_advance (li ci li' ci' : nat) (positions : list FoundBracket) :
  notAfter {| line := li; character := ci |} {| line := li'; character := ci' |} ->
  walked li ci positions -> walked li' ci' positions.
Proof.
  intros Hstep [Hall Hsorted]. split; [|exact Hsorted].
  eapply Forall_impl; [exact Hall|].
  intros found Hfound. simpl in *. exact (notAfter_trans _ _ _ Hfound Hstep).
Qed.

Lemma parseArrayWith_walked f (tokenized : list TokenOrString) :
  Forall (fun t => match t with
                   | IsToken t =>
                       forall li ci pos,
                         walked li ci pos ->
                         notAfter {| line := li; character := ci |}
                                  {| line := lineIndex (f t li ci pos).1;
                                     character := charIndex (f t li ci pos).1 |}
                         /\ walked (lineIndex (f t li ci pos).1)
                                   (charIndex (f t li ci pos).1) (f t li ci pos).2
                   | IsString _ => True
                   end) tokenized ->
  forall li ci pos,
    walked li ci pos ->
    notAfter {| line := li; character := ci |}
             {| line := lineIndex (parseArrayWith f tokenized li ci pos).1;
                character := charIndex (parseArrayWith f tokenized li ci pos).1 |}
    /\ walked (lineIndex (parseArrayWith f tokenized li ci pos).1)
              (charIndex (parseArrayWith f tokenized li ci pos).1)
              (parseArrayWith f tokenized li ci pos).2.
Proof.
  induction 1 as [|[s|t] l Ht _ IH]; intros li ci pos Hwalked; simpl.
  - split; [apply notAfter_refl|exact Hwalked].
  - pose proof (parseString_notAfter s li ci) as Hstep.
    destruct (parseString s li ci) as [li' ci']. simpl in Hstep.
    destruct (IH li' ci' pos (walked_advance _ _ _ _ _ Hstep Hwalked)) as [Hrest Hw].
    split; [eapply notAfter_trans; eassumption|exact Hw].
  - destruct (Ht li ci pos Hwalked) as [Hstep Hw].
    destruct (f t li ci pos) as [[li' ci'] pos']. simpl in Hstep, Hw.
    destruct (IH li' ci' pos' Hw) as [Hrest Hw'].
    split; [eapply notAfter_trans; eassumption|exact Hw'].
Qed.

Lemma parseToken_walked this (token : Token) :
  forall li ci pos,
    walked li ci pos ->
    notAfter {| line := li; character := ci |}
             {| line := lineIndex (parseToken this token li ci pos).1;
                character := charIndex (parseToken this token li ci pos).1 |}
    /\ walked (lineIndex (parseToken this token li ci pos).1)
              (charIndex (parseToken this token li ci pos).1)
              (parseToken this token li ci pos).2.
Proof.
  induction token as [type s|type l IH|type t IH] using Token_nested_ind;
    intros li ci pos Hwalked.
  - unfold parseToken.
    pose proof (parseString_notAfter s li ci) as Hstep.
    split; [exact Hstep|]. cbn [fst snd].
    apply (walked_advance li ci); [exact Hstep|].
    destruct (decide (type = "punctuation")); [|exact Hwalked].
    destruct (atOrAbove li _ && regexPattern _ s); [|exact Hwalked].
    destruct Hwalked as [Hall Hsorted]. split.
    + apply Forall_app. split; [exact Hall|].
      constructor; [apply notAfter_refl|constructor].
    + apply inDocumentOrder_snoc; assumption.
  - apply (parseArrayWith_walked (parseToken this) l IH li ci pos Hwalked).
  - destruct t as [type' [s|l|t]]; apply IH; exact Hwalked.
Qed.

(** The walk records brackets in document order. *)
Lemma positions_inDocumentOrder this tokenized li ci :
  inDocumentOrder (parseTokenOrStringArray this tokenized li ci []).2.
Proof.
  apply (parseArrayWith_walked (parseToken this) tokenized); [|split; constructor].
  apply Forall_forall. intros [s|t] _; [exact I|]. apply parseToken_walked.
Qed.

End Walk.

(** ** The line cache *)

Section Cache.

Context {TextLine : Type} {textLineClass : TextLineClass TextLine}
  {collaborators : Collaborators}.

Implicit Types this : DocumentDecoration TextLine.

Lemma sameButLines_refl this : sameButLines this this.
Proof. repeat split. Qed.

Lemma sameButLines_withLines this this' cache :
  sameButLines this this' -> sameButLines this (withLines this' cache).
Proof. intros H. exact H. Qed.

Lemma sameButLines_eq this this' :
  sameButLines this this' -> lines this' = lines this -> this' = this.
Proof.
  destruct this, this'. unfold sameButLines. simpl.
  intros (-> & -> & -> & ->) ->. reflexivity.
Qed.

Lemma pushLines_spec (doc : TextDocument) (s : Settings) (count i : nat)
    (cache : list TextLine) :
  cache `prefix_of` (pushLines doc s count i cache).1
  /\ (forall u, (pushLines doc s count i cache).2 = Normal u ->
                length (pushLines doc s count i cache).1 = length cache + count).
Proof.
  revert i cache. induction count as [|count IH]; intros i cache; simpl.
  - split; [reflexivity|]. intros _ _. lia.
  - destruct (lineAt doc i) as [text|e]; simpl; [|split; [reflexivity|discriminate]].
    destruct (last cache) as [previousLine|]; simpl;
      [|split; [reflexivity|discriminate]].
    destruct (IH (S i) (cache ++ [newTextLine text s i (Some (copyMultilineContext previousLine))]))
      as [Hp Hl].
    split.
    + etransitivity; [|exact Hp]. apply prefix_app_r. reflexivity.
    + intros u Hu. rewrite (Hl u Hu), length_app. simpl. lia.
Qed.

Lemma getLine_spec this (index : nat) (doc : TextDocument) :
  sameButLines this (getLine this index doc).1
  /\ lines this `prefix_of` lines (getLine this index doc).1
  /\ (forall i, (getLine this index doc).2 = Normal i ->
                i = index /\ index < length (lines (getLine this index doc).1)).
Proof.
  unfold getLine.
  destruct (decide (index < length (lines this))) as [Hlt|Hge]; simpl.
  - split; [repeat split|]. split; [reflexivity|].
    intros i [= <-]. auto.
  - set (first := if decide (length (lines this) = 0) then _ else _).
    assert (Hfirst : lines this `prefix_of` first.1
                     /\ (forall u, first.2 = Normal u ->
                                   length first.1 ≤ S index)).
    { subst first. destruct (decide (length (lines this) = 0)) as [Hz|Hnz]; simpl.
      - destruct (lineAt doc 0); simpl.
        + split; [apply prefix_app_r; reflexivity|].
          intros _ _. rewrite length_app. simpl. lia.
        + split; [reflexivity|discriminate].
      - split; [reflexivity|]. intros _ _. lia. }
    destruct first as [lines0 [u|e]]; simpl in *.
    + destruct Hfirst as [Hp0 Hl0]. specialize (Hl0 u eq_refl).
      pose proof (pushLines_spec doc (settings this) (S index - length lines0)
                                 (length lines0) lines0) as [Hp1 Hl1].
      destruct (pushLines doc (settings this) (S index - length lines0)
                          (length lines0) lines0) as [lines1 [u1|e1]]; simpl in *.
      * split; [repeat split|].
        split; [etransitivity; eassumption|].
        specialize (Hl1 u1 eq_refl). intros i [= <-]. lia.
      * split; [repeat split|].
        split; [etransitivity; eassumption|discriminate].
    + split; [repeat split|]. split; [apply Hfirst|discriminate].
Qed.

Lemma prefix_alter_ge (f : TextLine -> TextLine) (base cache : list TextLine) (i : nat) :
  base `prefix_of` cache -> length base ≤ i -> base `prefix_of` alter f i cache.
Proof.
  intros [rest ->] Hle. rewrite alter_app_r_alt by exact Hle.
  apply prefix_app_r. reflexivity.
Qed.

(** Adding brackets whose lines lie at or beyond the end of [base] leaves
    [base] in place at the front of the cache. *)
Lemma addBrackets_spec (positions : list FoundBracket) this (base : list TextLine) :
  base `prefix_of` lines this ->
  Forall (fun found => length base ≤ line (start (range found))) positions ->
  sameButLines this (addBrackets this positions).1
  /\ base `prefix_of` lines (addBrackets this positions).1.
Proof.
  revert this. induction positions as [|element rest IH]; intros this Hbase Hall; simpl.
  - split; [apply sameButLines_refl|exact Hbase].
  - apply Forall_cons in Hall as [Hel Hall].
    pose proof (getLine_spec this (line (start (range element))) (document this))
      as (Hsame & Hpre & Hidx).
    destruct (getLine this (line (start (range element))) (document this))
      as [this1 [i|e]]; simpl in *.
    + destruct (Hidx i eq_refl) as [-> _].
      edestruct (IH (withLines this1
                       (alter (fun textLine => addBracket textLine element)
                              (line (start (range element))) (lines this1))))
        as [Hs Hp]; [|exact Hall|].
      * simpl. apply prefix_alter_ge; [|exact Hel]. etransitivity; eassumption.
      * split; [|exact Hp].
        destruct Hs as (? & ? & ? & ?), Hsame as (? & ? & ? & ?).
        repeat split; simpl in *; congruence.
    + split; [exact Hsame|]. etransitivity; eassumption.
Qed.

Lemma cut_lines this :
  lines (cut this)
  = match lineToUpdateWhenTimeoutEnds this with
    | Line n => take n (lines this)
    | Infinity => lines this
    end.
Proof.
  unfold cut. simpl. destruct (lineToUpdateWhenTimeoutEnds this).
  - apply splice_line.
  - apply splice_Infinity.
Qed.

(** The brackets of a pass all belong to lines at or beyond the end of the
    cut cache, so adding them leaves the cut cache in place. *)
Lemma pass_addBrackets this (tokenized : list TokenOrString) :
  sameButLines (cut this)
    (addBrackets (cut this)
       (parseTokenOrStringArray (cut this) tokenized 0 0 []).2).1
  /\ lines (cut this) `prefix_of`
       lines (addBrackets (cut this)
                (parseTokenOrStringArray (cut this) tokenized 0 0 []).2).1.
Proof.
  apply addBrackets_spec; [reflexivity|].
  eapply Forall_impl; [apply positions_atOrAbove|].
  intros found Hfound. rewrite cut_lines.
  change (lineToUpdateWhenTimeoutEnds (cut this))
    with (lineToUpdateWhenTimeoutEnds this) in Hfound.
  destruct (lineToUpdateWhenTimeoutEnds this) as [n|]; [|discriminate].
  simpl in Hfound. rewrite bool_decide_eq_true in Hfound.
  rewrite length_take. lia.
Qed.

End Cache.

(** Unfolds a pass and splits on the way it can go. *)
Ltac pass_cases this host :=
  unfold updateDecorations;
  destruct (decide (length (documentEditors this host) = 0)) as [Hnone|Hsome];
  [|simpl;
    destruct (tokenize (getText (document this)) (languageId (document this)))
      as [tokenized| |thrown] eqn:Htokenize;
    [fold (cut this);
     pose proof (pass_addBrackets this tokenized) as [Hsame Hprefix];
     destruct (addBrackets (cut this)
                 (parseTokenOrStringArray (cut this) tokenized 0 0 []).2)
       as [this1 [u|e]] eqn:Hbrackets;
     simpl in Hsame, Hprefix
    |fold (cut this)|fold (cut this)]].

(** ** The recomputation pass *)

Section Pass.

Context {TextLine : Type} {textLineClass : TextLineClass TextLine}
  {collaborators : Collaborators}.

Implicit Types this : DocumentDecoration TextLine.

Lemma updateLowestLineNumber_spec this
    (contentChanges : list TextDocumentContentChangeEvent) :
  lineToUpdateWhenTimeoutEnds (updateLowestLineNumber this contentChanges)
  = foldl mathMin (lineToUpdateWhenTimeoutEnds this)
          ((fun change => line (start (Vscode.range change))) <$> contentChanges)
  /\ lines (updateLowestLineNumber this contentChanges) = lines this
  /\ updateDecorationTimeout (updateLowestLineNumber this contentChanges)
     = updateDecorationTimeout this
  /\ document (updateLowestLineNumber this contentChanges) = document this
  /\ settings (updateLowestLineNumber this contentChanges) = settings this.
Proof.
  unfold updateLowestLineNumber. revert this.
  induction contentChanges as [|change rest IH]; intros this; simpl; [auto|].
  destruct (IH (withLineToUpdate this
                  (mathMin (lineToUpdateWhenTimeoutEnds this)
                           (line (start (Vscode.range change))))))
    as (-> & -> & -> & -> & ->).
  auto.
Qed.

Lemma foldl_mathMin_below (marker : LineNumber) (startLines : list nat) (n : nat) :
  atOrAbove n marker = true \/ (exists l, l ∈ startLines /\ l ≤ n) ->
  atOrAbove n (foldl mathMin marker startLines) = true.
Proof.
  revert marker. induction startLines as [|l rest IH]; intros marker; simpl.
  - intros [H|(l & Hl & _)]; [exact H|inversion Hl].
  - intros [H|(l' & Hl & Hle)]; apply IH.
    + left. apply atOrAbove_mathMin_l, H.
    + apply elem_of_cons in Hl as [->|Hl]; [left|right; eauto].
      destruct marker as [m|]; simpl; rewrite bool_decide_eq_true; lia.
Qed.

(** A pass that colors ends with the marker at [Infinity]; every other exit
    leaves marker and decorations as they were. *)
Lemma updateDecorations_marker this host :
  match (updateDecorations this host).2 with
  | Colored =>
      lineToUpdateWhenTimeoutEnds (updateDecorations this host).1.1 = Infinity
  | _ =>
      lineToUpdateWhenTimeoutEnds (updateDecorations this host).1.1
      = lineToUpdateWhenTimeoutEnds this
      /\ setDecorations (updateDecorations this host).1.2 = setDecorations host
  end.
Proof.
  pass_cases this host; simpl; auto.
  destruct Hsame as (_ & Hm & _). auto.
Qed.

(** C1, as amended: a new session starts with the marker at line 0 (the
    whole document is pending, and line 0 is a line of every document), not
    at the no-pending-work value.  An edit notification lowers the marker to
    the minimum of its value and the start lines of the changes: no line
    that was at or above the marker stops being so, and every changed start
    line is at or above the new marker.  A pass that reaches the coloring
    leaves the marker at [Infinity], which no line index is at or above. *)
Theorem marker_lifecycle this
    (contentChanges : list TextDocumentContentChangeEvent) host :
  (forall document settings,
      lineToUpdateWhenTimeoutEnds
        (newDocumentDecoration document settings : DocumentDecoration TextLine)
      = Line 0)
  /\ lineToUpdateWhenTimeoutEnds (updateLowestLineNumber this contentChanges)
     = foldl mathMin (lineToUpdateWhenTimeoutEnds this)
             ((fun change => line (start (Vscode.range change))) <$> contentChanges)
  /\ (forall n,
        atOrAbove n (lineToUpdateWhenTimeoutEnds this) = true ->
        atOrAbove n (lineToUpdateWhenTimeoutEnds
                       (updateLowestLineNumber this contentChanges)) = true)
  /\ (forall change,
        change ∈ contentChanges ->
        atOrAbove (line (start (Vscode.range change)))
                  (lineToUpdateWhenTimeoutEnds
                     (updateLowestLineNumber this contentChanges)) = true)
  /\ ((updateDecorations this host).2 = Colored ->
      lineToUpdateWhenTimeoutEnds (updateDecorations this host).1.1 = Infinity
      /\ forall n,
          atOrAbove n (lineToUpdateWhenTimeoutEnds (updateDecorations this host).1.1)
          = false).
Proof.
  destruct (updateLowestLineNumber_spec this contentChanges) as (Hm & _).
  split; [reflexivity|]. split; [exact Hm|].
  split; [|split].
  - intros n Hn. rewrite Hm. apply foldl_mathMin_below. auto.
  - intros change Hin. rewrite Hm. apply foldl_mathMin_below. right.
    exists (line (start (Vscode.range change))). split; [|lia].
    apply list_elem_of_fmap. eauto.
  - intros Hexit. pose proof (updateDecorations_marker this host) as Hpass.
    rewrite Hexit in Hpass. split; [exact Hpass|].
    apply atOrAbove_Infinity, Hpass.
Qed.

(** C2: when the tokenizer throws in a pass that has an editor to color, the
    error is logged on the console and the pass ends there: no call of
    [setDecorations] is made, so what the editors show stays as it was, and
    the marker keeps its value. *)
Theorem tokenizer_failure_aborts this host (err : JsError) :
  documentEditors this host ≠ [] ->
  tokenize (getText (document this)) (languageId (document this)) = Throws err ->
  (updateDecorations this host).2 = TokenizeThrew
  /\ console (updateDecorations this host).1.2 = console host ++ [WarnError err]
  /\ setDecorations (updateDecorations this host).1.2 = setDecorations host
  /\ emitted host (updateDecorations this host).1.2 = []
  /\ lineToUpdateWhenTimeoutEnds (updateDecorations this host).1.1
     = lineToUpdateWhenTimeoutEnds this.
Proof.
  intros Heditors Hthrows. unfold emitted.
  pass_cases this host; try discriminate.
  - destruct (documentEditors this host); [contradiction|discriminate].
  - injection Hthrows as ->. simpl. rewrite drop_all. auto.
Qed.

End Pass.

(** ** Rendering *)

Section Rendering.

Context {TextLine : Type} {textLineClass : TextLineClass TextLine}
  {collaborators : Collaborators}.

Implicit Types this : DocumentDecoration TextLine.

Lemma leafText_array (type : string) (content : list TokenOrString) :
  leafText (MkToken type (ContentArray content)) = leafTexts content.
Proof.
  induction content as [|[s|t] rest IH]; simpl; [reflexivity| |];
    f_equal; exact IH.
Qed.

Lemma parseString_empty (li ci : nat) :
  parseString "" li ci = {| lineIndex := li; charIndex := ci |}.
Proof. unfold parseString. simpl. rewrite Nat.add_0_r. reflexivity. Qed.

(** What a pass hands to the editors: the decoration table run over the
    reduced cache when it colors, nothing otherwise. *)
Lemma emitted_spec this host :
  emitted host (updateDecorations this host).1.2
  = match (updateDecorations this host).2 with
    | Colored =>
        flat_map (decorate (reduceLines (lines (updateDecorations this host).1.1))
                           (documentEditors this host))
                 (bracketDecorations (settings this))
    | _ => []
    end.
Proof.
  unfold emitted.
  destruct (decide (length (documentEditors this host) = 0)) as [Hnone|Hsome] eqn:Hd;
    unfold updateDecorations; rewrite Hd; simpl; [apply drop_all|].
  destruct (tokenize (getText (document this)) (languageId (document this)));
    simpl; try apply drop_all.
  fold (cut this).
  pose proof (pass_addBrackets this tokenized) as [Hsame _].
  destruct (addBrackets (cut this) _) as [this1 [u|e]]; simpl; [|apply drop_all].
  destruct Hsame as (_ & _ & _ & Hsettings). simpl in Hsettings.
  rewrite Hsettings, drop_app_length. reflexivity.
Qed.

Lemma decorate_elem (colorMap : gmap string (list Range)) (editors : list TextEditor)
    (color : JValue) (decoration : TextEditorDecorationType) (call : SetDecorations) :
  call ∈ decorate colorMap editors (color, decoration) <->
  color ≠ JString ""
  /\ exists editor, editor ∈ editors
     /\ call = {| editor := editor;
                  decoration := decoration;
                  ranges := match colorMapGet colorMap color with
                            | Some ranges => ranges
                            | None => []
                            end |}.
Proof.
  unfold decorate. simpl.
  assert (Hfmap : forall f : TextEditor -> SetDecorations,
             call ∈ f <$> editors <-> exists editor, editor ∈ editors /\ call = f editor).
  { intros f. rewrite list_elem_of_fmap. split; intros (e & ? & ?); eauto. }
  destruct color as [| |b|z|[|c s]|l|];
    try (rewrite Hfmap; split; [intros ?; split; [discriminate|assumption]|intros [_ ?]; assumption]).
  split; [intros Hin; inversion Hin|intros [Hne _]; contradiction].
Qed.

(** C4, as amended: in a pass that reaches the coloring, every configured
    color other than the empty string (palette entries and orphan colors
    alike) has a decoration in the table, and every editor of the document
    gets one call for it; the call carries the ranges the cache holds for the
    color, and an empty array when it holds none.  The empty string is passed
    over. *)
Theorem configured_colors_are_emitted this host (nextKey : nat)
    (color : JValue) (editor : TextEditor) :
  (updateDecorations this host).2 = Colored ->
  bracketDecorations (settings this)
  = (createBracketDecorations (bracketPairs (settings this)) nextKey).1 ->
  color ∈ configuredColors (bracketPairs (settings this)) ->
  color ≠ JString "" ->
  editor ∈ documentEditors this host ->
  exists decoration,
    mapGet color (bracketDecorations (settings this)) = Some decoration
    /\ {| editor := editor;
          decoration := decoration;
          ranges :=
            match colorMapGet
                    (reduceLines (lines (updateDecorations this host).1.1)) color with
            | Some ranges => ranges
            | None => []
            end |} ∈ emitted host (updateDecorations this host).1.2.
Proof.
  intros Hexit Htable Hcolor Hne Heditor.
  destruct (createBracketDecorations_get _ nextKey color Hcolor) as [decoration Hget].
  rewrite <- Htable in Hget. exists decoration. split; [exact Hget|].
  rewrite emitted_spec, Hexit.
  apply list_elem_of_In, in_flat_map. exists (color, decoration).
  split; [apply list_elem_of_In, mapGet_Some_elem, Hget|].
  apply list_elem_of_In, decorate_elem. eauto.
Qed.

(** C10: when the empty string is a configured color, the table built at
    construction holds a decoration for it, and no pass ever passes that
    decoration to [setDecorations], neither with ranges nor with an empty
    array. *)
Theorem empty_color_is_never_rendered this (nextKey : nat) :
  bracketDecorations (settings this)
  = (createBracketDecorations (bracketPairs (settings this)) nextKey).1 ->
  JString "" ∈ configuredColors (bracketPairs (settings this)) ->
  exists decoration,
    mapGet (JString "") (bracketDecorations (settings this)) = Some decoration
    /\ forall host call,
        call ∈ emitted host (updateDecorations this host).1.2 ->
        key (Vscode.decoration call) ≠ key decoration.
Proof.
  intros Htable Hcolor.
  destruct (createBracketDecorations_get _ nextKey _ Hcolor) as [decoration Hget].
  rewrite <- Htable in Hget. exists decoration. split; [exact Hget|].
  intros host call Hcall Hkey.
  rewrite emitted_spec in Hcall.
  destruct (updateDecorations this host).2; try (inversion Hcall; fail).
  apply list_elem_of_In, in_flat_map in Hcall as ([c d] & Hentry & Hcall).
  apply list_elem_of_In, decorate_elem in Hcall as (Hne & editor & _ & ->).
  simpl in Hkey. apply Hne.
  pose proof (createBracketDecorations_fresh (bracketPairs (settings this)) nextKey)
    as Hfresh.
  rewrite <- Htable in Hfresh.
  eapply freshTable_distinct;
    [exact Hfresh|apply list_elem_of_In, Hentry|apply mapGet_Some_elem, Hget|exact Hkey].
Qed.

(** C3, as amended: a pass whose tokenization fails, by a throw or by a
    falsy result, hands nothing to the editors, no call at all.  For an empty
    document, a pass that starts from line 0 and whose token array records no
    bracket (as the array of the empty text, which is what the tokenizer
    returns for it) sets every configured color other than the empty string
    to an empty array on every editor of the document. *)
Theorem empty_document_clears_colors this host :
  (forall err,
      tokenize (getText (document this)) (languageId (document this)) = Throws err ->
      emitted host (updateDecorations this host).1.2 = [])
  /\ (tokenize (getText (document this)) (languageId (document this)) = Falsy ->
      emitted host (updateDecorations this host).1.2 = [])
  /\ (forall tokenized nextKey,
        getText (document this) = "" ->
        tokenize "" (languageId (document this)) = Tokens tokenized ->
        (parseTokenOrStringArray this tokenized 0 0 []).2 = [] ->
        lineToUpdateWhenTimeoutEnds this = Line 0 ->
        bracketDecorations (settings this)
        = (createBracketDecorations (bracketPairs (settings this)) nextKey).1 ->
        forall color editor,
          color ∈ configuredColors (bracketPairs (settings this)) ->
          color ≠ JString "" ->
          editor ∈ documentEditors this host ->
          exists decoration,
            mapGet color (bracketDecorations (settings this)) = Some decoration
            /\ {| editor := editor; decoration := decoration; ranges := [] |}
               ∈ emitted host (updateDecorations this host).1.2).
Proof.
  split; [|split].
  - intros err Hthrows. rewrite emitted_spec.
    unfold updateDecorations.
    destruct (decide (length (documentEditors this host) = 0)); [reflexivity|].
    simpl. rewrite Hthrows. reflexivity.
  - intros Hfalsy. rewrite emitted_spec.
    unfold updateDecorations.
    destruct (decide (length (documentEditors this host) = 0)); [reflexivity|].
    simpl. rewrite Hfalsy. reflexivity.
  - intros tokenized nextKey Htext Htokenize Hnone Hmarker Htable
           color editor Hcolor Hne Heditor.
    assert (Hwalk : (parseTokenOrStringArray (cut this) tokenized 0 0 []).2 = []).
    { etrans; [|exact Hnone]. unfold parseTokenOrStringArray. f_equal.
      apply parseArrayWith_ext, Forall_forall.
      intros [text|token] _; [exact I|]. apply parseToken_ext; reflexivity. }
    assert (Hpass : updateDecorations this host
                    = (withLineToUpdate (cut this) Infinity,
                       render host
                         (flat_map (decorate ∅ (documentEditors this host))
                                   (bracketDecorations (settings this))),
                       Colored)).
    { unfold updateDecorations.
      destruct (decide (length (documentEditors this host) = 0)) as [Hnoeditor|_].
      - destruct (documentEditors this host); [inversion Heditor|discriminate].
      - simpl. rewrite Htext, Htokenize. fold (cut this).
        rewrite Hwalk. simpl. unfold colorDecorations.
        assert (Hlines : lines (cut this) = []).
        { rewrite cut_lines, Hmarker. reflexivity. }
        rewrite Hlines. reflexivity. }
    destruct (createBracketDecorations_get _ nextKey color Hcolor)
      as [decoration Hget].
    rewrite <- Htable in Hget. exists decoration. split; [exact Hget|].
    rewrite Hpass. unfold emitted. simpl. rewrite drop_app_length.
    apply list_elem_of_In, in_flat_map. exists (color, decoration).
    split; [apply list_elem_of_In, mapGet_Some_elem, Hget|].
    apply list_elem_of_In, decorate_elem. split; [exact Hne|].
    exists editor. split; [exact Heditor|].
    destruct color as [| |b|z|s|l|]; reflexivity.
Qed.

End Rendering.

(** ** The cache across a pass *)

Section Incremental.

Context {TextLine : Type} {textLineClass : TextLineClass TextLine}
  {collaborators : Collaborators}.

Implicit Types this : DocumentDecoration TextLine.

Lemma updateDecorations_afterCut this host :
  length (documentEditors this host) ≠ 0 ->
  updateDecorations this host = afterCut (cut this) (documentEditors this host) host.
Proof.
  intros Hsome. unfold updateDecorations, afterCut.
  destruct (decide (length (documentEditors this host) = 0)); [contradiction|].
  reflexivity.
Qed.

Lemma updateDecorations_NoEditors this host :
  length (documentEditors this host) = 0 <-> (updateDecorations this host).2 = NoEditors.
Proof.
  unfold updateDecorations.
  destruct (decide (length (documentEditors this host) = 0)) as [Hnone|Hsome];
    [split; auto|].
  split; [contradiction|]. simpl.
  destruct (tokenize _ _); try discriminate.
  destruct (addBrackets _ _) as [? [?|?]]; discriminate.
Qed.

(** The cut cache stays in place at the front of the cache a pass leaves. *)
Lemma updateDecorations_prefix this host :
  (updateDecorations this host).2 ≠ NoEditors ->
  lines (cut this) `prefix_of` lines (updateDecorations this host).1.1.
Proof.
  pass_cases this host; simpl; try reflexivity; try contradiction; intros _.
  - exact Hprefix.
  - exact Hprefix.
Qed.

(** The cached lines below the marker are the same objects after a pass. *)
Lemma updateDecorations_below_marker this host (L i : nat) :
  lineToUpdateWhenTimeoutEnds this = Line L ->
  i < L -> i < length (lines this) ->
  lines (updateDecorations this host).1.1 !! i = lines this !! i.
Proof.
  intros Hmarker HiL Hi.
  destruct (decide (length (documentEditors this host) = 0)) as [Hnone|Hran].
  - unfold updateDecorations.
    destruct (decide (length (documentEditors this host) = 0)); [reflexivity|contradiction].
  - rewrite updateDecorations_NoEditors in Hran.
    pose proof (updateDecorations_prefix this host Hran) as Hprefix.
    rewrite cut_lines, Hmarker in Hprefix.
    destruct (lookup_lt_is_Some_2 (lines this) i Hi) as [textLine Hlookup].
    rewrite Hlookup. eapply prefix_lookup_Some; [|exact Hprefix].
    rewrite lookup_take_lt by exact HiL. exact Hlookup.
Qed.


Lemma cut_withLines this (cache : list TextLine) (L : nat) :
  lineToUpdateWhenTimeoutEnds this = Line L ->
  cut (withLines this cache) = withLines this (take L cache).
Proof.
  intros Hmarker. unfold cut. simpl. rewrite Hmarker, splice_line. reflexivity.
Qed.

(** C9: every bracket the walk records lies on a line at or above the marker,
    whatever punctuation the lines below it hold; and the color ranges of a
    cached line below the marker are after the pass what the cache held
    before. *)
Theorem brackets_recorded_from_marker this (tokenized : list TokenOrString) host :
  Forall (fun found =>
            atOrAbove (line (start (range found)))
                      (lineToUpdateWhenTimeoutEnds this) = true)
         (parseTokenOrStringArray this tokenized 0 0 []).2
  /\ (forall L i,
        lineToUpdateWhenTimeoutEnds this = Line L ->
        i < L -> i < length (lines this) ->
        colorRanges <$> lines (updateDecorations this host).1.1 !! i
        = colorRanges <$> lines this !! i).
Proof.
  split; [apply positions_atOrAbove|].
  intros L i Hmarker HiL Hi.
  rewrite (updateDecorations_below_marker this host L i Hmarker HiL Hi).
  reflexivity.
Qed.


End Incremental.

(** ** The scheduler *)

Section Scheduler.

Context {TextLine : Type} {textLineClass : TextLineClass TextLine}
  {collaborators : Collaborators}.

Implicit Types this : DocumentDecoration TextLine.

Lemma triggerUpdateDecorations_now this host :
  isDisposed (settings this) = false ->
  (timeOutLength (settings this) ≤ 0)%Z ->
  triggerUpdateDecorations this host
  = ((updateDecorations this host).1, Some (updateDecorations this host).2).
Proof.
  intros Hlive Hdelay. unfold triggerUpdateDecorations. rewrite Hlive.
  destruct (decide (0 < timeOutLength (settings this))%Z); [lia|].
  destruct (updateDecorations this host) as [[this' host'] exit]. reflexivity.
Qed.

Lemma triggerUpdateDecorations_later this host :
  isDisposed (settings this) = false ->
  (0 < timeOutLength (settings this))%Z ->
  triggerUpdateDecorations this host
  = (withTimeout this (Some (nextTimer host)),
     (setTimeout (timeOutLength (settings this))
                 match updateDecorationTimeout this with
                 | Some handle => clearTimeout handle host
                 | None => host
                 end).2,
     None).
Proof.
  intros Hlive Hdelay. unfold triggerUpdateDecorations. rewrite Hlive.
  destruct (decide (0 < timeOutLength (settings this))%Z); [|lia].
  destruct (updateDecorationTimeout this); reflexivity.
Qed.

Lemma updateDecorations_timers this host :
  timers (updateDecorations this host).1.2 = timers host
  /\ nextTimer (updateDecorations this host).1.2 = nextTimer host.
Proof. pass_cases this host; simpl; auto. Qed.

(** C6: on a live session with delay zero an edit runs the pass inside the
    notification and sets no timer.  With a positive delay the edit runs no
    pass and makes no call: it lowers the marker and leaves one fresh timer
    pending.  A second edit before that timer fires takes it out of the
    queue, so it never runs, and sets a new one; the marker is lowered
    further from where the first edit left it, never raised; and when the new
    timer fires the pass runs. *)
Theorem edits_are_debounced this
    (contentChanges contentChanges' : list TextDocumentContentChangeEvent) host :
  isDisposed (settings this) = false ->
  let edited := updateLowestLineNumber this contentChanges in
  let first := onDidChangeTextDocument this contentChanges host in
  let second := onDidChangeTextDocument first.1.1 contentChanges' first.1.2 in
  (timeOutLength (settings this) = 0%Z ->
   first = ((updateDecorations edited host).1, Some (updateDecorations edited host).2)
   /\ timers first.1.2 = timers host)
  /\ ((0 < timeOutLength (settings this))%Z ->
      first.2 = None
      /\ setDecorations first.1.2 = setDecorations host
      /\ lines first.1.1 = lines this
      /\ lineToUpdateWhenTimeoutEnds first.1.1 = lineToUpdateWhenTimeoutEnds edited
      /\ updateDecorationTimeout first.1.1 = Some (nextTimer host)
      /\ (nextTimer host, timeOutLength (settings this)) ∈ timers first.1.2
      /\ second.2 = None
      /\ setDecorations second.1.2 = setDecorations host
      /\ (nextTimer host ∉ fst <$> timers second.1.2)
      /\ timerFires (nextTimer host) second.1.1 second.1.2 = (second.1, None)
      /\ updateDecorationTimeout second.1.1 = Some (nextTimer first.1.2)
      /\ (nextTimer first.1.2, timeOutLength (settings this)) ∈ timers second.1.2
      /\ lineToUpdateWhenTimeoutEnds second.1.1
         = foldl mathMin (lineToUpdateWhenTimeoutEnds first.1.1)
                 ((fun change => line (start (Vscode.range change))) <$> contentChanges')
      /\ (forall n,
            atOrAbove n (lineToUpdateWhenTimeoutEnds first.1.1) = true ->
            atOrAbove n (lineToUpdateWhenTimeoutEnds second.1.1) = true)
      /\ timerFires (nextTimer first.1.2) second.1.1 second.1.2
         = ((updateDecorations second.1.1
                               (clearTimeout (nextTimer first.1.2) second.1.2)).1,
            Some (updateDecorations second.1.1
                                    (clearTimeout (nextTimer first.1.2) second.1.2)).2)).
Proof.
  intros Hlive edited first second.
  destruct (updateLowestLineNumber_spec this contentChanges)
    as (Hmarker & Hlines & Htimeout & _ & Hsettings).
  fold edited in Hmarker, Hlines, Htimeout, Hsettings.
  split.
  - intros Hzero. subst first. unfold onDidChangeTextDocument. fold edited.
    rewrite triggerUpdateDecorations_now by (rewrite Hsettings; first [exact Hlive|lia]).
    split; [reflexivity|]. apply updateDecorations_timers.
  - intros Hpositive.
    assert (Hfirst : first
                     = (withTimeout edited (Some (nextTimer host)),
                        (setTimeout (timeOutLength (settings this))
                                    match updateDecorationTimeout this with
                                    | Some handle => clearTimeout handle host
                                    | None => host
                                    end).2,
                        None)).
    { subst first. unfold onDidChangeTextDocument. fold edited.
      rewrite triggerUpdateDecorations_later by (rewrite Hsettings; assumption).
      rewrite Hsettings, Htimeout. reflexivity. }
    set (host0 := match updateDecorationTimeout this with
                  | Some handle => clearTimeout handle host
                  | None => host
                  end) in Hfirst.
    assert (Hnext : nextTimer host0 = nextTimer host)
      by (subst host0; destruct (updateDecorationTimeout this); reflexivity).
    assert (Hcalls : setDecorations host0 = setDecorations host)
      by (subst host0; destruct (updateDecorationTimeout this); reflexivity).
    set (this1 := first.1.1) in *. set (host1 := first.1.2) in *.
    assert (Hthis1 : this1 = withTimeout edited (Some (nextTimer host)))
      by (subst this1; rewrite Hfirst; reflexivity).
    assert (Hhost1 : host1 = (setTimeout (timeOutLength (settings this)) host0).2)
      by (subst host1; rewrite Hfirst; reflexivity).
    destruct (updateLowestLineNumber_spec this1 contentChanges')
      as (Hmarker' & _ & Htimeout' & _ & Hsettings').
    set (edited' := updateLowestLineNumber this1 contentChanges') in *.
    assert (Hsettings1 : settings this1 = settings this)
      by (rewrite Hthis1; exact Hsettings).
    assert (Hsecond : second
                      = (withTimeout edited' (Some (nextTimer host1)),
                         (setTimeout (timeOutLength (settings this))
                                     (clearTimeout (nextTimer host) host1)).2,
                         None)).
    { subst second. unfold onDidChangeTextDocument. fold edited'.
      rewrite triggerUpdateDecorations_later
        by (rewrite Hsettings', Hsettings1; assumption).
      rewrite Hsettings', Hsettings1, Htimeout', Hthis1. reflexivity. }
    assert (Hgone : nextTimer host ∉ fst <$> timers second.1.2).
    { rewrite Hsecond. simpl. rewrite fmap_app, elem_of_app. intros [Hin|Hin].
      - apply list_elem_of_fmap in Hin as ([h d] & Hh & Hin).
        apply list_elem_of_filter in Hin as [Hne _]. simpl in *. congruence.
      - simpl in Hin. apply list_elem_of_singleton in Hin.
        rewrite Hhost1 in Hin. simpl in Hin. lia. }
    assert (Hlive' : nextTimer host1 ∈ fst <$> timers second.1.2).
    { rewrite Hsecond. simpl. rewrite fmap_app, elem_of_app. right. left. }
    split; [rewrite Hfirst; reflexivity|].
    split; [rewrite Hhost1; exact Hcalls|].
    split; [rewrite Hthis1; exact Hlines|].
    split; [rewrite Hthis1; reflexivity|].
    split; [rewrite Hthis1; reflexivity|].
    split; [rewrite Hhost1; simpl; rewrite Hnext; apply elem_of_app; right; left|].
    split; [rewrite Hsecond; reflexivity|].
    split; [rewrite Hsecond; simpl; rewrite Hhost1; exact Hcalls|].
    split; [exact Hgone|].
    split.
    { unfold timerFires. rewrite bool_decide_eq_false_2 by exact Hgone.
      destruct second as [[? ?] ?]. reflexivity. }
    split; [rewrite Hsecond; reflexivity|].
    split; [rewrite Hsecond; simpl; apply elem_of_app; right; left|].
    split; [rewrite Hsecond; exact Hmarker'|].
    split.
    { intros n Hn. rewrite Hsecond. simpl. fold edited'. rewrite Hmarker'.
      apply foldl_mathMin_below. auto. }
    unfold timerFires. rewrite bool_decide_eq_true_2 by exact Hlive'.
    destruct (updateDecorations _ _) as [[? ?] ?]. reflexivity.
Qed.

End Scheduler.

(** ** The constructor of the settings *)

Lemma forEachFrom_Throw {A B} (f : A -> nat -> Completion B) (Q : JsError -> Prop)
    (xs : list A) (first i : nat) (x : A) :
  (forall x index e, f x index = Throw e -> Q e) ->
  xs !! i = Some x ->
  (exists e, f x (first + i) = Throw e) ->
  exists e, forEachFrom f first xs = Throw e /\ Q e.
Proof.
  intros Hf. revert first i.
  induction xs as [|x0 rest IH]; intros first i Hlookup [e He]; [discriminate|].
  simpl. destruct i as [|i]; simpl in Hlookup.
  - injection Hlookup as ->. rewrite Nat.add_0_r in He. rewrite He. simpl. eauto.
  - destruct (f x0 first) as [b|e0] eqn:Hhead; simpl; [|eauto].
    destruct (IH (S first) i Hlookup) as (e1 & -> & Hq); [|simpl; eauto].
    exists e. rewrite <- He. f_equal. lia.
Qed.

Lemma consecutivePair_names (palette : list JValue) (orphan : string)
    (brackets : JValue) (index : nat) (e : JsError) :
  consecutivePair palette orphan brackets index = Throw e ->
  names "consecutivePairColors" e.
Proof.
  unfold consecutivePair.
  destruct (isString brackets || isArray brackets);
    [destruct (decide (lengthOf brackets ≠ 2)); [|discriminate]|];
    intros [= <-]; eexists; split; reflexivity.
Qed.

Lemma independentPair_names (innerArray : JValue) (index : nat) (e : JsError) :
  independentPair innerArray index = Throw e -> namesIndependentEntry e.
Proof.
  unfold independentPair.
  destruct (negb (isArray innerArray));
    [intros [= <-]; left; eexists; split; reflexivity|].
  destruct (negb (isString (elementAt innerArray 0))
            && negb (isArray (elementAt innerArray 0)));
    [intros [= <-]; right; eexists; split; reflexivity|].
  destruct (decide (lengthOf (elementAt innerArray 0) < 2));
    [intros [= <-]; right; eexists; split; reflexivity|].
  destruct (elementAt innerArray 1);
    try (intros [= <-]; right; eexists; split; reflexivity).
  destruct (elementAt innerArray 2); intros [= <-]; right; eexists; split; reflexivity.
Qed.

(** The error of the first entry that fails is the error of the loop. *)
Lemma forEachFrom_first_Throw {A B} (f : A -> nat -> Completion B)
    (xs : list A) (first i : nat) (x : A) (e : JsError) :
  xs !! i = Some x ->
  f x (first + i) = Throw e ->
  (forall j y, j < i -> xs !! j = Some y -> exists b, f y (first + j) = Normal b) ->
  forEachFrom f first xs = Throw e.
Proof.
  revert first i.
  induction xs as [|x0 rest IH]; intros first i Hlookup He Hbefore; [discriminate|].
  simpl. destruct i as [|i]; simpl in Hlookup.
  - injection Hlookup as ->. rewrite Nat.add_0_r in He. rewrite He. reflexivity.
  - destruct (Hbefore 0 x0) as [b Hb]; [lia|reflexivity|].
    rewrite Nat.add_0_r in Hb. rewrite Hb. simpl.
    rewrite (IH (S first) i Hlookup); [reflexivity| |].
    + rewrite <- He. f_equal. lia.
    + intros j y Hj Hy. destruct (Hbefore (S j) y) as [b' Hb']; [lia|exact Hy|].
      exists b'. rewrite <- Hb'. f_equal. lia.
Qed.

Lemma consecutivePairs_wrong_count (configuration : Configuration)
    (consecutiveSettings : list JValue) :
  configuration "consecutivePairColors" = JArray consecutiveSettings ->
  wrongConsecutiveCount consecutiveSettings ->
  exists e, consecutivePairs configuration = Throw e
            /\ names "consecutivePairColors" e.
Proof.
  intros Hget Hwrong. unfold consecutivePairs. rewrite Hget.
  destruct (decide (length consecutiveSettings < 3)) as [Hshort|Hlong];
    [eexists; split; [reflexivity|eexists; split; reflexivity]|].
  destruct Hwrong as [Hshort|(index & brackets & Hindex & Hlookup & Hkind & Hcount)];
    [contradiction|].
  destruct (elementAt (JArray consecutiveSettings) (length consecutiveSettings - 1));
    try (eexists; split; [reflexivity|eexists; split; reflexivity]).
  destruct (elementAt (JArray consecutiveSettings) (length consecutiveSettings - 2));
    try (eexists; split; [reflexivity|eexists; split; reflexivity]).
  eapply forEachFrom_Throw with (i := index) (x := brackets).
  - intros x i e. apply consecutivePair_names.
  - rewrite lookup_take_lt by exact Hindex. exact Hlookup.
  - unfold consecutivePair. rewrite Hkind.
    destruct (decide (lengthOf brackets ≠ 2)); [eauto|contradiction].
Qed.

Lemma independentPairs_wrong_count (configuration : Configuration)
    (independentSettings : list JValue) :
  configuration "independentPairColors" = JArray independentSettings ->
  wrongIndependentCount independentSettings ->
  exists e, independentPairs configuration = Throw e /\ namesIndependentEntry e.
Proof.
  intros Hget (index & innerArray & Hlookup & Harray & Hkind & Hcount).
  unfold independentPairs. rewrite Hget.
  eapply forEachFrom_Throw with (i := index) (x := innerArray).
  - intros x i e. apply independentPair_names.
  - exact Hlookup.
  - unfold independentPair. rewrite Harray. simpl.
    apply orb_true_iff in Hkind.
    replace (negb (isString (elementAt innerArray 0))
             && negb (isArray (elementAt innerArray 0))) with false
      by (destruct Hkind as [-> | ->]; simpl; rewrite ?andb_false_r; reflexivity).
    destruct (decide (lengthOf (elementAt innerArray 0) < 2)); [eauto|contradiction].
Qed.

Lemma getBoolean_valid (configuration : Configuration) (key message : string) :
  isBoolean (configuration key) = true ->
  exists b, getBoolean configuration key message = Normal b.
Proof.
  unfold getBoolean. destruct (configuration key); try discriminate. eauto.
Qed.

(** When the pair colors throw, no settings are constructed; and when the
    settings read before them are valid, what is thrown is their error. *)
Lemma newSettings_pairs_Throw (languageID : string)
    (editorConfiguration configuration : Configuration) (nextKey : nat)
    (mode : ColorMode) (e0 : JsError) :
  colorModeOf (configuration "colorMode") = Some mode ->
  pairsFor mode configuration = Throw e0 ->
  (exists e, newSettings languageID editorConfiguration configuration nextKey = Throw e)
  /\ (scalarsValid configuration ->
      newSettings languageID editorConfiguration configuration nextKey = Throw e0).
Proof.
  intros Hmode Hpairs. unfold pairsFor in Hpairs. split.
  - unfold newSettings.
    destruct (cssElements configuration "activeScopeCSS"); simpl;
      [|eexists; reflexivity].
    destruct (cssElements configuration "scopeLineCSS"); simpl;
      [|eexists; reflexivity].
    destruct (scopeLineBorder _); simpl; [|eexists; reflexivity].
    do 7 (match goal with
          | |- context [getBoolean ?c ?k ?m] =>
              destruct (getBoolean c k m); simpl; [|eexists; reflexivity]
          end).
    rewrite Hmode. simpl.
    destruct (configuration "timeOut"); simpl; try (eexists; reflexivity).
    destruct mode; rewrite Hpairs; simpl; eexists; reflexivity.
  - intros ([a Ha] & (b & Hb & [border Hborder]) & Hbooleans & Hnumber).
    unfold newSettings. rewrite Ha. simpl. rewrite Hb. simpl. rewrite Hborder. simpl.
    repeat (apply Forall_cons in Hbooleans as [Hboolean Hbooleans];
            match type of Hboolean with
            | isBoolean (configuration ?k) = true =>
                match goal with
                | |- context [getBoolean configuration k ?m] =>
                    destruct (getBoolean_valid configuration k m Hboolean) as [? ->];
                    simpl
                end
            end;
            clear Hboolean).
    rewrite Hmode. simpl.
    destruct (configuration "timeOut"); try discriminate. simpl.
    destruct mode; rewrite Hpairs; reflexivity.
Qed.

(** The count error of the Independent branch, when the entry at [index] is
    the first that fails. *)
Lemma independentPairs_count_message (configuration : Configuration)
    (independentSettings : list JValue) (index : nat) (innerArray : JValue) :
  configuration "independentPairColors" = JArray independentSettings ->
  independentSettings !! index = Some innerArray ->
  isArray innerArray = true ->
  isString (elementAt innerArray 0) || isArray (elementAt innerArray 0) = true ->
  lengthOf (elementAt innerArray 0) < 2 ->
  (forall j entry,
      j < index -> independentSettings !! j = Some entry ->
      exists pair, independentPair entry j = Normal pair) ->
  independentPairs configuration
  = Throw (Error ("independentSettings[" +:+ pretty index
                  +:+ "][0] needs at least 2 elements")).
Proof.
  intros Hget Hlookup Harray Hkind Hcount Hbefore.
  unfold independentPairs. rewrite Hget.
  apply (forEachFrom_first_Throw independentPair independentSettings 0 index innerArray).
  - exact Hlookup.
  - unfold independentPair. rewrite Harray. simpl.
    apply orb_true_iff in Hkind.
    replace (negb (isString (elementAt innerArray 0))
             && negb (isArray (elementAt innerArray 0))) with false
      by (destruct Hkind as [-> | ->]; simpl; rewrite ?andb_false_r; reflexivity).
    destruct (decide (lengthOf (elementAt innerArray 0) < 2)); [reflexivity|contradiction].
  - exact Hbefore.
Qed.

(** C5, as amended: a wrong element count is rejected.  In Consecutive mode,
    fewer than three entries in [consecutivePairColors], or a bracket entry
    that is not made of two elements; in Independent mode, brackets with
    fewer than two elements: the constructor throws and no settings exist.
    When the settings read before the pair colors are valid, the error thrown
    is an [Error] of the pair setting's checks: in Consecutive mode its
    message starts with the name of the setting, [consecutivePairColors]; in
    Independent mode it starts with [independentPairColors] or with
    [independentSettings], and when the entry with the wrong count is the
    first that fails it reads [independentSettings[index][0] needs at least 2
    elements], which does not name the setting.  Nothing is said of empty
    literals and empty palettes, which the constructor does not look at. *)
Theorem wrong_counts_are_rejected (languageID : string)
    (editorConfiguration configuration : Configuration) (nextKey : nat) :
  (forall consecutiveSettings,
      colorModeOf (configuration "colorMode") = Some Consecutive ->
      configuration "consecutivePairColors" = JArray consecutiveSettings ->
      wrongConsecutiveCount consecutiveSettings ->
      (exists e,
          newSettings languageID editorConfiguration configuration nextKey = Throw e)
      /\ (scalarsValid configuration ->
          exists e,
            newSettings languageID editorConfiguration configuration nextKey = Throw e
            /\ names "consecutivePairColors" e))
  /\ (forall independentSettings,
        colorModeOf (configuration "colorMode") = Some Independent ->
        configuration "independentPairColors" = JArray independentSettings ->
        wrongIndependentCount independentSettings ->
        (exists e,
            newSettings languageID editorConfiguration configuration nextKey = Throw e)
        /\ (scalarsValid configuration ->
            exists e,
              newSettings languageID editorConfiguration configuration nextKey = Throw e
              /\ namesIndependentEntry e))
  /\ (forall independentSettings index innerArray,
        colorModeOf (configuration "colorMode") = Some Independent ->
        configuration "independentPairColors" = JArray independentSettings ->
        independentSettings !! index = Some innerArray ->
        isArray innerArray = true ->
        isString (elementAt innerArray 0) || isArray (elementAt innerArray 0) = true ->
        lengthOf (elementAt innerArray 0) < 2 ->
        (forall j entry,
            j < index -> independentSettings !! j = Some entry ->
            exists pair, independentPair entry j = Normal pair) ->
        scalarsValid configuration ->
        newSettings languageID editorConfiguration configuration nextKey
        = Throw (Error ("independentSettings[" +:+ pretty index
                        +:+ "][0] needs at least 2 elements"))).
Proof.
  split; [|split].
  - intros consecutiveSettings Hmode Hget Hwrong.
    destruct (consecutivePairs_wrong_count configuration _ Hget Hwrong)
      as (e0 & Hthrow & Hnames).
    destruct (newSettings_pairs_Throw languageID editorConfiguration configuration
                                      nextKey Consecutive e0 Hmode Hthrow)
      as [Hany Hvalid].
    split; [exact Hany|]. intros Hscalars. exists e0. auto.
  - intros independentSettings Hmode Hget Hwrong.
    destruct (independentPairs_wrong_count configuration _ Hget Hwrong)
      as (e0 & Hthrow & Hnames).
    destruct (newSettings_pairs_Throw languageID editorConfiguration configuration
                                      nextKey Independent e0 Hmode Hthrow)
      as [Hany Hvalid].
    split; [exact Hany|]. intros Hscalars. exists e0. auto.
  - intros independentSettings index innerArray Hmode Hget Hlookup Harray Hkind
           Hcount Hbefore Hscalars.
    pose proof (independentPairs_count_message configuration independentSettings
                  index innerArray Hget Hlookup Harray Hkind Hcount Hbefore)
      as Hthrow.
    apply (newSettings_pairs_Throw languageID editorConfiguration configuration
             nextKey Independent _ Hmode Hthrow).
    exact Hscalars.
Qed.

(** ** The properties on the stand-in session *)

(** C1, the claim as written fails: the marker of a new session is not beyond
    every line index, line 0 is at or above it. *)
Lemma marker_starts_at_line_zero :
  ~ (forall n,
        atOrAbove n
          (lineToUpdateWhenTimeoutEnds
             (newDocumentDecoration (plainDocument "typescript" ["(("; ")"])
                                    (settingsOf (goldConfiguration 0))
              : DocumentDecoration PlainLine))
        = false).
Proof. intros H. specialize (H 0). discriminate. Qed.

Lemma marker_lifecycle_witness :
  (plainPass goldSession plainHost).2 = Colored
  /\ lineToUpdateWhenTimeoutEnds (plainPass goldSession plainHost).1.1 = Infinity.
Proof.
  assert (Hexit : (plainPass goldSession plainHost).2 = Colored)
    by (vm_compute; reflexivity).
  split; [exact Hexit|].
  destruct (@marker_lifecycle PlainLine plainLineClass plainCollaborators
                              goldSession [changeAt 1] plainHost)
    as (_ & _ & _ & _ & Hpass).
  apply Hpass, Hexit.
Defined.

Lemma tokenizer_failure_aborts_witness :
  (plainPass tsxSession plainHost).2 = TokenizeThrew
  /\ setDecorations (plainPass tsxSession plainHost).1.2 = setDecorations plainHost
  /\ lineToUpdateWhenTimeoutEnds (plainPass tsxSession plainHost).1.1 = Line 0.
Proof.
  destruct (@tokenizer_failure_aborts PlainLine plainLineClass plainCollaborators
              tsxSession plainHost
              (TypeError "Cannot read property 'rest' of undefined"))
    as (Hexit & _ & Hcalls & _ & Hmarker).
  - vm_compute. discriminate.
  - vm_compute. reflexivity.
  - split; [exact Hexit|]. split; [exact Hcalls|exact Hmarker].
Defined.

(** C3, the claim as written fails, for each of its two cases.  When the
    tokenizer throws, Gold is a configured color and the pass hands the editor
    no call at all, so no color is mapped to an empty range list.  On an empty
    document, a pass that does not start from line 0 keeps the cached lines,
    and Gold is handed the ranges they hold; and a pass from line 0 makes no
    call for the empty string, though it is a configured color. *)
Lemma colors_that_are_not_cleared :
  (@tokenize plainCollaborators
             (getText (document tsxSession)) (languageId (document tsxSession))
   = Throws (TypeError "Cannot read property 'rest' of undefined")
   /\ ~ (forall color,
           color ∈ configuredColors (bracketPairs (settings tsxSession)) ->
           exists call,
             call ∈ emitted plainHost (plainPass tsxSession plainHost).1.2
             /\ Vscode.color (decoration call) = color
             /\ ranges call = []))
  /\ (getText (document staleSession) = ""
      /\ (plainPass staleSession plainHost).2 = Colored
      /\ ~ (exists call,
              call ∈ emitted plainHost (plainPass staleSession plainHost).1.2
              /\ Vscode.color (decoration call) = JString "Gold"
              /\ ranges call = []))
  /\ (getText (document emptyNoOrphanSession) = ""
      /\ (plainPass emptyNoOrphanSession plainHost).2 = Colored
      /\ JString "" ∈ configuredColors (bracketPairs (settings emptyNoOrphanSession))
      /\ ~ (exists call,
              call ∈ emitted plainHost (plainPass emptyNoOrphanSession plainHost).1.2
              /\ Vscode.color (decoration call) = JString "")).
Proof.
  split; [split; [vm_compute; reflexivity|]|split].
  - intros H. destruct (H (JString "Gold")) as (call & Hin & _).
    + vm_compute. left.
    + vm_compute in Hin. inversion Hin.
  - split; [vm_compute; reflexivity|]. split; [vm_compute; reflexivity|].
    intros (call & Hin & Hcolor & Hranges). vm_compute in Hin.
    repeat (apply elem_of_cons in Hin as [->|Hin]; [discriminate|]).
    inversion Hin.
  - split; [vm_compute; reflexivity|]. split; [vm_compute; reflexivity|].
    split; [vm_compute; right; right; left|].
    intros (call & Hin & Hcolor). vm_compute in Hin.
    repeat (apply elem_of_cons in Hin as [->|Hin]; [discriminate|]).
    inversion Hin.
Qed.

Lemma empty_document_clears_colors_witness :
  emitted plainHost (plainPass tsxSession plainHost).1.2 = []
  /\ exists decoration,
       mapGet (JString "Gold") (bracketDecorations (settings emptiedSession))
       = Some decoration
       /\ {| editor := {| viewColumn := 1; Vscode.document := 1 |};
             decoration := decoration;
             ranges := [] |}
          ∈ emitted plainHost (plainPass emptiedSession plainHost).1.2.
Proof.
  split.
  - apply (proj1 (@empty_document_clears_colors PlainLine plainLineClass
                    plainCollaborators tsxSession plainHost)
                 (TypeError "Cannot read property 'rest' of undefined")).
    vm_compute. reflexivity.
  - apply (proj2 (proj2 (@empty_document_clears_colors PlainLine plainLineClass
                           plainCollaborators emptiedSession plainHost))
                 [IsString ""] 0).
    + vm_compute. reflexivity.
    + vm_compute. reflexivity.
    + vm_compute. reflexivity.
    + vm_compute. reflexivity.
    + vm_compute. reflexivity.
    + vm_compute. left.
    + discriminate.
    + vm_compute. left.
Defined.

(** C4, the claim as written fails: the pass reaches the coloring, the empty
    string is a configured color, and no call is made for it. *)
Lemma empty_color_is_not_emitted :
  (plainPass noOrphanSession plainHost).2 = Colored
  /\ ~ (forall color,
          color ∈ configuredColors (bracketPairs (settings noOrphanSession)) ->
          exists call,
            call ∈ emitted plainHost (plainPass noOrphanSession plainHost).1.2
            /\ Vscode.color (decoration call) = color).
Proof.
  split; [vm_compute; reflexivity|].
  intros H. destruct (H (JString "")) as (call & Hin & Hcolor).
  - vm_compute. right. right. left.
  - vm_compute in Hin.
    repeat (apply elem_of_cons in Hin as [->|Hin]; [discriminate|]).
    inversion Hin.
Qed.

Lemma configured_colors_are_emitted_witness :
  exists decoration,
    mapGet (JString "Orchid") (bracketDecorations (settings goldSession))
    = Some decoration
    /\ {| editor := {| viewColumn := 1; Vscode.document := 1 |};
          decoration := decoration;
          ranges := [] |}
       ∈ emitted plainHost (plainPass goldSession plainHost).1.2.
Proof.
  destruct (@configured_colors_are_emitted PlainLine plainLineClass plainCollaborators
              goldSession plainHost 0 (JString "Orchid")
              {| viewColumn := 1; Vscode.document := 1 |})
    as (decoration & Hget & Hcall).
  - vm_compute. reflexivity.
  - vm_compute. reflexivity.
  - vm_compute. right. left.
  - discriminate.
  - vm_compute. left.
  - exists decoration. split; [exact Hget|exact Hcall].
Defined.

Lemma empty_color_is_never_rendered_witness :
  exists decoration,
    mapGet (JString "") (bracketDecorations (settings noOrphanSession))
    = Some decoration
    /\ forall host call,
        call ∈ emitted host (plainPass noOrphanSession host).1.2 ->
        key (Vscode.decoration call) ≠ key decoration.
Proof.
  apply (@empty_color_is_never_rendered PlainLine plainLineClass plainCollaborators
           noOrphanSession 0).
  - vm_compute. reflexivity.
  - vm_compute. right. right. left.
Defined.

(** C5, the claim as written fails: a configuration whose palette is empty,
    and one whose open literal is the empty string, both construct settings;
    and the error for a wrong count in [independentPairColors] does not name
    that setting. *)
Lemma empty_palette_and_literal_are_accepted :
  (exists settings nextKey,
      newSettings "typescript" editorConfiguration
        (consecutiveConfiguration 0
           (JArray [JString "()"; JArray []; JString "Red"])) 0
      = Normal (settings, nextKey)
      /\ colors <$> bracketPairs settings = [[]])
  /\ (exists settings nextKey,
        newSettings "typescript" editorConfiguration
          (consecutiveConfiguration 0
             (JArray [JArray [JString ""; JString ")"];
                      JArray [JString "Gold"]; JString "Red"])) 0
        = Normal (settings, nextKey)
        /\ openCharacter <$> bracketPairs settings = [JString ""])
  /\ (newSettings "typescript" editorConfiguration shortConfiguration 0
      = Throw (Error "independentSettings[0][0] needs at least 2 elements")
      /\ ~ names "independentPairColors"
             (Error "independentSettings[0][0] needs at least 2 elements")).
Proof.
  split; [|split]; [| |split].
  - eexists; eexists; (split; [vm_compute; reflexivity|reflexivity]).
  - eexists; eexists; (split; [vm_compute; reflexivity|reflexivity]).
  - vm_compute. reflexivity.
  - intros (message & [= <-] & Hprefix). vm_compute in Hprefix. discriminate.
Qed.

Lemma wrong_counts_are_rejected_witness :
  (exists e,
      newSettings "typescript" editorConfiguration
        (consecutiveConfiguration 0
           (JArray [JString "("; JArray [JString "Gold"]; JString "Red"])) 0
      = Throw e
      /\ names "consecutivePairColors" e)
  /\ (exists e,
        newSettings "typescript" editorConfiguration shortConfiguration 0 = Throw e
        /\ namesIndependentEntry e)
  /\ newSettings "typescript" editorConfiguration shortConfiguration 0
     = Throw (Error ("independentSettings[" +:+ pretty 0
                     +:+ "][0] needs at least 2 elements")).
Proof.
  assert (Hscalars : forall timeOut pairColors,
             scalarsValid (consecutiveConfiguration timeOut pairColors)
             /\ scalarsValid (independentConfiguration timeOut pairColors)).
  { intros timeOut pairColors.
    split;
      (split; [eexists; vm_compute; reflexivity|];
       split; [eexists; split; [vm_compute; reflexivity|eexists; vm_compute; reflexivity]|];
       split; [repeat constructor|]; vm_compute; reflexivity). }
  split; [|split].
  - apply (proj1 (wrong_counts_are_rejected "typescript" editorConfiguration
                    (consecutiveConfiguration 0
                       (JArray [JString "("; JArray [JString "Gold"]; JString "Red"]))
                    0)
                 [JString "("; JArray [JString "Gold"]; JString "Red"]).
    + vm_compute. reflexivity.
    + vm_compute. reflexivity.
    + right. exists 0, (JString "("). vm_compute.
      split; [lia|]. split; [reflexivity|]. split; [reflexivity|]. lia.
    + apply Hscalars.
  - apply (proj1 (proj2 (wrong_counts_are_rejected "typescript" editorConfiguration
                           shortConfiguration 0))
                 [JArray [JString "("; JArray [JString "Gold"]; JString "Red"]]).
    + vm_compute. reflexivity.
    + vm_compute. reflexivity.
    + exists 0, (JArray [JString "("; JArray [JString "Gold"]; JString "Red"]).
      vm_compute. split; [reflexivity|]. split; [reflexivity|].
      split; [reflexivity|]. lia.
    + apply Hscalars.
  - apply (proj2 (proj2 (wrong_counts_are_rejected "typescript" editorConfiguration
                           shortConfiguration 0))
                 [JArray [JString "("; JArray [JString "Gold"]; JString "Red"]]
                 0 (JArray [JString "("; JArray [JString "Gold"]; JString "Red"])).
    + vm_compute. reflexivity.
    + vm_compute. reflexivity.
    + reflexivity.
    + reflexivity.
    + reflexivity.
    + vm_compute. lia.
    + intros j entry Hj. lia.
    + apply Hscalars.
Defined.

Lemma edits_are_debounced_witness :
  let first := plainEdit delayedSession [changeAt 1] plainHost in
  let second := plainEdit first.1.1 [changeAt 0] first.1.2 in
  first.2 = None
  /\ second.2 = None
  /\ setDecorations second.1.2 = setDecorations plainHost
  /\ (nextTimer plainHost ∉ fst <$> timers second.1.2).
Proof.
  destruct (@edits_are_debounced PlainLine plainLineClass plainCollaborators
              delayedSession [changeAt 1] [changeAt 0] plainHost)
    as [_ Hdelay].
  - vm_compute. reflexivity.
  - destruct Hdelay as (H1 & _ & _ & _ & _ & _ & H2 & H3 & H4 & _).
    + vm_compute. reflexivity.
    + split; [exact H1|]. split; [exact H2|]. split; [exact H3|exact H4].
Defined.


Lemma brackets_recorded_from_marker_witness :
  @colorRanges PlainLine plainLineClass
    <$> lines (plainPass (updateLowestLineNumber editedSession [changeAt 1])
                         plainHost).1.1 !! 0
  = @colorRanges PlainLine plainLineClass
      <$> lines (updateLowestLineNumber editedSession [changeAt 1]) !! 0.
Proof.
  apply (proj2 (@brackets_recorded_from_marker PlainLine plainLineClass
                  plainCollaborators
                  (updateLowestLineNumber editedSession [changeAt 1])
                  [] plainHost)
               1 0).
  - vm_compute. reflexivity.
  - lia.
  - vm_compute. lia.
Defined.

(** ** More on the cursor and the walk *)

Section Cursor.

Context {TextLine : Type} {textLineClass : TextLineClass TextLine}
  {collaborators : Collaborators}.

Implicit Types this : DocumentDecoration TextLine.

Lemma split_cons (separator : ascii) (content : string) :
  exists piece pieces, split separator content = piece :: pieces.
Proof.
  induction content as [|c rest (piece & pieces & IH)]; simpl; [eauto|].
  destruct (Ascii.eqb c separator); [eauto|]. rewrite IH. eauto.
Qed.

Lemma split_one (separator : ascii) (content : string) :
  length (split separator content) = 1 -> split separator content = [content].
Proof.
  induction content as [|c rest IH]; simpl; [reflexivity|].
  destruct (split_cons separator rest) as (piece & pieces & Hrest).
  destruct (Ascii.eqb c separator).
  - rewrite Hrest. discriminate.
  - rewrite Hrest in *. simpl. intros [= Hpieces].
    destruct pieces; [|discriminate]. injection (IH eq_refl) as ->. reflexivity.
Qed.

(** A line break moves the cursor to the start of the next line. *)
Lemma parseString_newline (rest : string) (li ci : nat) :
  parseString (String (ascii_of_nat 10) rest) li ci = parseString rest (S li) 0.
Proof.
  unfold parseString.
  change (split (ascii_of_nat 10) (String (ascii_of_nat 10) rest))
    with (EmptyString :: split (ascii_of_nat 10) rest).
  destruct (split_cons (ascii_of_nat 10) rest) as (piece & pieces & Hrest).
  pose proof (split_one (ascii_of_nat 10) rest) as Hone.
  rewrite Hrest in *.
  destruct (decide (1 < length (EmptyString :: piece :: pieces))) as [_|Hno];
    [|simpl in Hno; lia].
  destruct (decide (1 < length (piece :: pieces))) as [Hmore|Hsingle].
  - f_equal; simpl; lia.
  - destruct pieces; [|simpl in Hsingle; lia].
    injection (Hone eq_refl) as ->. simpl. f_equal. lia.
Qed.

(** Any other character moves it one column on. *)
Lemma parseString_other (c : ascii) (rest : string) (li ci : nat) :
  Ascii.eqb c (ascii_of_nat 10) = false ->
  parseString (String c rest) li ci = parseString rest li (S ci).
Proof.
  intros Hc. unfold parseString. cbn [split]. rewrite Hc.
  destruct (split_cons (ascii_of_nat 10) rest) as (piece & pieces & Hrest).
  rewrite Hrest. cbn [length String.length].
  destruct (decide (1 < S (length pieces))) as [Hmore|Hsingle].
  - destruct pieces as [|piece' pieces]; [simpl in Hmore; lia|].
    simpl. reflexivity.
  - f_equal; lia.
Qed.

Lemma parseString_append (a b : string) (li ci : nat) :
  parseString (a +:+ b) li ci
  = parseString b (lineIndex (parseString a li ci)) (charIndex (parseString a li ci)).
Proof.
  revert li ci. induction a as [|c a IH]; intros li ci.
  - rewrite parseString_empty. reflexivity.
  - change (String c a +:+ b) with (String c (a +:+ b)).
    destruct (Ascii.eqb c (ascii_of_nat 10)) eqn:Hc.
    + apply Ascii.eqb_eq in Hc. subst c. rewrite !parseString_newline. apply IH.
    + rewrite !parseString_other by exact Hc. apply IH.
Qed.

Lemma parseString_plain (content : string) (li ci : nat) :
  ascii_of_nat 10 ∉ String.list_ascii_of_string content ->
  parseString content li ci
  = {| lineIndex := li; charIndex := ci + String.length content |}.
Proof.
  revert ci. induction content as [|c rest IH]; intros ci Hplain.
  - rewrite parseString_empty. simpl. f_equal. lia.
  - simpl in Hplain. apply not_elem_of_cons in Hplain as [Hc Hrest].
    rewrite parseString_other by (apply Ascii.eqb_neq; congruence).
    rewrite IH by exact Hrest. simpl. f_equal. lia.
Qed.

(** X1: [parseString] reads its text from left to right: the cursor after a
    concatenation is the cursor after the second part, started where the first
    part ended.  A text without a line break keeps the line and adds its
    length to the column; a line break puts the cursor at column 0 of the
    next line, whatever the column was. *)
Theorem parseString_composes (a b : string) (li ci : nat) :
  parseString (a +:+ b) li ci
  = parseString b (lineIndex (parseString a li ci)) (charIndex (parseString a li ci))
  /\ (ascii_of_nat 10 ∉ String.list_ascii_of_string a ->
      parseString a li ci = {| lineIndex := li; charIndex := ci + String.length a |})
  /\ parseString (a +:+ newline +:+ b) li ci
     = parseString b (S (lineIndex (parseString a li ci))) 0.
Proof.
  split; [apply parseString_append|]. split; [apply parseString_plain|].
  rewrite parseString_append. unfold newline.
  change (String (ascii_of_nat 10) EmptyString +:+ b) with (String (ascii_of_nat 10) b).
  apply parseString_newline.
Qed.

Lemma parseArrayWith_cursor f (tokenized : list TokenOrString) (text : Token -> string) :
  Forall (fun t => match t with
                   | IsToken t =>
                       forall li ci pos,
                         (f t li ci pos).1 = parseString (text t) li ci
                   | IsString _ => True
                   end) tokenized ->
  forall li ci pos,
    (parseArrayWith f tokenized li ci pos).1
    = parseString
        ((fix go (content : list TokenOrString) : string :=
            match content with
            | [] => ""
            | IsString s :: rest => s +:+ go rest
            | IsToken t :: rest => text t +:+ go rest
            end) tokenized) li ci.
Proof.
  induction 1 as [|[s|t] l Ht _ IH]; intros li ci pos; simpl.
  - rewrite parseString_empty. reflexivity.
  - rewrite parseString_append.
    destruct (parseString s li ci) as [li' ci']. apply IH.
  - rewrite parseString_append, <- (Ht li ci pos).
    destruct (f t li ci pos) as [[li' ci'] pos']. apply IH.
Qed.

Lemma leafTexts_fix (tokenized : list TokenOrString) :
  (fix go (content : list TokenOrString) : string :=
     match content with
     | [] => ""
     | IsString s :: rest => s +:+ go rest
     | IsToken t :: rest => leafText t +:+ go rest
     end) tokenized = leafTexts tokenized.
Proof. induction tokenized as [|[s|t] rest IH]; simpl; f_equal; exact IH. Qed.

Lemma parseToken_cursor this (token : Token) (li ci : nat) (pos : list FoundBracket) :
  (parseToken this token li ci pos).1 = parseString (leafText token) li ci.
Proof.
  revert li ci pos.
  induction token as [type s|type l IH|type t IH] using Token_nested_ind;
    intros li ci pos.
  - reflexivity.
  - rewrite leafText_array, <- leafTexts_fix.
    apply (parseArrayWith_cursor (parseToken this) l leafText IH).
  - destruct t as [type' [s|l|t]]; apply IH.
Qed.

Lemma parseTokenOrStringArray_cursor this (tokenized : list TokenOrString)
    (li ci : nat) (pos : list FoundBracket) :
  (parseTokenOrStringArray this tokenized li ci pos).1
  = parseString (leafTexts tokenized) li ci.
Proof.
  rewrite <- leafTexts_fix.
  apply (parseArrayWith_cursor (parseToken this) tokenized leafText).
  apply Forall_forall. intros [s|t] _; [exact I|].
  intros. apply parseToken_cursor.
Qed.

(** The brackets of a walk all start at or before the cursor it returns. *)
Lemma positions_before_cursor this (tokenized : list TokenOrString) (li ci : nat) :
  Forall (fun bracket =>
            line (start (range bracket))
            ≤ lineIndex (parseTokenOrStringArray this tokenized li ci []).1)
         (parseTokenOrStringArray this tokenized li ci []).2.
Proof.
  destruct (parseArrayWith_walked (parseToken this) tokenized) with (li := li)
    (ci := ci) (pos := @nil FoundBracket) as [_ [Hall _]].
  - apply Forall_forall. intros [s|t] _; [exact I|]. apply parseToken_walked.
  - split; constructor.
  - eapply Forall_impl; [exact Hall|].
    intros bracket [Hlt|[Heq _]]; simpl in *; unfold parseTokenOrStringArray; lia.
Qed.

(** The text of a document whose lines hold no line break ends on its last
    line. *)
Lemma parseString_lines (textLines : list string) (li ci : nat) :
  textLines ≠ [] ->
  Forall (fun text => ascii_of_nat 10 ∉ String.list_ascii_of_string text) textLines ->
  lineIndex (parseString (String.concat newline textLines) li ci)
  = li + (length textLines - 1).
Proof.
  intros Hsome Hplain. revert li ci.
  induction Hplain as [|text rest Htext Hrest IH]; [contradiction|]. intros li ci.
  destruct rest as [|next rest].
  - simpl. rewrite parseString_plain by exact Htext. simpl. lia.
  - change (String.concat newline (text :: next :: rest))
      with (text +:+ newline +:+ String.concat newline (next :: rest)).
    rewrite parseString_append, (parseString_plain text) by exact Htext.
    unfold newline at 1.
    change (String (ascii_of_nat 10) EmptyString +:+ String.concat newline (next :: rest))
      with (String (ascii_of_nat 10) (String.concat newline (next :: rest))).
    rewrite parseString_newline, IH by discriminate. simpl. lia.
Qed.

(** X2: the cursor a walk returns is the cursor of the text the tree covers:
    it depends on the leaves' text alone, not on the shape of the tree, the
    token types, the marker, or the brackets found. *)
Theorem walk_cursor_is_text_cursor this (tokenized : list TokenOrString)
    (li ci : nat) (pos : list FoundBracket) :
  (parseTokenOrStringArray this tokenized li ci pos).1
  = parseString (leafTexts tokenized) li ci.
Proof. apply parseTokenOrStringArray_cursor. Qed.

Lemma parseArrayWith_app f (tokenized : list TokenOrString) :
  Forall (fun t => match t with
                   | IsToken t =>
                       forall li ci pos,
                         f t li ci pos = ((f t li ci []).1, pos ++ (f t li ci []).2)
                   | IsString _ => True
                   end) tokenized ->
  forall li ci pos,
    parseArrayWith f tokenized li ci pos
    = ((parseArrayWith f tokenized li ci []).1,
       pos ++ (parseArrayWith f tokenized li ci []).2).
Proof.
  induction 1 as [|[s|t] l Ht _ IH]; intros li ci pos; simpl.
  - rewrite app_nil_r. reflexivity.
  - destruct (parseString s li ci) as [li' ci']. apply IH.
  - rewrite (Ht li ci pos).
    destruct (f t li ci []) as [[li' ci'] found]. simpl.
    rewrite (IH li' ci' (pos ++ found)), (IH li' ci' found).
    simpl. rewrite app_assoc. reflexivity.
Qed.

Lemma parseToken_app this (token : Token) (li ci : nat) (pos : list FoundBracket) :
  parseToken this token li ci pos
  = ((parseToken this token li ci []).1, pos ++ (parseToken this token li ci []).2).
Proof.
  revert li ci pos.
  induction token as [type s|type l IH|type t IH] using Token_nested_ind;
    intros li ci pos.
  - unfold parseToken. simpl.
    destruct (decide (type = "punctuation")); [|rewrite app_nil_r; reflexivity].
    destruct (atOrAbove li _ && regexPattern _ s);
      [reflexivity|rewrite app_nil_r; reflexivity].
  - apply (parseArrayWith_app (parseToken this) l IH).
  - destruct t as [type' [s|l|t]]; apply IH.
Qed.

(** X3: a walk only appends: the brackets it was given stay at the front, in
    their order, and what it adds does not depend on them.  Every bracket it
    adds lies on one line, ends its text's length after its start, and has a
    text that passed the pattern test. *)
Theorem walk_appends_recorded this (tokenized : list TokenOrString)
    (li ci : nat) (pos : list FoundBracket) :
  (parseTokenOrStringArray this tokenized li ci pos).2
  = pos ++ (parseTokenOrStringArray this tokenized li ci []).2
  /\ Forall (recordedBy this) (parseTokenOrStringArray this tokenized li ci []).2.
Proof.
  split.
  - unfold parseTokenOrStringArray.
    rewrite (parseArrayWith_app (parseToken this) tokenized); [reflexivity|].
    apply Forall_forall. intros [s|t] _; [exact I|].
    intros. apply parseToken_app.
  - apply parseTokenOrStringArray_Forall; [|constructor].
    intros li' ci' content _ Hpattern. repeat split; simpl; [lia|exact Hpattern].
Qed.

End Cursor.

(** ** More on the line cache *)

Section Growth.

Context {TextLine : Type} {textLineClass : TextLineClass TextLine}
  {collaborators : Collaborators}.

Implicit Types this : DocumentDecoration TextLine.

Lemma lineAt_Normal (doc : TextDocument) (i : nat) (text : string) :
  lineAt doc i = Normal text <-> textLines doc !! i = Some text.
Proof.
  unfold lineAt. destruct (textLines doc !! i); split; congruence.
Qed.

Lemma lineAt_Throw (doc : TextDocument) (i : nat) (e : JsError) :
  lineAt doc i = Throw e -> length (textLines doc) ≤ i.
Proof.
  unfold lineAt. destruct (textLines doc !! i) eqn:Hi; [discriminate|].
  intros _. apply lookup_ge_None. exact Hi.
Qed.

(** The loop of [getLine], started at the end of a cache that is not empty:
    it appends [count] lines when the document has them all, and otherwise
    stops with the error of [lineAt]; the lines it appends are built from
    the document. *)
Lemma pushLines_result (doc : TextDocument) (s : Settings) (count : nat)
    (cache : list TextLine) (from : nat) :
  cache ≠ [] ->
  builtFrom doc s cache from ->
  builtFrom doc s (pushLines doc s count (length cache) cache).1 from
  /\ length (pushLines doc s count (length cache) cache).1
     ≤ length cache `max` length (textLines doc)
  /\ match (pushLines doc s count (length cache) cache).2 with
     | Normal _ =>
         (count = 0 \/ length cache + count ≤ length (textLines doc))
         /\ length (pushLines doc s count (length cache) cache).1
            = length cache + count
     | Throw e =>
         length (textLines doc) < length cache + count
         /\ exists j, lineAt doc j = Throw e
     end.
Proof.
  revert cache. induction count as [|count IH]; intros cache Hcache Hbuilt; simpl.
  - split; [exact Hbuilt|]. split; [lia|]. split; [auto|lia].
  - destruct (lineAt doc (length cache)) as [text|e] eqn:Hline; simpl.
    + destruct (last cache) as [previousLine|] eqn:Hlast;
        [|apply last_None in Hlast; contradiction].
      apply lineAt_Normal in Hline.
      pose proof (lookup_lt_Some _ _ _ Hline) as Hlt.
      set (newLine := newTextLine text s (length cache)
                                  (Some (copyMultilineContext previousLine))).
      destruct (IH (cache ++ [newLine])) as (Hb & Hle & Hres).
      * destruct cache; discriminate.
      * intros i Hfrom Hi. rewrite length_app in Hi. simpl in Hi.
        destruct (decide (i < length cache)) as [Hold|Hnew].
        -- destruct (Hbuilt i Hfrom Hold) as (text' & Hdoc & Hcachei).
           exists text'. split; [exact Hdoc|].
           rewrite lookup_app_l by exact Hold. rewrite Hcachei. do 2 f_equal.
           destruct i as [|j]; [reflexivity|]. simpl.
           rewrite lookup_app_l by lia. reflexivity.
        -- assert (i = length cache) as -> by lia.
           exists text. split; [exact Hline|].
           rewrite lookup_app_r by lia. rewrite Nat.sub_diag. simpl.
           unfold newLine. do 2 f_equal.
           destruct (length cache) as [|j] eqn:Hlen;
             [destruct cache; [contradiction|discriminate]|].
           simpl. rewrite lookup_app_l by lia.
           rewrite last_lookup in Hlast. rewrite Hlen in Hlast. simpl in Hlast.
           rewrite Hlast. reflexivity.
      * rewrite length_app in Hb, Hle, Hres. simpl in Hb, Hle, Hres.
        replace (length cache + 1) with (S (length cache)) in * by lia.
        split; [exact Hb|]. split; [lia|].
        destruct (pushLines doc s count (S (length cache)) (cache ++ [newLine])).2.
        -- destruct Hres as [Hcount Hlen]. split; [right; lia|lia].
        -- destruct Hres as [Hshort Hj]. split; [lia|exact Hj].
    + pose proof (lineAt_Throw _ _ _ Hline). split; [exact Hbuilt|].
      split; [lia|]. split; [lia|eauto].
Qed.

Lemma builtFrom_nil (doc : TextDocument) (s : Settings) (from : nat) :
  builtFrom doc s ([] : list TextLine) from.
Proof. intros i _ Hi. simpl in Hi. lia. Qed.

Lemma builtFrom_ge (doc : TextDocument) (s : Settings) (cache : list TextLine) :
  builtFrom doc s cache (length cache).
Proof. intros i Hfrom Hi. lia. Qed.

(** [getLine] in full: the lines it appends are built from the document; it
    returns normally exactly when the line is cached or the document has it;
    then the cache reaches just up to the line; and otherwise what it throws
    is what [lineAt] threw. *)
Lemma getLine_result this (index : nat) (doc : TextDocument) :
  builtFrom doc (settings this) (lines (getLine this index doc).1) (length (lines this))
  /\ length (lines (getLine this index doc).1)
     ≤ length (lines this) `max` length (textLines doc)
  /\ match (getLine this index doc).2 with
     | Normal i =>
         i = index
         /\ (index < length (lines this) \/ index < length (textLines doc))
         /\ length (lines (getLine this index doc).1)
            = length (lines this) `max` S index
     | Throw e =>
         length (lines this) ≤ index
         /\ length (textLines doc) ≤ index
         /\ exists j, lineAt doc j = Throw e
     end.
Proof.
  unfold getLine.
  destruct (decide (index < length (lines this))) as [Hlt|Hge]; simpl.
  - split; [apply builtFrom_ge|]. split; [lia|]. split; [reflexivity|]. split; [auto|lia].
  - destruct (decide (length (lines this) = 0)) as [Hempty|Hsome].
    + destruct (lines this) as [|? ?] eqn:Hlines; [|discriminate]. simpl.
      destruct (lineAt doc 0) as [text|e] eqn:Hline; simpl.
      * set (first := newTextLine text (settings this) 0 None).
        apply lineAt_Normal in Hline.
        pose proof (lookup_lt_Some _ _ _ Hline) as Hdoc.
        destruct (pushLines_result doc (settings this) (S index - 1) [first] 0)
          as (Hb & Hle & Hres); [discriminate| |].
        { intros i _ Hi. simpl in Hi. assert (i = 0) as -> by lia.
          exists text. split; [exact Hline|reflexivity]. }
        simpl in Hb, Hle, Hres. rewrite ?Nat.sub_0_r in *.
        destruct (pushLines doc (settings this) index 1 [first]) as [lines1 [u|e]];
          simpl in *.
        -- split; [exact Hb|]. split; [lia|].
           destruct Hres as [Hcount Hlen]. split; [lia|]. split; [right; lia|lia].
        -- split; [exact Hb|]. split; [lia|].
           destruct Hres as [Hshort Hj]. split; [lia|]. split; [lia|exact Hj].
      * pose proof (lineAt_Throw _ _ _ Hline).
        split; [apply builtFrom_nil|]. simpl. split; [lia|].
        split; [lia|]. split; [lia|eauto].
    + destruct (pushLines_result doc (settings this) (S index - length (lines this))
                                 (lines this) (length (lines this)))
        as (Hb & Hle & Hres);
        [destruct (lines this); [contradiction|discriminate]|apply builtFrom_ge|].
      destruct (pushLines doc (settings this) (S index - length (lines this))
                          (length (lines this)) (lines this))
        as [lines1 [u|e]]; simpl in *.
      * split; [exact Hb|]. split; [lia|].
        destruct Hres as [Hcount Hlen]. split; [lia|]. split; [right; lia|lia].
      * split; [exact Hb|]. split; [lia|].
        destruct Hres as [Hshort Hj]. split; [lia|]. split; [lia|exact Hj].
Qed.

Lemma carriedContext_agree (cache cache' : list TextLine) (i : nat) :
  (forall j, j < i -> cache' !! j = cache !! j) ->
  carriedContext cache' i = carriedContext cache i.
Proof.
  intros Hagree. destruct i as [|j]; [reflexivity|]. simpl.
  rewrite Hagree by lia. reflexivity.
Qed.

Lemma filter_none {A} (P : A -> Prop) `{forall x, Decision (P x)} (l : list A) :
  Forall (fun x => ~ P x) l -> filter P l = [].
Proof.
  induction 1 as [|x l Hx _ IH]; [reflexivity|].
  rewrite filter_cons_False by exact Hx. exact IH.
Qed.

(** The [forEach] of [updateDecorations], on brackets that come in document
    order: the lines from [from] on stay the constructed lines with their
    brackets added. *)
Lemma addBrackets_rebuilt (rest done : list FoundBracket) this (from : nat) :
  rebuiltFrom (document this) (settings this) (lines this) from done ->
  from ≤ length (lines this) ->
  Forall (fun bracket => line (start (range bracket)) < length (lines this)) done ->
  Forall (fun bracket => from ≤ line (start (range bracket))
                         /\ length (lines this) ≤ S (line (start (range bracket))))
         rest ->
  inDocumentOrder rest ->
  forall u,
    (addBrackets this rest).2 = Normal u ->
    rebuiltFrom (document this) (settings this)
                (lines (addBrackets this rest).1) from (done ++ rest).
Proof.
  revert done this.
  induction rest as [|element rest IH]; intros done this Hinv Hfrom Hdone Hrest Hsorted u.
  - simpl. rewrite app_nil_r. intros _. exact Hinv.
  - apply Forall_cons in Hrest as [[Hbase Hlast] Hrest].
    destruct Hsorted as [Hlater Hsorted].
    set (k := line (start (range element))) in *.
    simpl. fold k.
    pose proof (getLine_result this k (document this)) as (Hbuilt & _ & Hres).
    pose proof (getLine_spec this k (document this)) as (Hsame & Hprefix & _).
    destruct (getLine this k (document this)) as [this1 [i|e]] eqn:Hget;
      simpl in Hbuilt, Hres, Hsame, Hprefix; [|discriminate].
    destruct Hres as (-> & _ & Hlength).
    destruct Hsame as (_ & _ & Hdocument & Hsettings).
    assert (Hk : length (lines this1) = S k) by lia.
    assert (Hold : forall j, j < length (lines this) ->
                             lines this1 !! j = lines this !! j).
    { intros j Hj. destruct (lookup_lt_is_Some_2 _ _ Hj) as [x Hx].
      rewrite Hx. eapply prefix_lookup_Some; eassumption. }
    assert (Hnone : forall i, length (lines this) ≤ i ->
                      filter (fun bracket => line (start (range bracket)) = i) done = []).
    { intros i Hi. apply filter_none. eapply Forall_impl; [exact Hdone|].
      simpl. intros bracket Hbracket. lia. }
    intros Hnormal.
    replace (done ++ element :: rest) with ((done ++ [element]) ++ rest)
      by (rewrite <- app_assoc; reflexivity).
    rewrite <- Hdocument, <- Hsettings.
    apply (IH (done ++ [element])
              (withLines this1
                 (alter (fun textLine => addBracket textLine element) k
                        (lines this1)))) with (u := u);
      [| | | |exact Hsorted|exact Hnormal].
    + simpl. rewrite Hdocument, Hsettings.
      intros i Hi Hlen. rewrite length_alter in Hlen.
      assert (Hcontext : carriedContext
                           (alter (fun textLine => addBracket textLine element) k
                                  (lines this1)) i
                         = carriedContext (lines this1) i).
      { apply carriedContext_agree. intros j Hj.
        apply list_lookup_alter_ne. lia. }
      rewrite Hcontext, filter_app.
      destruct (decide (i = k)) as [->|Hne].
      * rewrite list_lookup_alter_eq.
        rewrite (filter_cons_True _ element []) by reflexivity.
        rewrite filter_nil.
        destruct (decide (k < length (lines this))) as [Hcached|Hnew].
        -- destruct (Hinv k Hi Hcached) as (text & Hdoc & Hline).
           exists text. split; [exact Hdoc|].
           rewrite (carriedContext_agree (lines this) (lines this1) k)
             by (intros; apply Hold; lia).
           rewrite foldl_app, Hold by exact Hcached. rewrite Hline. reflexivity.
        -- destruct (Hbuilt k) as (text & Hdoc & Hline); [lia|lia|].
           exists text. split; [exact Hdoc|].
           rewrite Hline, Hnone by lia. reflexivity.
      * rewrite list_lookup_alter_ne by congruence.
        rewrite (filter_cons_False _ element []) by (fold k; congruence).
        rewrite filter_nil, app_nil_r.
        destruct (decide (i < length (lines this))) as [Hcached|Hnew].
        -- destruct (Hinv i Hi Hcached) as (text & Hdoc & Hline).
           exists text. split; [exact Hdoc|].
           rewrite (carriedContext_agree (lines this) (lines this1) i)
             by (intros; apply Hold; lia).
           rewrite Hold by exact Hcached. exact Hline.
        -- destruct (Hbuilt i) as (text & Hdoc & Hline); [lia|lia|].
           exists text. split; [exact Hdoc|].
           rewrite Hline, Hnone by lia. reflexivity.
    + simpl. rewrite length_alter. lia.
    + simpl. rewrite length_alter. apply Forall_app. split.
      * eapply Forall_impl; [exact Hdone|]. simpl. intros. lia.
      * constructor; [fold k; lia|constructor].
    + simpl. rewrite length_alter.
      rewrite Forall_forall in Hrest, Hlater. apply Forall_forall.
      intros bracket Hin. destruct (Hrest _ Hin) as [Hb _]. split; [exact Hb|].
      specialize (Hlater _ Hin). fold k in Hlater.
      destruct Hlater as [?|[? _]]; lia.
Qed.

(** [addBrackets] returns normally exactly when every bracket lies on a line
    that is cached or that the document has; what it throws otherwise is what
    [lineAt] threw.  The cache never grows past the longer of the cache and
    the document. *)
Lemma addBrackets_result (positions : list FoundBracket) this :
  length (lines (addBrackets this positions).1)
  ≤ length (lines this) `max` length (textLines (document this))
  /\ match (addBrackets this positions).2 with
     | Normal _ =>
         Forall (fun bracket =>
                   line (start (range bracket))
                   < length (lines this) `max` length (textLines (document this)))
                positions
     | Throw e =>
         Exists (fun bracket =>
                   length (lines this) `max` length (textLines (document this))
                   ≤ line (start (range bracket)))
                positions
         /\ exists j, lineAt (document this) j = Throw e
     end.
Proof.
  revert this. induction positions as [|element rest IH]; intros this; simpl.
  - split; [lia|constructor].
  - pose proof (getLine_result this (line (start (range element))) (document this))
      as (_ & Hle & Hres).
    pose proof (getLine_spec this (line (start (range element))) (document this))
      as ((_ & _ & Hdocument & _) & _ & _).
    destruct (getLine this (line (start (range element))) (document this))
      as [this1 [i|e]]; simpl in Hle, Hres, Hdocument.
    + destruct Hres as (-> & Hin & Hlength).
      specialize (IH (withLines this1
                        (alter (fun textLine => addBracket textLine element)
                               (line (start (range element))) (lines this1)))).
      simpl in IH. rewrite length_alter, Hdocument in IH.
      destruct IH as [Hle' Hres'].
      assert (Hbound : length (lines this1) `max` length (textLines (document this))
                       = length (lines this) `max` length (textLines (document this)))
        by lia.
      rewrite Hbound in Hle', Hres'.
      split; [exact Hle'|].
      destruct (addBrackets _ rest) as [this2 [u|e]]; simpl in *.
      * constructor; [lia|exact Hres'].
      * destruct Hres' as [Hex Hj]. split; [right; exact Hex|exact Hj].
    + split; [exact Hle|]. destruct Hres as (Hcache & Hdoc & Hj).
      split; [left; lia|exact Hj].
Qed.

End Growth.

(** ** More on the ways a pass ends *)

Section Outcomes.

Context {TextLine : Type} {textLineClass : TextLineClass TextLine}
  {collaborators : Collaborators}.

Implicit Types this : DocumentDecoration TextLine.

(** X4: [getLine] returns normally exactly when the line is already cached or
    the document has it.  It then returns the line asked for, leaves the
    cache reaching just up to that line (or as long as it was), and a second
    call changes nothing.  When it throws, what it throws is the error of
    [lineAt]: the read of an undefined previous line cannot happen.  Either
    way the lines that were cached stay at the front. *)
Theorem getLine_reaches_or_throws this (index : nat) (doc : TextDocument) :
  ((exists i, (getLine this index doc).2 = Normal i)
   <-> index < length (lines this) \/ index < length (textLines doc))
  /\ (forall i,
        (getLine this index doc).2 = Normal i ->
        i = index
        /\ length (lines (getLine this index doc).1)
           = length (lines this) `max` S index
        /\ getLine (getLine this index doc).1 index doc
           = ((getLine this index doc).1, Normal index))
  /\ (forall e,
        (getLine this index doc).2 = Throw e -> exists j, lineAt doc j = Throw e)
  /\ lines this `prefix_of` lines (getLine this index doc).1.
Proof.
  pose proof (getLine_result this index doc) as (_ & _ & Hres).
  pose proof (getLine_spec this index doc) as (_ & Hprefix & _).
  split; [|split; [|split]].
  - destruct (getLine this index doc).2 as [i|e].
    + split; [intros _; apply Hres|eauto].
    + split; [intros [i Hi]; discriminate|]. destruct Hres as (? & ? & _). lia.
  - intros i Hi. rewrite Hi in Hres. destruct Hres as (-> & _ & Hlength).
    split; [reflexivity|]. split; [exact Hlength|].
    unfold getLine at 1.
    destruct (decide (index < length (lines (getLine this index doc).1)));
      [reflexivity|lia].
  - intros e He. rewrite He in Hres. apply Hres.
  - exact Hprefix.
Qed.

(** X5: whatever the outcome, every line [getLine] appends is constructed
    from the document's text of the same index, with that index, and with a
    copy of the context of the line before it (no context for line 0): the
    cache grows without gaps. *)
Theorem getLine_builds_from_document this (index : nat) (doc : TextDocument) :
  builtFrom doc (settings this) (lines (getLine this index doc).1)
            (length (lines this))
  /\ settings (getLine this index doc).1 = settings this
  /\ lineToUpdateWhenTimeoutEnds (getLine this index doc).1
     = lineToUpdateWhenTimeoutEnds this.
Proof.
  pose proof (getLine_result this index doc) as (Hbuilt & _).
  pose proof (getLine_spec this index doc) as ((_ & Hmarker & _ & Hsettings) & _).
  auto.
Qed.

Lemma pass_brackets_beyond_cut this (tokenized : list TokenOrString) :
  Forall (fun bracket => length (lines (cut this)) ≤ line (start (range bracket)))
         (parseTokenOrStringArray (cut this) tokenized 0 0 []).2.
Proof.
  eapply Forall_impl; [apply positions_atOrAbove|].
  intros found Hfound. rewrite cut_lines.
  change (lineToUpdateWhenTimeoutEnds (cut this))
    with (lineToUpdateWhenTimeoutEnds this) in Hfound.
  destruct (lineToUpdateWhenTimeoutEnds this) as [n|]; [|discriminate].
  simpl in Hfound. rewrite bool_decide_eq_true in Hfound.
  rewrite length_take. lia.
Qed.

(** X6: in a pass that colors, every line from the cut on is rebuilt in
    order: it is the line constructed from the document's text of its index
    and from the context of the line before it as the pass leaves that line,
    with exactly the brackets recorded on that index added, in document
    order. *)
Theorem pass_rebuilds_cache_in_order this host (tokenized : list TokenOrString) :
  (updateDecorations this host).2 = Colored ->
  tokenize (getText (document this)) (languageId (document this)) = Tokens tokenized ->
  rebuiltFrom (document this) (settings this)
              (lines (updateDecorations this host).1.1)
              (length (lines (cut this)))
              (parseTokenOrStringArray (cut this) tokenized 0 0 []).2.
Proof.
  intros Hexit Htokens.
  destruct (decide (length (documentEditors this host) = 0)) as [Hnone|Hsome];
    [apply updateDecorations_NoEditors in Hnone; congruence|].
  rewrite (updateDecorations_afterCut this host Hsome) in *.
  unfold afterCut in *.
  change (document (cut this)) with (document this) in *.
  rewrite Htokens in *.
  pose proof (addBrackets_rebuilt
                (parseTokenOrStringArray (cut this) tokenized 0 0 []).2 []
                (cut this) (length (lines (cut this)))) as Hrebuilt.
  destruct (addBrackets (cut this) _) as [this1 [u|e]]; [|discriminate].
  simpl in *. apply (Hrebuilt) with (u := u); try reflexivity.
  - intros i Hfrom Hi. lia.
  - constructor.
  - eapply Forall_impl; [apply pass_brackets_beyond_cut|].
    simpl. intros bracket Hbracket. lia.
  - apply positions_inDocumentOrder.
Qed.

(** X7: what a pass never touches.  Whatever its exit, it leaves the
    document, the settings and the timer handle of the session, and the
    visible editors and the timers of the host; the earlier calls of
    [setDecorations] and the earlier warnings stay in place, and at most one
    warning is added.  Without an editor for the document the session is left
    exactly as it was: the cache is not cut and the marker stays. *)
Theorem pass_frame this host :
  document (updateDecorations this host).1.1 = document this
  /\ settings (updateDecorations this host).1.1 = settings this
  /\ updateDecorationTimeout (updateDecorations this host).1.1
     = updateDecorationTimeout this
  /\ visibleTextEditors (updateDecorations this host).1.2 = visibleTextEditors host
  /\ timers (updateDecorations this host).1.2 = timers host
  /\ nextTimer (updateDecorations this host).1.2 = nextTimer host
  /\ setDecorations host `prefix_of` setDecorations (updateDecorations this host).1.2
  /\ console host `prefix_of` console (updateDecorations this host).1.2
  /\ length (console (updateDecorations this host).1.2) ≤ S (length (console host))
  /\ (documentEditors this host = [] ->
      (updateDecorations this host).1.1 = this
      /\ (updateDecorations this host).2 = NoEditors
      /\ console (updateDecorations this host).1.2
         = console host
           ++ [WarnText ("No editors associated with document: "
                         +:+ fileName (document this))]).
Proof.
  pass_cases this host; simpl;
    repeat match goal with
           | |- _ /\ _ => split
           | |- _ `prefix_of` _ ++ _ => apply prefix_app_r; reflexivity
           | |- ?l `prefix_of` ?l => reflexivity
           | |- context [length (_ ++ _)] => rewrite length_app; simpl; lia
           | |- length _ ≤ S (length _) => lia
           | |- _ = _ => reflexivity
           | |- documentEditors _ _ = [] -> _ =>
               let H := fresh in
               intros H; rewrite H in Hsome; simpl in Hsome; contradiction
           | |- _ -> _ => intros _
           end;
    try (destruct Hsame as (? & ? & ? & ?); assumption).
Qed.

(** X8: with an editor and a token array, a pass either colors or throws,
    and it colors exactly when every recorded bracket lies on a line that
    the cut cache or the document has.  When it throws, what is thrown is
    the error of [lineAt], no call of [setDecorations] is made, and the
    marker stays. *)
Theorem pass_colors_or_throws this host (tokenized : list TokenOrString) :
  documentEditors this host ≠ [] ->
  tokenize (getText (document this)) (languageId (document this)) = Tokens tokenized ->
  ((updateDecorations this host).2 = Colored
   <-> Forall (fun bracket =>
                 line (start (range bracket))
                 < length (lines (cut this))
                   `max` length (textLines (document this)))
              (parseTokenOrStringArray (cut this) tokenized 0 0 []).2)
  /\ ((updateDecorations this host).2 = Colored
      \/ exists e,
          (updateDecorations this host).2 = Threw e
          /\ (exists j, lineAt (document this) j = Throw e)
          /\ setDecorations (updateDecorations this host).1.2 = setDecorations host
          /\ lineToUpdateWhenTimeoutEnds (updateDecorations this host).1.1
             = lineToUpdateWhenTimeoutEnds this).
Proof.
  intros Heditors Htokens.
  assert (Hsome : length (documentEditors this host) ≠ 0)
    by (destruct (documentEditors this host); [contradiction|discriminate]).
  pose proof (updateDecorations_marker this host) as Hmarker.
  rewrite (updateDecorations_afterCut this host Hsome) in *.
  unfold afterCut in *.
  change (document (cut this)) with (document this) in *.
  rewrite Htokens in *.
  pose proof (addBrackets_result
                (parseTokenOrStringArray (cut this) tokenized 0 0 []).2 (cut this))
    as [_ Hres].
  change (document (cut this)) with (document this) in Hres.
  destruct (addBrackets (cut this) _) as [this1 [u|e]]; simpl in *.
  - split; [split; [intros _; exact Hres|reflexivity]|]. left. reflexivity.
  - destruct Hres as [Hex Hj]. split.
    + split; [discriminate|]. intros Hall. exfalso.
      apply Exists_exists in Hex as (bracket & Hin & Hbeyond).
      rewrite Forall_forall in Hall. specialize (Hall _ Hin). lia.
    + right. exists e. destruct Hmarker as [Hm Hcalls]. auto.
Qed.

(** X10: a pass that stops at the tokenizer (it throws, or returns something
    falsy) leaves the cache cut at the marker and the marker in place; only a
    throw is logged.  Cutting again changes nothing, so passes that keep
    failing do not eat further into the cache. *)
Theorem aborted_pass_keeps_cut_cache this host :
  documentEditors this host ≠ [] ->
  (forall tokenized,
      tokenize (getText (document this)) (languageId (document this))
      ≠ Tokens tokenized) ->
  (updateDecorations this host).1.1 = cut this
  /\ lineToUpdateWhenTimeoutEnds (cut this) = lineToUpdateWhenTimeoutEnds this
  /\ cut (cut this) = cut this
  /\ setDecorations (updateDecorations this host).1.2 = setDecorations host
  /\ (tokenize (getText (document this)) (languageId (document this)) = Falsy ->
      (updateDecorations this host).1.2 = host).
Proof.
  intros Heditors Hfails.
  assert (Hsome : length (documentEditors this host) ≠ 0)
    by (destruct (documentEditors this host); [contradiction|discriminate]).
  assert (Hcut : cut (cut this) = cut this).
  { apply sameButLines_eq; [repeat split|].
    rewrite (cut_lines (cut this)), cut_lines.
    change (lineToUpdateWhenTimeoutEnds (cut this))
      with (lineToUpdateWhenTimeoutEnds this).
    destruct (lineToUpdateWhenTimeoutEnds this); [|reflexivity].
    rewrite take_take, Nat.min_id. reflexivity. }
  rewrite (updateDecorations_afterCut this host Hsome). unfold afterCut.
  change (document (cut this)) with (document this).
  destruct (tokenize (getText (document this)) (languageId (document this)))
    as [tokenized| |err]; [exfalso; eapply Hfails; reflexivity| |]; simpl; auto.
  repeat split; auto. discriminate.
Qed.

(** X9: with a tokenizer whose tokens cover the text of the document, a pass
    that has an editor always reaches the coloring: every bracket it records
    lies on a line the document has, so [getLine] never throws.  (The lines
    of a document hold no line break, and a document has at least one.) *)
Theorem covering_tokens_always_color this host (tokenized : list TokenOrString) :
  documentEditors this host ≠ [] ->
  tokenize (getText (document this)) (languageId (document this)) = Tokens tokenized ->
  leafTexts tokenized = getText (document this) ->
  textLines (document this) ≠ [] ->
  Forall (fun text => ascii_of_nat 10 ∉ String.list_ascii_of_string text)
         (textLines (document this)) ->
  (updateDecorations this host).2 = Colored
  /\ Forall (fun bracket =>
               line (start (range bracket)) < length (textLines (document this)))
            (parseTokenOrStringArray (cut this) tokenized 0 0 []).2.
Proof.
  intros Heditors Htokens Hcover Hlines Hplain.
  assert (Hwithin :
            Forall (fun bracket =>
                      line (start (range bracket)) < length (textLines (document this)))
                   (parseTokenOrStringArray (cut this) tokenized 0 0 []).2).
  { eapply Forall_impl; [apply positions_before_cursor|].
    intros bracket Hbracket. simpl in Hbracket.
    rewrite parseTokenOrStringArray_cursor, Hcover in Hbracket.
    unfold getText in Hbracket.
    rewrite (parseString_lines _ 0 0 Hlines Hplain) in Hbracket.
    destruct (textLines (document this)); [contradiction|simpl in *; lia]. }
  split; [|exact Hwithin].
  assert (Hsome : length (documentEditors this host) ≠ 0)
    by (destruct (documentEditors this host); [contradiction|discriminate]).
  rewrite (updateDecorations_afterCut this host Hsome). unfold afterCut.
  change (document (cut this)) with (document this).
  rewrite Htokens.
  pose proof (addBrackets_result
                (parseTokenOrStringArray (cut this) tokenized 0 0 []).2 (cut this))
    as [_ Hres].
  change (document (cut this)) with (document this) in Hres.
  destruct (addBrackets (cut this) _) as [this1 [u|e]]; simpl in *; [reflexivity|].
  destruct Hres as [Hex _]. exfalso.
  apply Exists_exists in Hex as (bracket & Hin & Hbeyond).
  rewrite Forall_forall in Hwithin. specialize (Hwithin _ Hin). lia.
Qed.

(** C7, as amended: the line a pass starts from is the marker, not the
    lowest line of the last edit.  After an edit notification the marker is
    at line L, the lowest of its value before the edit (the start lines of the
    edits notified since the last pass that colored, line 0 on a new session)
    and the edit's start lines.  A pass then keeps every cached line state
    below L as it is.  When it runs (the document has an editor), the states
    below L stay at the front of the cache and the pass comes out the same as
    on a cache that held nothing at L or above: the states from L on are
    dropped.  When it reaches the coloring, every state from L on is built
    anew, from the document's text of its index and the brackets recorded on
    it. *)
Theorem pass_replaces_only_from_marker this
    (contentChanges : list TextDocumentContentChangeEvent) host (L : nat) :
  lineToUpdateWhenTimeoutEnds (updateLowestLineNumber this contentChanges) = Line L ->
  Line L
  = foldl mathMin (lineToUpdateWhenTimeoutEnds this)
          ((fun change => line (start (Vscode.range change))) <$> contentChanges)
  /\ (forall i,
        i < L -> i < length (lines this) ->
        lines (updateDecorations (updateLowestLineNumber this contentChanges) host).1.1
          !! i
        = lines this !! i)
  /\ (documentEditors this host ≠ [] ->
      take L (lines this) `prefix_of`
        lines (updateDecorations (updateLowestLineNumber this contentChanges) host).1.1
      /\ updateDecorations
           (withLines (updateLowestLineNumber this contentChanges) (take L (lines this)))
           host
         = updateDecorations (updateLowestLineNumber this contentChanges) host)
  /\ (forall tokenized,
        (updateDecorations (updateLowestLineNumber this contentChanges) host).2
        = Colored ->
        tokenize (getText (document this)) (languageId (document this))
        = Tokens tokenized ->
        rebuiltFrom (document this) (settings this)
          (lines (updateDecorations (updateLowestLineNumber this contentChanges)
                                    host).1.1)
          L
          (parseTokenOrStringArray (cut (updateLowestLineNumber this contentChanges))
                                   tokenized 0 0 []).2).
Proof.
  intros Hmarker.
  destruct (updateLowestLineNumber_spec this contentChanges)
    as (Hmin & Hlines & _ & Hdocument & Hsettings).
  set (edited := updateLowestLineNumber this contentChanges) in *.
  assert (Heditors : forall cache,
             documentEditors (withLines edited cache) host = documentEditors this host).
  { intros cache. unfold documentEditors. simpl. rewrite Hdocument. reflexivity. }
  split; [rewrite <- Hmarker; exact Hmin|]. split; [|split].
  - intros i HiL Hi. rewrite <- Hlines.
    apply (updateDecorations_below_marker edited host L i Hmarker HiL).
    rewrite Hlines. exact Hi.
  - intros Hsome.
    assert (Hlength : length (documentEditors edited host) ≠ 0).
    { rewrite <- (Heditors (lines edited)) in Hsome.
      change (documentEditors (withLines edited (lines edited)) host)
        with (documentEditors edited host) in Hsome.
      destruct (documentEditors edited host); [contradiction|discriminate]. }
    split.
    + rewrite <- Hlines.
      replace (take L (lines edited)) with (lines (cut edited))
        by (rewrite cut_lines, Hmarker; reflexivity).
      apply updateDecorations_prefix.
      rewrite <- updateDecorations_NoEditors. exact Hlength.
    + rewrite (updateDecorations_afterCut edited host Hlength).
      rewrite updateDecorations_afterCut by exact Hlength.
      change (documentEditors (withLines edited (take L (lines this))) host)
        with (documentEditors edited host).
      rewrite (cut_withLines edited _ L Hmarker), take_take, Nat.min_id.
      rewrite <- Hlines, <- (cut_withLines edited _ L Hmarker).
      reflexivity.
  - intros tokenized Hexit Htokens.
    rewrite <- Hdocument in Htokens. rewrite <- Hdocument, <- Hsettings.
    assert (Hcut : length (lines (cut edited)) ≤ L).
    { rewrite cut_lines, Hmarker, length_take. lia. }
    assert (Hrebuilt :
              rebuiltFrom (document edited) (settings edited)
                (lines (updateDecorations edited host).1.1)
                (length (lines (cut edited)))
                (parseTokenOrStringArray (cut edited) tokenized 0 0 []).2).
    { destruct (decide (length (documentEditors edited host) = 0)) as [Hnone|Hsome];
        [apply updateDecorations_NoEditors in Hnone; congruence|].
      rewrite (updateDecorations_afterCut edited host Hsome) in *.
      unfold afterCut in *.
      change (document (cut edited)) with (document edited) in *.
      rewrite Htokens in *.
      pose proof (addBrackets_rebuilt
                    (parseTokenOrStringArray (cut edited) tokenized 0 0 []).2 []
                    (cut edited) (length (lines (cut edited)))) as Hstep.
      destruct (addBrackets (cut edited) _) as [this1 [u|e]]; [|discriminate].
      simpl in *. apply (Hstep) with (u := u); try reflexivity.
      - intros i Hfrom Hi. lia.
      - constructor.
      - eapply Forall_impl; [apply pass_brackets_beyond_cut|].
        simpl. intros bracket Hbracket. lia.
      - apply positions_inDocumentOrder. }
    intros i Hfrom Hi. apply Hrebuilt; [lia|exact Hi].
Qed.

End Outcomes.

(** ** More on the aggregation and the calls *)

Section Aggregation.

Context {TextLine : Type} {textLineClass : TextLineClass TextLine}
  {collaborators : Collaborators}.

Implicit Types this : DocumentDecoration TextLine.

(** One entry merged into the map, as the inner loop of [colorDecorations]
    does it. *)
Lemma merge_lookup (colorMap : gmap string (list Range))
    (entries : list (string * list Range)) (color : string) :
  foldl (fun colorMap entry =>
           match colorMap !! entry.1 with
           | Some existingRanges => <[entry.1 := existingRanges ++ entry.2]> colorMap
           | None => <[entry.1 := entry.2]> colorMap
           end) colorMap entries !! color
  = match filter (fun entry => entry.1 = color) entries with
    | [] => colorMap !! color
    | found =>
        Some (default [] (colorMap !! color) ++ concat (snd <$> found))
    end.
Proof.
  revert colorMap. induction entries as [|[c ranges] entries IH]; intros colorMap;
    [reflexivity|].
  simpl. rewrite IH. clear IH.
  destruct (decide (c = color)) as [->|Hne].
  - rewrite filter_cons_True by reflexivity. simpl.
    destruct (colorMap !! color) as [existing|] eqn:Hget; simpl;
      rewrite lookup_insert_eq; simpl;
      destruct (filter _ entries); simpl;
      rewrite ?app_nil_r, ?app_assoc; reflexivity.
  - rewrite filter_cons_False by (simpl; congruence).
    destruct (colorMap !! c) as [existing|]; rewrite lookup_insert_ne by exact Hne;
      reflexivity.
Qed.

Lemma reduceLines_lookup (cache : list TextLine) (colorMap : gmap string (list Range))
    (color : string) :
  foldl reduceLine colorMap cache !! color
  = match filter (fun entry => entry.1 = color) (flat_map colorRanges cache) with
    | [] => colorMap !! color
    | found => Some (default [] (colorMap !! color) ++ concat (snd <$> found))
    end.
Proof.
  revert colorMap. induction cache as [|textLine cache IH]; intros colorMap;
    [reflexivity|].
  simpl. rewrite IH. unfold reduceLine. rewrite merge_lookup, filter_app.
  destruct (filter _ (colorRanges textLine)) as [|e es];
    destruct (filter _ (flat_map colorRanges cache)) as [|e' es']; simpl;
    rewrite ?app_nil_r; try reflexivity.
  rewrite fmap_app, concat_app. simpl. rewrite !app_assoc. reflexivity.
Qed.

(** X11: the aggregation loses nothing and keeps the order: the map holds a
    color exactly when some line has an entry for it, and then its ranges are
    those of all the entries for that color, line after line. *)
Theorem aggregation_concatenates (cache : list TextLine) (color : string) :
  reduceLines cache !! color
  = match rangesOf color cache with
    | [] => None
    | found => Some (concat found)
    end.
Proof.
  unfold reduceLines, rangesOf. rewrite reduceLines_lookup, lookup_empty.
  destruct (filter _ (flat_map colorRanges cache)); reflexivity.
Qed.

Lemma flat_map_length_const {A B} (f : A -> list B) (l : list A) (n : nat) :
  Forall (fun x => length (f x) = n) l -> length (flat_map f l) = length l * n.
Proof.
  induction 1 as [|x l Hx _ IH]; [reflexivity|].
  simpl. rewrite length_app, Hx, IH. lia.
Qed.

(** X12: what a pass hands to the editors, and nothing else.  Every call it
    makes comes from a pass that colored, goes to an editor that shows the
    document of the session, carries a decoration of the settings' table
    whose color is not the empty string, and holds the ranges aggregated for
    that color (an empty array when there are none).  The calls number the
    editors of the document times the entries of the table with a color
    other than the empty string. *)
Theorem calls_come_from_the_table this host :
  (forall call,
      call ∈ emitted host (updateDecorations this host).1.2 ->
      (updateDecorations this host).2 = Colored
      /\ editor call ∈ visibleTextEditors host
      /\ Vscode.document (editor call) = uri (document this)
      /\ exists color,
          (color, decoration call) ∈ bracketDecorations (settings this)
          /\ color ≠ JString ""
          /\ ranges call
             = default []
                 (colorMapGet
                    (reduceLines (lines (updateDecorations this host).1.1)) color))
  /\ ((updateDecorations this host).2 = Colored ->
      length (emitted host (updateDecorations this host).1.2)
      = length (filter (fun entry => entry.1 ≠ JString "")
                       (bracketDecorations (settings this)))
        * length (documentEditors this host)).
Proof.
  rewrite emitted_spec. split.
  - intros call Hcall.
    destruct (updateDecorations this host).2; try (inversion Hcall; fail).
    split; [reflexivity|].
    apply list_elem_of_In, in_flat_map in Hcall as ([color d] & Hentry & Hcall).
    apply list_elem_of_In, decorate_elem in Hcall as (Hne & e & He & ->). simpl.
    unfold documentEditors in He. apply list_elem_of_filter in He as [Hdoc He].
    split; [exact He|]. split; [symmetry; exact Hdoc|].
    exists color. split; [apply list_elem_of_In, Hentry|]. split; [exact Hne|].
    destruct (colorMapGet _ color); reflexivity.
  - intros Hexit. rewrite Hexit. unfold JsMap.
    induction (bracketDecorations (settings this)) as [|[color d] table IH];
      [reflexivity|].
    cbn [flat_map]. rewrite length_app, IH. clear IH.
    destruct (decide (color = JString "")) as [->|Hne].
    + rewrite filter_cons_False by (simpl; intros H; apply H; reflexivity).
      reflexivity.
    + rewrite filter_cons_True by exact Hne. cbn [length].
      replace (length (decorate _ _ (color, d))) with (length (documentEditors this host));
        [lia|].
      unfold decorate. simpl.
      destruct color as [| |b|z|[|c s]|l|]; rewrite ?length_fmap; try reflexivity.
      contradiction.
Qed.

End Aggregation.

(** ** More on the scheduler *)

Section Bursts.

Context {TextLine : Type} {textLineClass : TextLineClass TextLine}
  {collaborators : Collaborators}.

Implicit Types this : DocumentDecoration TextLine.

Lemma onDidChangeTextDocument_disposed this
    (contentChanges : list TextDocumentContentChangeEvent) host :
  isDisposed (settings this) = true ->
  onDidChangeTextDocument this contentChanges host
  = (updateLowestLineNumber this contentChanges, host, None).
Proof.
  intros Hdisposed. unfold onDidChangeTextDocument, triggerUpdateDecorations.
  destruct (updateLowestLineNumber_spec this contentChanges) as (_ & _ & _ & _ & ->).
  rewrite Hdisposed. reflexivity.
Qed.

Lemma disposeSettings_disposed (s : Settings) : isDisposed (disposeSettings s) = true.
Proof. unfold disposeSettings. destruct (isDisposed s) eqn:E; [exact E|reflexivity]. Qed.

Lemma disposeSettings_twice (s : Settings) :
  disposeSettings (disposeSettings s) = disposeSettings s.
Proof.
  destruct (isDisposed s) eqn:E; unfold disposeSettings; rewrite E;
    [rewrite E; reflexivity|reflexivity].
Qed.

(** X13: a disposed session is inert.  [dispose] marks the settings disposed
    and, on settings that were live, empties the decoration table; disposing
    twice is disposing once.  From then on no run of edit notifications
    touches the host, neither a timer nor a call nor a warning; and a pass
    that still runs, from a timer set earlier, makes no call of
    [setDecorations]. *)
Theorem disposed_session_is_inert this host
    (edits : list (list TextDocumentContentChangeEvent)) :
  dispose (dispose this) = dispose this
  /\ isDisposed (settings (dispose this)) = true
  /\ (isDisposed (settings this) = false ->
      bracketDecorations (settings (dispose this)) = []
      /\ emitted host (updateDecorations (dispose this) host).1.2 = [])
  /\ (afterEdits (dispose this) host edits).2 = host
  /\ lines (afterEdits (dispose this) host edits).1 = lines this
  /\ triggerUpdateDecorations (dispose this) host = (dispose this, host, None).
Proof.
  split; [|split; [|split; [|split; [|split]]]].
  - unfold dispose.
    change (settings (withSettings this (disposeSettings (settings this))))
      with (disposeSettings (settings this)).
    rewrite disposeSettings_twice. reflexivity.
  - apply disposeSettings_disposed.
  - intros Hlive.
    assert (Htable : bracketDecorations (settings (dispose this)) = [])
      by (simpl; unfold disposeSettings; rewrite Hlive; reflexivity).
    split; [exact Htable|].
    rewrite emitted_spec, Htable.
    destruct (updateDecorations (dispose this) host).2; reflexivity.
  - assert (Hgen : forall state,
               isDisposed (settings state.1) = true ->
               (foldl (fun state contentChanges =>
                         (onDidChangeTextDocument state.1 contentChanges state.2).1)
                      state edits).2 = state.2).
    { induction edits as [|contentChanges edits IH]; intros [t h] Hd; [reflexivity|].
      simpl in *. rewrite onDidChangeTextDocument_disposed by exact Hd. simpl.
      rewrite IH; [reflexivity|]. simpl.
      destruct (updateLowestLineNumber_spec t contentChanges) as (_ & _ & _ & _ & ->).
      exact Hd. }
    apply (Hgen (dispose this, host)). apply disposeSettings_disposed.
  - assert (Hgen : forall state,
               isDisposed (settings state.1) = true ->
               lines (foldl (fun state contentChanges =>
                         (onDidChangeTextDocument state.1 contentChanges state.2).1)
                      state edits).1 = lines state.1).
    { induction edits as [|contentChanges edits IH]; intros [t h] Hd; [reflexivity|].
      simpl in *. rewrite onDidChangeTextDocument_disposed by exact Hd. simpl.
      destruct (updateLowestLineNumber_spec t contentChanges)
        as (_ & Hlines & _ & _ & Hsettings).
      rewrite IH; [exact Hlines|]. simpl. rewrite Hsettings. exact Hd. }
    apply (Hgen (dispose this, host)). apply disposeSettings_disposed.
  - unfold triggerUpdateDecorations.
    change (settings (dispose this)) with (disposeSettings (settings this)).
    rewrite disposeSettings_disposed. reflexivity.
Qed.

Lemma afterEdits_cons this host (contentChanges : list TextDocumentContentChangeEvent)
    (edits : list (list TextDocumentContentChangeEvent)) :
  afterEdits this host (contentChanges :: edits)
  = afterEdits (onDidChangeTextDocument this contentChanges host).1.1
               (onDidChangeTextDocument this contentChanges host).1.2 edits.
Proof.
  unfold afterEdits. simpl.
  destruct (onDidChangeTextDocument this contentChanges host) as [[? ?] ?].
  reflexivity.
Qed.

Lemma onDidChangeTextDocument_one_timer this
    (contentChanges : list TextDocumentContentChangeEvent) host :
  isDisposed (settings this) = false ->
  (0 < timeOutLength (settings this))%Z ->
  Forall (fun timer => updateDecorationTimeout this = Some timer.1) (timers host) ->
  onDidChangeTextDocument this contentChanges host
  = (withTimeout (updateLowestLineNumber this contentChanges) (Some (nextTimer host)),
     {| visibleTextEditors := visibleTextEditors host;
        setDecorations := setDecorations host;
        console := console host;
        timers := [(nextTimer host, timeOutLength (settings this))];
        nextTimer := S (nextTimer host) |},
     None).
Proof.
  intros Hlive Hdelay Hpending.
  destruct (updateLowestLineNumber_spec this contentChanges)
    as (_ & _ & Htimeout & _ & Hsettings).
  unfold onDidChangeTextDocument.
  rewrite triggerUpdateDecorations_later by (rewrite Hsettings; assumption).
  rewrite Hsettings, Htimeout. f_equal. f_equal.
  destruct (updateDecorationTimeout this) as [handle|] eqn:Hhandle.
  - unfold setTimeout, clearTimeout. simpl. do 2 f_equal.
    replace (filter _ (timers host)) with ([] : list (nat * Z)); [reflexivity|].
    symmetry. apply filter_none.
    eapply Forall_impl; [exact Hpending|]. simpl. intros timer [= ->] Hne.
    apply Hne. reflexivity.
  - unfold setTimeout. simpl. do 2 f_equal.
    destruct (timers host) as [|timer rest]; [reflexivity|].
    apply Forall_cons in Hpending as [Hbad _]. discriminate.
Qed.

(** X14: a burst of edits costs one recomputation.  On a live session with a
    positive delay, whose pending timers are all the one it holds the handle
    of, any run of one or more edit notifications runs no pass, makes no
    call, leaves the cache as it is, leaves exactly one timer pending (the
    one set by the last notification, with the configured delay) and the
    marker at the minimum of its value and every changed start line.  When
    that timer fires, the pass runs and no timer is left. *)
Theorem burst_leaves_one_timer this host
    (edits : list (list TextDocumentContentChangeEvent)) :
  isDisposed (settings this) = false ->
  (0 < timeOutLength (settings this))%Z ->
  Forall (fun timer => updateDecorationTimeout this = Some timer.1) (timers host) ->
  edits ≠ [] ->
  let handle := nextTimer host + length edits - 1 in
  let burst := afterEdits this host edits in
  timers burst.2 = [(handle, timeOutLength (settings this))]
  /\ updateDecorationTimeout burst.1 = Some handle
  /\ setDecorations burst.2 = setDecorations host
  /\ console burst.2 = console host
  /\ lines burst.1 = lines this
  /\ lineToUpdateWhenTimeoutEnds burst.1
     = foldl mathMin (lineToUpdateWhenTimeoutEnds this) (startLines edits)
  /\ timerFires handle burst.1 burst.2
     = ((updateDecorations burst.1 (clearTimeout handle burst.2)).1,
        Some (updateDecorations burst.1 (clearTimeout handle burst.2)).2)
  /\ timers (timerFires handle burst.1 burst.2).1.2 = [].
Proof.
  intros Hlive Hdelay Hpending Hsome handle burst.
  assert (Hgen : forall edits this host,
             isDisposed (settings this) = false ->
             (0 < timeOutLength (settings this))%Z ->
             Forall (fun timer => updateDecorationTimeout this = Some timer.1)
                    (timers host) ->
             edits ≠ [] ->
             timers (afterEdits this host edits).2
             = [(nextTimer host + length edits - 1, timeOutLength (settings this))]
             /\ updateDecorationTimeout (afterEdits this host edits).1
                = Some (nextTimer host + length edits - 1)
             /\ setDecorations (afterEdits this host edits).2 = setDecorations host
             /\ console (afterEdits this host edits).2 = console host
             /\ lines (afterEdits this host edits).1 = lines this
             /\ lineToUpdateWhenTimeoutEnds (afterEdits this host edits).1
                = foldl mathMin (lineToUpdateWhenTimeoutEnds this) (startLines edits)).
  { clear. intros edits.
    induction edits as [|contentChanges edits IH]; intros this host Hlive Hdelay Hpending Hsome;
      [contradiction|].
    destruct (updateLowestLineNumber_spec this contentChanges)
      as (Hmarker & Hlines & _ & _ & Hsettings).
    rewrite afterEdits_cons, onDidChangeTextDocument_one_timer by assumption.
    cbn [fst snd].
    destruct edits as [|next edits].
    - unfold afterEdits, startLines. simpl. rewrite app_nil_r.
      replace (nextTimer host + 1 - 1) with (nextTimer host) by lia.
      repeat split; assumption.
    - set (this1 := withTimeout (updateLowestLineNumber this contentChanges)
                                (Some (nextTimer host))).
      set (host1 := {| visibleTextEditors := visibleTextEditors host;
                       setDecorations := setDecorations host;
                       console := console host;
                       timers := [(nextTimer host, timeOutLength (settings this))];
                       nextTimer := S (nextTimer host) |}).
      destruct (IH this1 host1) as (H1 & H2 & H3 & H4 & H5 & H6);
        [subst this1; simpl; rewrite Hsettings; exact Hlive
        |subst this1; simpl; rewrite Hsettings; exact Hdelay
        |subst this1 host1; simpl; constructor; [reflexivity|constructor]
        |discriminate|].
      rewrite H1, H2, H3, H4, H5, H6. subst this1 host1. simpl.
      rewrite Hsettings, Hlines, Hmarker.
      split; [do 2 f_equal; lia|]. split; [f_equal; lia|].
      repeat (split; [reflexivity|]).
      unfold startLines.
      change (concat (contentChanges :: next :: edits))
        with (contentChanges ++ concat (next :: edits)).
      rewrite fmap_app, foldl_app. reflexivity. }
  destruct (Hgen edits this host Hlive Hdelay Hpending Hsome)
    as (H1 & H2 & H3 & H4 & H5 & H6).
  fold burst in H1, H2, H3, H4, H5, H6. fold handle in H1, H2.
  repeat (split; [assumption|]).
  assert (Hfires : timerFires handle burst.1 burst.2
                   = ((updateDecorations burst.1 (clearTimeout handle burst.2)).1,
                      Some (updateDecorations burst.1 (clearTimeout handle burst.2)).2)).
  { unfold timerFires. rewrite H1. simpl.
    rewrite bool_decide_eq_true_2 by (left).
    destruct (updateDecorations _ _) as [[? ?] ?]. reflexivity. }
  split; [exact Hfires|].
  rewrite Hfires. cbn [fst snd].
  rewrite (proj1 (updateDecorations_timers _ _)). unfold clearTimeout. cbn [timers].
  rewrite H1. apply filter_none.
  constructor; [simpl; intros Hne; apply Hne; reflexivity|constructor].
Qed.

End Bursts.

(** ** More on the decoration table *)

Lemma mapSet_keys {V} (k k0 : JValue) (v : V) (m : JsMap V) :
  k0 ∈ fst <$> mapSet k v m <-> k0 = k \/ k0 ∈ fst <$> m.
Proof.
  induction m as [|[k' v'] m IH]; simpl.
  - rewrite list_elem_of_singleton. split; [auto|].
    intros [?|H]; [assumption|inversion H].
  - destruct (jvalue_eqb k' k) eqn:E; simpl.
    + apply jvalue_eqb_eq in E. subst k'. rewrite !elem_of_cons. tauto.
    + rewrite !elem_of_cons, IH. tauto.
Qed.

Lemma mapSet_NoDup {V} (k : JValue) (v : V) (m : JsMap V) :
  NoDup (fst <$> m) -> NoDup (fst <$> mapSet k v m).
Proof.
  induction m as [|[k' v'] m IH]; simpl; intros Hnd.
  - apply NoDup_singleton.
  - apply NoDup_cons in Hnd as [Hnotin Hnd].
    destruct (jvalue_eqb k' k) eqn:E; simpl.
    + apply jvalue_eqb_eq in E. subst k'. apply NoDup_cons. auto.
    + apply NoDup_cons. split; [|auto].
      rewrite mapSet_keys. intros [->|Hin]; [|contradiction].
      rewrite jvalue_eqb_refl in E. discriminate.
Qed.

Lemma mapGet_elem_NoDup {V} (k : JValue) (v : V) (m : JsMap V) :
  NoDup (fst <$> m) -> (k, v) ∈ m -> mapGet k m = Some v.
Proof.
  induction m as [|[k' v'] m IH]; simpl; intros Hnd Hin; [inversion Hin|].
  apply NoDup_cons in Hnd as [Hnotin Hnd].
  apply elem_of_cons in Hin as [[= <- <-]|Hin].
  - rewrite jvalue_eqb_refl. reflexivity.
  - destruct (jvalue_eqb k' k) eqn:E; [|auto].
    apply jvalue_eqb_eq in E. subst k'. exfalso. apply Hnotin.
    apply list_elem_of_fmap. exists (k, v). auto.
Qed.

Lemma mapSet_exact (first k : nat) (c : JValue) (m : JsMap TextEditorDecorationType) :
  first ≤ k -> exactTable first m ->
  exactTable first (mapSet c {| key := k; color := c |} m).
Proof.
  intros Hk [Hall Hnd]. split; [|apply mapSet_NoDup, Hnd].
  apply Forall_forall. intros [c' d'] Hin.
  apply mapSet_elem in Hin as [[= -> ->]|Hin]; [simpl; auto|].
  rewrite Forall_forall in Hall. exact (Hall _ Hin).
Qed.

Lemma decoratePalette_exact (palette : list JValue)
    (m : JsMap TextEditorDecorationType) (first k : nat) :
  first ≤ k -> exactTable first m ->
  exactTable first (decoratePalette palette m k).1
  /\ (decoratePalette palette m k).2 = k + length palette
  /\ forall c, c ∈ fst <$> (decoratePalette palette m k).1
               <-> c ∈ palette \/ c ∈ fst <$> m.
Proof.
  revert m k. induction palette as [|c0 palette IH]; intros m k Hk Hexact; simpl.
  - split; [exact Hexact|]. split; [lia|]. intros c. split; [auto|].
    intros [H|H]; [inversion H|exact H].
  - destruct (IH (mapSet c0 {| key := k; color := c0 |} m) (S k))
      as (He & Hn & Hkeys); [lia|apply mapSet_exact; assumption|].
    split; [exact He|]. split; [lia|].
    intros c. rewrite Hkeys, mapSet_keys, elem_of_cons. tauto.
Qed.

Lemma decoratePairs_exact (bracketPairs : list BracketPair)
    (m : JsMap TextEditorDecorationType) (first k : nat) :
  first ≤ k -> exactTable first m ->
  exactTable first (decoratePairs bracketPairs m k).1
  /\ (decoratePairs bracketPairs m k).2 = k + length (configuredColors bracketPairs)
  /\ forall c, c ∈ fst <$> (decoratePairs bracketPairs m k).1
               <-> c ∈ configuredColors bracketPairs \/ c ∈ fst <$> m.
Proof.
  revert m k. induction bracketPairs as [|bp bps IH]; intros m k Hk Hexact; simpl.
  - split; [exact Hexact|]. split; [lia|]. intros c. split; [auto|].
    intros [H|H]; [inversion H|exact H].
  - destruct (decoratePalette_exact (colors bp) m first k Hk Hexact)
      as (He & Hn & Hkeys).
    destruct (decoratePalette (colors bp) m k) as [m1 k1]. simpl in He, Hn, Hkeys.
    destruct (IH (mapSet (JString (orphanColor bp))
                         {| key := k1; color := JString (orphanColor bp) |} m1) (S k1))
      as (He' & Hn' & Hkeys'); [lia|apply mapSet_exact; [lia|exact He]|].
    split; [exact He'|]. split.
    + rewrite Hn'. unfold configuredColors. simpl.
      rewrite !length_app. simpl. subst k1.
      change (flat_map _ bps) with (configuredColors bps). lia.
    + intros c. rewrite Hkeys', mapSet_keys, Hkeys.
      unfold configuredColors. simpl. rewrite !elem_of_app, list_elem_of_singleton.
      change (flat_map _ bps) with (configuredColors bps). tauto.
Qed.

(** X15: the decoration table is exact.  [createBracketDecorations] draws one
    decoration from the counter for every palette entry and every orphan
    color of every pair; the table it returns holds each configured color
    once and nothing else, each under a decoration created for that color by
    this call, and no two entries share a decoration. *)
Theorem decoration_table_is_exact (bracketPairs : list BracketPair) (nextKey : nat) :
  (createBracketDecorations bracketPairs nextKey).2
  = nextKey + length (configuredColors bracketPairs)
  /\ NoDup (fst <$> (createBracketDecorations bracketPairs nextKey).1)
  /\ NoDup ((fun entry => key entry.2)
              <$> (createBracketDecorations bracketPairs nextKey).1)
  /\ (forall c,
        c ∈ fst <$> (createBracketDecorations bracketPairs nextKey).1
        <-> c ∈ configuredColors bracketPairs)
  /\ (forall c d,
        (c, d) ∈ (createBracketDecorations bracketPairs nextKey).1 ->
        mapGet c (createBracketDecorations bracketPairs nextKey).1 = Some d
        /\ color d = c
        /\ nextKey ≤ key d
        /\ key d < (createBracketDecorations bracketPairs nextKey).2).
Proof.
  destruct (decoratePairs_exact bracketPairs [] nextKey nextKey)
    as ([Hall Hnd] & Hn & Hkeys); [lia|split; [constructor|apply NoDup_nil_2]|].
  destruct (createBracketDecorations_fresh bracketPairs nextKey) as [Hlt Hkeysnd].
  fold (createBracketDecorations bracketPairs nextKey) in *.
  split; [exact Hn|]. split; [exact Hnd|]. split; [exact Hkeysnd|]. split.
  - intros c. rewrite Hkeys. split; [|auto]. intros [H|H]; [exact H|inversion H].
  - intros c d Hin. rewrite Forall_forall in Hall, Hlt.
    destruct (Hall _ Hin) as [Hge Hcolor]. specialize (Hlt _ Hin).
    split; [apply mapGet_elem_NoDup; assumption|]. auto.
Qed.

(** ** More on the regular expression *)

Lemma mapM_Normal {A B} (f : A -> Completion B) (xs : list A) (ys : list B) :
  mapM f xs = Normal ys <-> Forall2 (fun x y => f x = Normal y) xs ys.
Proof.
  revert ys. induction xs as [|x xs IH]; intros ys; simpl.
  - split; [intros [= <-]; constructor|intros H; inversion H; reflexivity].
  - destruct (f x) as [y|e] eqn:Hx; simpl.
    + destruct (mapM f xs) as [ys'|e] eqn:Hxs; simpl.
      * split.
        -- intros [= <-]. constructor; [exact Hx|]. apply IH. reflexivity.
        -- intros H. inversion H as [|? y0 ? ys0 Hy Hys]; subst.
           apply IH in Hys. injection Hys as <-. rewrite Hx in Hy. injection Hy as <-. reflexivity.
      * split; [discriminate|]. intros H.
        inversion H as [|? y0 ? ys0 Hy Hys]; subst. apply IH in Hys. discriminate.
    + split; [discriminate|]. intros H. inversion H; subst. congruence.
Qed.

Lemma mapM_Throw {A B} (f : A -> Completion B) (xs : list A) (e : JsError) :
  mapM f xs = Throw e -> exists x, x ∈ xs /\ f x = Throw e.
Proof.
  induction xs as [|x xs IH]; simpl; [discriminate|].
  destruct (f x) as [y|e0] eqn:Hx; simpl.
  - destruct (mapM f xs) as [ys|e1]; simpl; [discriminate|].
    intros [= ->]. destruct (IH eq_refl) as (x' & Hin & Hx').
    exists x'. split; [right; exact Hin|exact Hx'].
  - intros [= ->]. exists x. split; [left|exact Hx].
Qed.

Lemma insertByLength_Permutation (a : string) (sorted : list string) :
  insertByLength a sorted ≡ₚ a :: sorted.
Proof.
  induction sorted as [|b rest IH]; simpl; [reflexivity|].
  destruct (String.length b <=? String.length a); [reflexivity|].
  rewrite IH. apply Permutation_swap.
Qed.

Lemma sortByLength_Permutation (matches : list string) : sortByLength matches ≡ₚ matches.
Proof.
  induction matches as [|a rest IH]; [reflexivity|].
  unfold sortByLength in *. simpl. rewrite insertByLength_Permutation, IH. reflexivity.
Qed.

Lemma insertByLength_sorted (a : string) (sorted : list string) :
  StronglySorted (fun x y => String.length y ≤ String.length x) sorted ->
  StronglySorted (fun x y => String.length y ≤ String.length x)
                 (insertByLength a sorted).
Proof.
  induction 1 as [|b rest Hrest IH Hb]; simpl; [repeat constructor|].
  destruct (String.length b <=? String.length a) eqn:Hle.
  - apply Nat.leb_le in Hle. constructor; [constructor; assumption|].
    constructor; [exact Hle|].
    eapply Forall_impl; [exact Hb|]. simpl. intros. lia.
  - apply Nat.leb_gt in Hle. constructor; [exact IH|].
    rewrite insertByLength_Permutation. constructor; [lia|exact Hb].
Qed.

(** X16: the sort of [createRegex] puts the longest literals first and keeps
    every literal, as often as it was collected. *)
Theorem sort_is_longest_first (matches : list string) :
  sortByLength matches ≡ₚ matches
  /\ StronglySorted (fun x y => String.length y ≤ String.length x)
                    (sortByLength matches).
Proof.
  split; [apply sortByLength_Permutation|].
  induction matches as [|a rest IH]; [constructor|].
  apply insertByLength_sorted, IH.
Qed.

Lemma escape_append (a b : string) : escape (a +:+ b) = escape a +:+ escape b.
Proof.
  induction a as [|c a IH]; [reflexivity|].
  change (String c a +:+ b) with (String c (a +:+ b)). simpl.
  destruct (bool_decide (c ∈ escaped)); rewrite IH; reflexivity.
Qed.

Lemma escape_plain (s : string) :
  Forall (fun c => c ∉ escaped) (String.list_ascii_of_string s) -> escape s = s.
Proof.
  induction s as [|c s IH]; simpl; [reflexivity|]. intros Hall.
  apply Forall_cons in Hall as [Hc Hall].
  rewrite bool_decide_eq_false_2 by exact Hc. rewrite IH by exact Hall. reflexivity.
Qed.

(** X17: [escape] works character by character: the escape of a
    concatenation is the concatenation of the escapes; each of the sixteen
    special characters gets a backslash put before it; a text without any of
    them comes back as it is; and only the empty text escapes to the empty
    text. *)
Theorem escape_is_characterwise (a b : string) (c : ascii) :
  escape (a +:+ b) = escape a +:+ escape b
  /\ (c ∈ escaped ->
      escape (String c EmptyString) = String "\"%char (String c EmptyString))
  /\ (Forall (fun c => c ∉ escaped) (String.list_ascii_of_string a) -> escape a = a)
  /\ (escape a = "" <-> a = "")
  /\ String.length a ≤ String.length (escape a).
Proof.
  split; [apply escape_append|]. split.
  - intros Hc. simpl. rewrite bool_decide_eq_true_2 by exact Hc. reflexivity.
  - split; [apply escape_plain|]. split.
    + destruct a as [|c' a]; [split; reflexivity|].
      simpl. destruct (bool_decide (c' ∈ escaped)); split; discriminate.
    + induction a as [|c' a IH]; [reflexivity|].
      simpl. destruct (bool_decide (c' ∈ escaped)); simpl; lia.
Qed.

Lemma append_assoc (a b c : string) : (a +:+ b) +:+ c = a +:+ b +:+ c.
Proof.
  induction a as [|x a IH]; [reflexivity|].
  change (String x ((a +:+ b) +:+ c) = String x (a +:+ b +:+ c)).
  f_equal. exact IH.
Qed.

Lemma join_nonempty (acc : string) (escapedLiterals : list string) :
  acc ≠ "" ->
  foldl (fun regex match_ =>
           (if decide (regex = "") then regex else regex +:+ "|") +:+ match_)
        acc escapedLiterals
  = String.concat "|" (acc :: escapedLiterals).
Proof.
  revert acc. induction escapedLiterals as [|x rest IH]; intros acc Hacc;
    [reflexivity|].
  cbn [foldl]. rewrite decide_False by exact Hacc.
  rewrite IH by (destruct acc; [contradiction|discriminate]).
  cbn [String.concat]. destruct rest as [|y rest].
  - rewrite append_assoc. reflexivity.
  - rewrite !append_assoc. reflexivity.
Qed.

Lemma foldl_escape (acc : string) (literals : list string) :
  foldl (fun regex match_ =>
           (if decide (regex = "") then regex else regex +:+ "|") +:+ escape match_)
        acc literals
  = foldl (fun regex match_ =>
             (if decide (regex = "") then regex else regex +:+ "|") +:+ match_)
          acc (escape <$> literals).
Proof.
  revert acc. induction literals as [|x rest IH]; intros acc; [reflexivity|].
  simpl. apply IH.
Qed.

Lemma createRegex_result (bracketPairs : list BracketPair) (exact : bool) :
  match createRegex bracketPairs exact with
  | Normal regex =>
      Forall (fun literal => isString literal = true) (literalsOf bracketPairs)
      /\ global regex = negb exact
      /\ source regex
         = foldl (fun regex match_ =>
                    (if decide (regex = "") then regex else regex +:+ "|")
                    +:+ match_)
                 "" (escape <$> sortByLength (stringOf <$> literalsOf bracketPairs))
  | Throw e =>
      Exists (fun literal => isString literal = false) (literalsOf bracketPairs)
  end.
Proof.
  unfold createRegex. fold (literalsOf bracketPairs).
  destruct (mapM asLiteral (literalsOf bracketPairs)) as [literals|e] eqn:Hliterals;
    simpl.
  - apply mapM_Normal in Hliterals.
    assert (Hstrings : Forall (fun literal => isString literal = true)
                              (literalsOf bracketPairs)
                       /\ literals = stringOf <$> literalsOf bracketPairs).
    { induction Hliterals as [|x y xs ys Hxy _ [IH1 IH2]]; [split; constructor|].
      destruct x; try discriminate. injection Hxy as <-.
      split; [constructor; [reflexivity|exact IH1]|]. simpl. f_equal. exact IH2. }
    destruct Hstrings as [Hall ->]. split; [exact Hall|]. split; [reflexivity|].
    apply foldl_escape.
  - apply mapM_Throw in Hliterals as (x & Hin & Hx).
    apply Exists_exists. exists x. split; [exact Hin|].
    destruct x; try reflexivity. discriminate.
Qed.

(** X18: [createRegex] returns a regular expression exactly when every open
    and close literal is a string, and throws otherwise.  For literals that
    are all non-empty the pattern it is made from is the escaped literals,
    longest first, separated by bars; when every literal is the empty string
    (or there is no pair) that pattern is empty.  The flag is global unless
    [exact] is set. *)
Theorem createRegex_lists_escaped_literals (bracketPairs : list BracketPair)
    (exact : bool) :
  ((exists regex, createRegex bracketPairs exact = Normal regex)
   <-> Forall (fun literal => isString literal = true) (literalsOf bracketPairs))
  /\ (forall regex,
        createRegex bracketPairs exact = Normal regex ->
        global regex = negb exact
        /\ (Forall (fun literal => literal ≠ JString "") (literalsOf bracketPairs) ->
            source regex
            = String.concat "|"
                (escape <$> sortByLength (stringOf <$> literalsOf bracketPairs)))
        /\ (Forall (fun literal => literal = JString "") (literalsOf bracketPairs) ->
            source regex = "")).
Proof.
  pose proof (createRegex_result bracketPairs exact) as Hres.
  split.
  - destruct (createRegex bracketPairs exact) as [regex|e].
    + split; [intros _; apply Hres|eauto].
    + split; [intros [? ?]; discriminate|]. intros Hall. exfalso.
      apply Exists_exists in Hres as (x & Hin & Hx).
      rewrite Forall_forall in Hall. rewrite (Hall _ Hin) in Hx. discriminate.
  - intros regex Hregex. rewrite Hregex in Hres.
    destruct Hres as (Hstrings & Hglobal & ->).
    split; [exact Hglobal|]. split.
    + intros Hnonempty.
      assert (Hsorted : Forall (fun s => s ≠ "")
                               (sortByLength (stringOf <$> literalsOf bracketPairs))).
      { rewrite sortByLength_Permutation. apply Forall_fmap.
        apply Forall_forall. intros x Hin. rewrite Forall_forall in Hstrings, Hnonempty.
        specialize (Hstrings _ Hin). specialize (Hnonempty _ Hin).
        destruct x; try discriminate. simpl. congruence. }
      destruct (sortByLength (stringOf <$> literalsOf bracketPairs)) as [|s rest];
        [reflexivity|].
      apply Forall_cons in Hsorted as [Hs _].
      cbn [fmap list_fmap foldl]. rewrite decide_True by reflexivity.
      change ("" +:+ escape s) with (escape s).
      apply join_nonempty. destruct s; [contradiction|].
      simpl. destruct (bool_decide _); discriminate.
    + intros Hempty.
      assert (Hsorted : Forall (fun s => s = "")
                               (sortByLength (stringOf <$> literalsOf bracketPairs))).
      { rewrite sortByLength_Permutation. apply Forall_fmap.
        eapply Forall_impl; [exact Hempty|]. simpl. intros x ->. reflexivity. }
      induction Hsorted as [|s rest -> _ IH]; [reflexivity|exact IH].
Qed.

(** ** More on the constructor *)

Lemma getBoolean_Normal (configuration : Configuration) (key message : string)
    (b : bool) :
  getBoolean configuration key message = Normal b -> configuration key = JBool b.
Proof.
  unfold getBoolean. destruct (configuration key); try discriminate.
  intros [= ->]. reflexivity.
Qed.

Lemma scopeLineBorder_Normal (elements : list (string * string)) (border : string) :
  scopeLineBorder elements = Normal border ->
  exists rest,
    filter (fun e => e.1 = "borderStyle") elements = ("borderStyle", border) :: rest.
Proof.
  unfold scopeLineBorder.
  destruct (filter (fun e => e.1 = "borderStyle") elements) as [|[name value] rest]
    eqn:Hfilter; [discriminate|].
  intros [= <-]. exists rest.
  assert (Hin : (name, value) ∈ filter (fun e => e.1 = "borderStyle") elements)
    by (rewrite Hfilter; left).
  apply list_elem_of_filter in Hin as [Hname _]. simpl in Hname. subst name.
  reflexivity.
Qed.

(** What a constructor call that returns has read. *)
Lemma newSettings_Normal (languageID : string)
    (editorConfiguration configuration : Configuration) (nextKey : nat)
    (settings : Settings) (nextKey' : nat) :
  newSettings languageID editorConfiguration configuration nextKey
  = Normal (settings, nextKey') ->
  cssElements configuration "activeScopeCSS"
  = Normal (activeBracketCSSElements settings)
  /\ cssElements configuration "scopeLineCSS"
     = Normal (activeScopeLineCSSElements settings)
  /\ scopeLineBorder (activeScopeLineCSSElements settings)
     = Normal (activeScopeLineCSSBorder settings)
  /\ configuration "highlightActiveScope" = JBool (highlightActiveScope settings)
  /\ configuration "showScopeLine" = JBool (showScopeLine settings)
  /\ configuration "showScopeLineExtra" = JBool (showScopeLineExtra settings)
  /\ configuration "scopeLineRelativePosition"
     = JBool (scopeLineRelativePosition settings)
  /\ configuration "showBracketsInGutter" = JBool (showBracketsInGutter settings)
  /\ configuration "forceUniqueOpeningColor"
     = JBool (forceUniqueOpeningColor settings)
  /\ configuration "forceIterationColorCycle"
     = JBool (forceIterationColorCycle settings)
  /\ colorModeOf (configuration "colorMode") = Some (colorMode settings)
  /\ configuration "timeOut" = JNumber (timeOutLength settings)
  /\ pairsFor (colorMode settings) configuration = Normal (bracketPairs settings)
  /\ createRegex (bracketPairs settings) false = Normal (regexNonExact settings)
  /\ createBracketDecorations (bracketPairs settings) nextKey
     = (bracketDecorations settings, nextKey')
  /\ isDisposed settings = false
  /\ prismLanguageID settings = languageID
  /\ fontFamily settings = editorConfiguration "fontFamily".
Proof.
  unfold newSettings, pairsFor.
  destruct (cssElements configuration "activeScopeCSS") as [a|] eqn:Ha; simpl;
    [|discriminate].
  destruct (cssElements configuration "scopeLineCSS") as [b|] eqn:Hb; simpl;
    [|discriminate].
  destruct (scopeLineBorder b) as [border|] eqn:Hborder; simpl; [|discriminate].
  do 7 (match goal with
        | |- context [getBoolean ?c ?k ?m] =>
            let Hb := fresh "Hboolean" in
            destruct (getBoolean c k m) eqn:Hb; simpl; [|discriminate];
            apply getBoolean_Normal in Hb
        end).
  destruct (colorModeOf (configuration "colorMode")) as [mode|] eqn:Hmode; simpl;
    [|discriminate].
  destruct (configuration "timeOut") eqn:HtimeOut; simpl; try discriminate.
  destruct (match mode with
            | Consecutive => consecutivePairs configuration
            | Independent => independentPairs configuration
            end) as [pairs|] eqn:Hpairs; simpl; [|discriminate].
  destruct (createRegex pairs false) as [regex|] eqn:Hregex; simpl; [|discriminate].
  destruct (createBracketDecorations pairs nextKey) as [table counter] eqn:Htable.
  intros [= <- <-]. simpl. repeat split; try assumption; try reflexivity.
Qed.

(** X19: settings that the constructor returned are consistent.  They are not
    disposed and carry the language they were made for; every open and close
    literal is a string; the regular expression is the global one of those
    literals; [scopeLineCSS] has a [borderStyle] element and the border is the
    value of its first one, so the fallback [none] is never stored; the
    decoration table is the one made for the pairs; and the window's counter
    has advanced by the number of configured colors. *)
Theorem constructed_settings_are_consistent (languageID : string)
    (editorConfiguration configuration : Configuration) (nextKey : nat)
    (settings : Settings) (nextKey' : nat) :
  newSettings languageID editorConfiguration configuration nextKey
  = Normal (settings, nextKey') ->
  isDisposed settings = false
  /\ prismLanguageID settings = languageID
  /\ Forall (fun literal => isString literal = true)
            (literalsOf (bracketPairs settings))
  /\ createRegex (bracketPairs settings) false = Normal (regexNonExact settings)
  /\ global (regexNonExact settings) = true
  /\ (exists rest,
        filter (fun e => e.1 = "borderStyle") (activeScopeLineCSSElements settings)
        = ("borderStyle", activeScopeLineCSSBorder settings) :: rest)
  /\ bracketDecorations settings
     = (createBracketDecorations (bracketPairs settings) nextKey).1
  /\ nextKey' = nextKey + length (configuredColors (bracketPairs settings)).
Proof.
  intros Hnew. apply newSettings_Normal in Hnew.
  destruct Hnew as (_ & _ & Hborder & _ & _ & _ & _ & _ & _ & _ & _ & _ & _
                    & Hregex & Htable & Hdisposed & Hlanguage & _).
  split; [exact Hdisposed|]. split; [exact Hlanguage|].
  pose proof (createRegex_result (bracketPairs settings) false) as Hres.
  rewrite Hregex in Hres. destruct Hres as (Hstrings & Hglobal & _).
  split; [exact Hstrings|]. split; [exact Hregex|]. split; [exact Hglobal|].
  split; [apply scopeLineBorder_Normal; exact Hborder|].
  rewrite Htable. split; [reflexivity|].
  destruct (decoratePairs_exact (bracketPairs settings) [] nextKey nextKey)
    as (_ & Hn & _); [lia|split; [constructor|apply NoDup_nil_2]|].
  fold (createBracketDecorations (bracketPairs settings) nextKey) in Hn.
  rewrite Htable in Hn. exact Hn.
Qed.

(** X20: the fallback border is never reached.  When [scopeLineCSS] is an
    array of strings none of which is named [borderStyle] (the empty array
    included), the constructor does not store [none]: reading the length of
    the first [borderStyle] element throws a [TypeError], whatever the rest of
    the configuration holds. *)
Theorem missing_border_style_throws (languageID : string)
    (editorConfiguration configuration : Configuration) (nextKey : nat)
    (bracketCSS lineCSS : list (string * string)) :
  cssElements configuration "activeScopeCSS" = Normal bracketCSS ->
  cssElements configuration "scopeLineCSS" = Normal lineCSS ->
  Forall (fun e => e.1 ≠ "borderStyle") lineCSS ->
  exists message,
    newSettings languageID editorConfiguration configuration nextKey
    = Throw (TypeError message).
Proof.
  intros Ha Hb Hnone. unfold newSettings. rewrite Ha. simpl. rewrite Hb. simpl.
  unfold scopeLineBorder. rewrite filter_none by exact Hnone. simpl.
  eexists. reflexivity.
Qed.

Lemma forEachFrom_Normal {A B} (f : A -> nat -> Completion B) (first : nat)
    (xs : list A) (ys : list B) :
  forEachFrom f first xs = Normal ys ->
  length ys = length xs
  /\ forall i y, ys !! i = Some y ->
       exists x, xs !! i = Some x /\ f x (first + i) = Normal y.
Proof.
  revert first ys. induction xs as [|x rest IH]; intros first ys; simpl.
  - intros [= <-]. split; [reflexivity|]. intros i y Hi. discriminate.
  - destruct (f x first) as [b|] eqn:Hhead; simpl; [|discriminate].
    destruct (forEachFrom f (S first) rest) as [bs|] eqn:Hrest; simpl;
      [|discriminate].
    intros [= <-]. destruct (IH (S first) bs Hrest) as [Hlen Hall].
    split; [simpl; lia|]. intros [|i] y Hi; simpl in Hi.
    + injection Hi as <-. exists x. rewrite Nat.add_0_r. auto.
    + destruct (Hall i y Hi) as (x' & Hx' & Hf). exists x'. split; [exact Hx'|].
      rewrite <- Hf. f_equal. lia.
Qed.

Lemma elementAt_array (l : list JValue) (i : nat) (v : JValue) :
  elementAt (JArray l) i = v -> v ≠ JUndefined -> l !! i = Some v.
Proof.
  simpl. destruct (l !! i) as [x|]; simpl; [intros ->; reflexivity|].
  intros <- Hne. contradiction.
Qed.

(** X21: in Consecutive mode every pair shares one palette and one orphan
    color.  When the pair list is read without an error, the setting is an
    array of at least three entries, its last entry is the orphan color (a
    string) and the entry before it the palette (an array); there is one pair
    per entry before those two, in order, and it holds that palette, that
    orphan color and the two elements of its entry, which is a string or an
    array of exactly two elements. *)
Theorem consecutive_pairs_share_the_palette (configuration : Configuration)
    (pairs : list BracketPair) :
  consecutivePairs configuration = Normal pairs ->
  exists consecutiveSettings palette orphan,
    configuration "consecutivePairColors" = JArray consecutiveSettings
    /\ 3 ≤ length consecutiveSettings
    /\ consecutiveSettings !! (length consecutiveSettings - 2) = Some (JArray palette)
    /\ consecutiveSettings !! (length consecutiveSettings - 1) = Some (JString orphan)
    /\ length pairs = length consecutiveSettings - 2
    /\ forall index pair,
         pairs !! index = Some pair ->
         colors pair = palette
         /\ orphanColor pair = orphan
         /\ exists brackets,
              consecutiveSettings !! index = Some brackets
              /\ isString brackets || isArray brackets = true
              /\ lengthOf brackets = 2
              /\ openCharacter pair = elementAt brackets 0
              /\ closeCharacter pair = elementAt brackets 1.
Proof.
  unfold consecutivePairs.
  destruct (configuration "consecutivePairColors") as [| | | | |consecutiveSettings|];
    try discriminate.
  destruct (decide (length consecutiveSettings < 3)) as [|Hlong]; [discriminate|].
  destruct (elementAt (JArray consecutiveSettings) (length consecutiveSettings - 1))
    as [| | | |orphan| |] eqn:Horphan; try discriminate.
  destruct (elementAt (JArray consecutiveSettings) (length consecutiveSettings - 2))
    as [| | | | |palette|] eqn:Hpalette; try discriminate.
  intros Hpairs. apply forEachFrom_Normal in Hpairs as [Hlen Hall].
  exists consecutiveSettings, palette, orphan.
  split; [reflexivity|]. split; [lia|].
  split; [apply elementAt_array; [exact Hpalette|discriminate]|].
  split; [apply elementAt_array; [exact Horphan|discriminate]|].
  split; [rewrite Hlen, length_take; lia|].
  intros index pair Hpair. destruct (Hall index pair Hpair) as (brackets & Hin & Hf).
  apply lookup_take_Some in Hin as [Hin _].
  unfold consecutivePair in Hf.
  destruct (isString brackets || isArray brackets) eqn:Hkind; [|discriminate].
  destruct (decide (lengthOf brackets ≠ 2)) as [|Hcount]; [discriminate|].
  injection Hf as <-. simpl. split; [reflexivity|]. split; [reflexivity|].
  exists brackets. split; [exact Hin|]. split; [exact Hkind|].
  split; [|split; reflexivity].
  destruct (decide (lengthOf brackets = 2)); [assumption|contradiction].
Qed.

(** X22: in Independent mode every pair has its own palette and orphan color.
    When the pair list is read without an error, the setting is an array with
    one array per pair, in order; the first element of that array, a string
    or an array, has at least two elements, of which the first two are the
    literals and any further one is ignored; its second element is the
    palette and its third the orphan color. *)
Theorem independent_pairs_have_their_own_palette (configuration : Configuration)
    (pairs : list BracketPair) :
  independentPairs configuration = Normal pairs ->
  exists independentSettings,
    configuration "independentPairColors" = JArray independentSettings
    /\ length pairs = length independentSettings
    /\ forall index pair,
         pairs !! index = Some pair ->
         exists innerArray brackets,
           independentSettings !! index = Some (JArray innerArray)
           /\ innerArray !! 0 = Some brackets
           /\ isString brackets || isArray brackets = true
           /\ 2 ≤ lengthOf brackets
           /\ innerArray !! 1 = Some (JArray (colors pair))
           /\ innerArray !! 2 = Some (JString (orphanColor pair))
           /\ openCharacter pair = elementAt brackets 0
           /\ closeCharacter pair = elementAt brackets 1.
Proof.
  unfold independentPairs.
  destruct (configuration "independentPairColors") as [| | | | |independentSettings|];
    try discriminate.
  intros Hpairs. apply forEachFrom_Normal in Hpairs as [Hlen Hall].
  exists independentSettings. split; [reflexivity|]. split; [exact Hlen|].
  intros index pair Hpair. destruct (Hall index pair Hpair) as (inner & Hin & Hf).
  unfold independentPair in Hf.
  destruct inner as [| | | | |innerArray|]; try discriminate.
  cbn [isArray negb] in Hf.
  destruct (negb (isString (elementAt (JArray innerArray) 0))
            && negb (isArray (elementAt (JArray innerArray) 0))) eqn:Hkind;
    [discriminate|].
  destruct (decide (lengthOf (elementAt (JArray innerArray) 0) < 2)) as [|Hcount];
    [discriminate|].
  destruct (elementAt (JArray innerArray) 1) as [| | | | |palette|] eqn:Hpalette;
    try discriminate.
  destruct (elementAt (JArray innerArray) 2) as [| | | |orphan| |] eqn:Horphan;
    try discriminate.
  injection Hf as <-. simpl.
  exists innerArray, (elementAt (JArray innerArray) 0).
  split; [exact Hin|].
  assert (Hor : isString (elementAt (JArray innerArray) 0)
                || isArray (elementAt (JArray innerArray) 0) = true).
  { destruct (isString _), (isArray _); try reflexivity. discriminate. }
  split.
  { apply elementAt_array; [reflexivity|].
    intros Hundefined. rewrite Hundefined in Hor. discriminate. }
  split; [exact Hor|]. split; [lia|].
  split; [apply elementAt_array; [exact Hpalette|discriminate]|].
  split; [apply elementAt_array; [exact Horphan|discriminate]|].
  split; reflexivity.
Qed.

(** ** More on the style elements *)

Lemma append_cons (c : ascii) (a b : string) :
  String c a +:+ b = String c (a +:+ b).
Proof. reflexivity. Qed.

Lemma length_append (a b : string) :
  String.length (a +:+ b) = String.length a + String.length b.
Proof.
  induction a as [|c a IH]; [reflexivity|].
  rewrite append_cons. simpl. rewrite IH. reflexivity.
Qed.

Lemma substring_all (s : string) : String.substring 0 (String.length s) s = s.
Proof. induction s as [|c s IH]; simpl; [reflexivity|]. rewrite IH. reflexivity. Qed.

Lemma substring_prefix (a b : string) :
  String.substring 0 (String.length a) (a +:+ b) = a.
Proof.
  induction a as [|c a IH]; [destruct b; reflexivity|].
  rewrite append_cons. simpl. rewrite IH. reflexivity.
Qed.

Lemma substring_suffix (a b : string) (c : ascii) :
  String.substring (S (String.length a))
                   (String.length (a +:+ String c b) - S (String.length a))
                   (a +:+ String c b)
  = b.
Proof.
  induction a as [|x a IH].
  - change ("" +:+ String c b) with (String c b). simpl.
    rewrite Nat.sub_0_r. destruct b; [reflexivity|apply substring_all].
  - rewrite append_cons. cbn [String.length String.substring]. exact IH.
Qed.

Lemma index_first_colon (name value : string) :
  ":"%char ∉ String.list_ascii_of_string name ->
  String.index 0 ":" (name +:+ String ":" value) = Some (String.length name).
Proof.
  induction name as [|c name IH]; intros Hnone.
  - change ("" +:+ String ":" value) with (String ":" value).
    simpl. destruct value; reflexivity.
  - rewrite append_cons. cbn [String.list_ascii_of_string] in Hnone.
    apply not_elem_of_cons in Hnone as [Hc Hnone].
    cbn [String.index String.prefix].
    destruct (ascii_dec ":" c) as [Heq|_]; [congruence|].
    rewrite (IH Hnone). reflexivity.
Qed.

Lemma index_no_colon (e : string) :
  ":"%char ∉ String.list_ascii_of_string e -> String.index 0 ":" e = None.
Proof.
  induction e as [|c e IH]; intros Hnone; [reflexivity|].
  cbn [String.list_ascii_of_string] in Hnone.
  apply not_elem_of_cons in Hnone as [Hc Hnone].
  cbn [String.index String.prefix].
  destruct (ascii_dec ":" c) as [Heq|_]; [congruence|].
  rewrite (IH Hnone). reflexivity.
Qed.

(** X23: a style element is split at its first colon.  For a text
    [name:value] whose name holds no colon the element is the trimmed name
    and the trimmed value, further colons staying in the value; for a text
    without a colon the name is empty and the value is the trimmed text; an
    element that is not a string throws a [TypeError]. *)
Theorem style_element_splits_at_first_colon (name value : string) (e : JValue) :
  (":"%char ∉ String.list_ascii_of_string name ->
   cssElement (JString (name +:+ ":" +:+ value)) = Normal (trim name, trim value))
  /\ (":"%char ∉ String.list_ascii_of_string name ->
      cssElement (JString name) = Normal ("", trim name))
  /\ (isString e = false -> exists message, cssElement e = Throw (TypeError message)).
Proof.
  split; [|split].
  - intros Hnone. unfold cssElement.
    change (":" +:+ value) with (String ":" value).
    rewrite (index_first_colon name value Hnone).
    rewrite substring_prefix, substring_suffix. reflexivity.
  - intros Hnone. unfold cssElement. rewrite (index_no_colon name Hnone).
    reflexivity.
  - destruct e; try discriminate; intros _; eexists; reflexivity.
Qed.

(** ** The scope decorations *)

Lemma getSubstitution_plain (matched before after replacement : string) :
  "$"%char ∉ String.list_ascii_of_string replacement ->
  getSubstitution matched before after replacement = replacement.
Proof.
  induction replacement as [|c tail IH]; intros Hnone; [reflexivity|].
  cbn [String.list_ascii_of_string] in Hnone.
  apply not_elem_of_cons in Hnone as [Hc Hnone].
  cbn [getSubstitution].
  destruct (Ascii.eqb c "$") eqn:E; [apply Ascii.eqb_eq in E; congruence|].
  rewrite (IH Hnone). reflexivity.
Qed.

Lemma prefix_append (pattern rest : string) :
  String.prefix pattern (pattern +:+ rest) = true.
Proof.
  induction pattern as [|c pattern IH]; [destruct rest; reflexivity|].
  rewrite append_cons. cbn [String.prefix].
  destruct (ascii_dec c c); [exact IH|contradiction].
Qed.

Lemma substring_drop (pattern rest : string) :
  String.substring (String.length pattern)
                   (String.length (pattern +:+ rest) - String.length pattern)
                   (pattern +:+ rest)
  = rest.
Proof.
  induction pattern as [|c pattern IH].
  - change ("" +:+ rest) with rest. simpl. rewrite Nat.sub_0_r. apply substring_all.
  - rewrite append_cons. cbn [String.length String.substring]. exact IH.
Qed.

Lemma splitAtFirst_found (p : ascii) (ps before after : string) :
  p ∉ String.list_ascii_of_string before ->
  splitAtFirst (String p ps) (before +:+ String p ps +:+ after)
  = Some (before, after).
Proof.
  induction before as [|c before IH]; intros Hnone.
  - change ("" +:+ String p ps +:+ after) with (String p ps +:+ after).
    destruct (String p ps +:+ after) eqn:Hs; [discriminate|].
    cbn [splitAtFirst]. rewrite <- Hs, prefix_append, substring_drop. reflexivity.
  - cbn [String.list_ascii_of_string] in Hnone.
    apply not_elem_of_cons in Hnone as [Hc Hnone].
    rewrite append_cons. cbn [splitAtFirst String.prefix].
    destruct (ascii_dec p c) as [Heq|_]; [congruence|].
    rewrite (IH Hnone). reflexivity.
Qed.

Lemma splitAtFirst_none (p : ascii) (ps s : string) :
  p ∉ String.list_ascii_of_string s -> splitAtFirst (String p ps) s = None.
Proof.
  induction s as [|c s IH]; intros Hnone; [reflexivity|].
  cbn [String.list_ascii_of_string] in Hnone.
  apply not_elem_of_cons in Hnone as [Hc Hnone].
  cbn [splitAtFirst String.prefix].
  destruct (ascii_dec p c) as [Heq|_]; [congruence|].
  rewrite (IH Hnone). reflexivity.
Qed.

(** X24: the color placeholder is replaced once.  In a style value the first
    [{color}] is replaced by the color, and whatever follows it, further
    placeholders included, stays as it is; a value without an opening brace
    is not changed.  The color is inserted as it is when it holds no dollar
    sign. *)
Theorem placeholder_is_replaced_once (color before after : string) :
  ("$"%char ∉ String.list_ascii_of_string color ->
   "{"%char ∉ String.list_ascii_of_string before ->
   stringReplace "{color}" color (before +:+ "{color}" +:+ after)
   = before +:+ color +:+ after)
  /\ ("{"%char ∉ String.list_ascii_of_string before ->
      stringReplace "{color}" color before = before).
Proof.
  split.
  - intros Hplain Hnone. unfold stringReplace.
    rewrite (splitAtFirst_found "{" "color}" before after Hnone).
    rewrite getSubstitution_plain by exact Hplain. reflexivity.
  - intros Hnone. unfold stringReplace.
    rewrite (splitAtFirst_none "{" "color}" before Hnone). reflexivity.
Qed.

Section ScopeFacts.

Context {Uri : Type}.
Variable GetIconUri : string -> string -> JValue -> Uri.

Lemma assign_lookup (decorationSettings : DecorationRenderOptions Uri)
    (name name' : string) (value : OptionValue Uri) :
  assign decorationSettings name value !! name'
  = if decide (name = name' /\ name ≠ "__proto__") then Some value
    else decorationSettings !! name'.
Proof.
  unfold assign. destruct (decide (name = "__proto__")) as [->|Hproto].
  - rewrite decide_False by (intros [_ H]; apply H; reflexivity). reflexivity.
  - destruct (decide (name = name')) as [->|Hne].
    + rewrite decide_True by auto. apply (lookup_insert_eq (M := gmap string)).
    + rewrite decide_False by (intros [H _]; contradiction).
      apply (lookup_insert_ne (M := gmap string)). exact Hne.
Qed.

Lemma applyElements_lookup (elements : list (string * string)) (color : string)
    (decorationSettings : DecorationRenderOptions Uri) (name : string) :
  applyElements elements color decorationSettings !! name
  = match last (filter (fun e => e.1 = name /\ name ≠ "__proto__") elements) with
    | Some e => Some (OptString (stringReplace "{color}" color e.2))
    | None => decorationSettings !! name
    end.
Proof.
  revert decorationSettings.
  induction elements as [|e rest IH]; intros decorationSettings; [reflexivity|].
  unfold applyElements in *. cbn [foldl]. rewrite IH, assign_lookup.
  rewrite filter_cons.
  destruct (decide (e.1 = name /\ name ≠ "__proto__")) as [[He Hproto]|Hne].
  - rewrite last_cons.
    destruct (last (filter _ rest)); [reflexivity|].
    rewrite decide_True by (subst name; auto). reflexivity.
  - destruct (last (filter _ rest)); [reflexivity|].
    rewrite decide_False; [reflexivity|].
    intros [He Hproto]. apply Hne. subst name. auto.
Qed.

(** X25: what a scope line decoration is made of.  The decoration is a fresh
    one, drawn from the window's counter.  Its [borderStyle] is always the
    four sides, each the configured border, or [none] for a side that was
    switched off; a [borderStyle] among the style elements is overridden.
    Every other option is the value of the last style element of that name
    with the color filled in, the range behaviour stays closed on both ends
    unless a style element is named so, and an element named [__proto__] is
    dropped. *)
Theorem scope_line_decoration_options (settings : Settings) (color : string)
    (top right bottom left : option bool) (nextKey : nat) (name : string) :
  let side (on : option bool) :=
    if default true on then activeScopeLineCSSBorder settings else "none" in
  let created :=
    createScopeLineDecorations (Uri := Uri) settings color top right bottom left
                               nextKey in
  scopeKey created.1 = nextKey
  /\ created.2 = S nextKey
  /\ renderOptions created.1 !! "borderStyle"
     = Some (OptString (side top +:+ " " +:+ side right +:+ " " +:+ side bottom
                        +:+ " " +:+ side left))
  /\ renderOptions created.1 !! "__proto__" = None
  /\ (name ≠ "borderStyle" ->
      renderOptions created.1 !! name
      = match last (filter (fun e => e.1 = name /\ name ≠ "__proto__")
                           (activeScopeLineCSSElements settings)) with
        | Some e => Some (OptString (stringReplace "{color}" color e.2))
        | None => if decide (name = "rangeBehavior") then Some ClosedClosed else None
        end).
Proof.
  intros side created. subst side created.
  unfold createScopeLineDecorations, createTextEditorDecorationTypeWith.
  cbn [fst snd scopeKey renderOptions].
  split; [reflexivity|]. split; [reflexivity|].
  rewrite !assign_lookup, !applyElements_lookup.
  split; [rewrite decide_True by (split; [reflexivity|discriminate]); reflexivity|].
  split.
  - rewrite decide_False by (intros [H _]; discriminate).
    rewrite filter_none; [reflexivity|].
    apply Forall_forall. intros e _ [_ H]. apply H. reflexivity.
  - intros Hname. rewrite decide_False by (intros [H _]; congruence).
    destruct (last _); [reflexivity|].
    destruct (decide (name = "rangeBehavior")) as [->|Hne].
    + apply (lookup_insert_eq (M := gmap string)).
    + etrans; [apply (lookup_insert_ne (M := gmap string)); congruence|].
      apply (lookup_empty (M := gmap string)).
Qed.

(** X26: what a scope bracket decoration is made of.  The decoration is a
    fresh one, drawn from the window's counter.  Every option is the value of
    the last style element of that name with the color filled in; where no
    element has the name, the range behaviour is closed on both ends, and the
    gutter icon is the icon of the bracket in that color and the editor's
    font when the gutter is asked for, by the argument or, when that is left
    out, by the setting, and undefined when it is not; an element named
    [__proto__] is dropped. *)
Theorem scope_bracket_decoration_options (settings : Settings)
    (color bracket : string) (showGutter : option bool) (nextKey : nat)
    (name : string) :
  let created :=
    createScopeBracketDecorations GetIconUri settings color bracket showGutter
                                  nextKey in
  scopeKey created.1 = nextKey
  /\ created.2 = S nextKey
  /\ renderOptions created.1 !! "__proto__" = None
  /\ renderOptions created.1 !! name
     = match last (filter (fun e => e.1 = name /\ name ≠ "__proto__")
                          (activeBracketCSSElements settings)) with
       | Some e => Some (OptString (stringReplace "{color}" color e.2))
       | None =>
           if decide (name = "rangeBehavior") then Some ClosedClosed
           else if decide (name = "gutterIconPath") then
             Some (if default (showBracketsInGutter settings) showGutter
                   then OptUri (GetIconUri bracket color (fontFamily settings))
                   else OptUndefined)
           else None
       end.
Proof.
  intros created. subst created.
  unfold createScopeBracketDecorations, createTextEditorDecorationTypeWith.
  cbn [fst snd scopeKey renderOptions].
  split; [reflexivity|]. split; [reflexivity|].
  rewrite !applyElements_lookup. split.
  - rewrite filter_none; [reflexivity|].
    apply Forall_forall. intros e _ [_ H]. apply H. reflexivity.
  - destruct (last _); [reflexivity|].
    destruct (decide (name = "rangeBehavior")) as [->|Hne];
      [apply (lookup_insert_eq (M := gmap string))|].
    etrans; [apply (lookup_insert_ne (M := gmap string)); congruence|].
    destruct (decide (name = "gutterIconPath")) as [->|Hne'];
      [apply (lookup_insert_eq (M := gmap string))|].
    etrans; [apply (lookup_insert_ne (M := gmap string)); congruence|].
    apply (lookup_empty (M := gmap string)).
Qed.

End ScopeFacts.

(** ** The further properties on the stand-in session *)

Lemma parseString_composes_witness :
  parseString "ab" 0 0 = {| lineIndex := 0; charIndex := 0 + String.length "ab" |}.
Proof.
  apply (proj1 (proj2 (parseString_composes "ab" "c" 0 0))).
  apply (bool_decide_unpack _). vm_compute. exact I.
Defined.

Lemma getLine_reaches_or_throws_witness :
  1 = 1
  /\ length (lines (@getLine PlainLine plainLineClass goldSession 1
                             (document goldSession)).1)
     = length (lines goldSession) `max` 2
  /\ @getLine PlainLine plainLineClass
       (@getLine PlainLine plainLineClass goldSession 1 (document goldSession)).1
       1 (document goldSession)
     = ((@getLine PlainLine plainLineClass goldSession 1 (document goldSession)).1,
        Normal 1).
Proof.
  apply (proj1 (proj2 (@getLine_reaches_or_throws PlainLine plainLineClass
                         goldSession 1 (document goldSession)))).
  vm_compute. reflexivity.
Defined.

Lemma pass_rebuilds_cache_in_order_witness :
  @rebuiltFrom PlainLine plainLineClass (document goldSession) (settings goldSession)
    (lines (plainPass goldSession plainHost).1.1)
    (length (lines (cut goldSession)))
    (@parseTokenOrStringArray PlainLine plainCollaborators (cut goldSession)
       goldTokens 0 0 []).2.
Proof.
  apply (@pass_rebuilds_cache_in_order PlainLine plainLineClass plainCollaborators
           goldSession plainHost goldTokens).
  - vm_compute. reflexivity.
  - vm_compute. reflexivity.
Defined.

Lemma pass_frame_witness :
  (plainPass goldSession emptyHost).1.1 = goldSession
  /\ (plainPass goldSession emptyHost).2 = NoEditors
  /\ console (plainPass goldSession emptyHost).1.2
     = console emptyHost
       ++ [WarnText ("No editors associated with document: "
                     +:+ fileName (document goldSession))].
Proof.
  apply (@pass_frame PlainLine plainLineClass plainCollaborators goldSession emptyHost).
  vm_compute. reflexivity.
Defined.

Lemma pass_colors_or_throws_witness :
  (plainPass goldSession plainHost).2 = Colored
  <-> Forall (fun bracket =>
                line (start (range bracket))
                < length (lines (cut goldSession))
                  `max` length (textLines (document goldSession)))
             (@parseTokenOrStringArray PlainLine plainCollaborators (cut goldSession)
                goldTokens 0 0 []).2.
Proof.
  apply (@pass_colors_or_throws PlainLine plainLineClass plainCollaborators
           goldSession plainHost goldTokens).
  - discriminate.
  - vm_compute. reflexivity.
Defined.

Lemma aborted_pass_keeps_cut_cache_witness :
  (plainPass tsxSession plainHost).1.1 = cut tsxSession
  /\ lineToUpdateWhenTimeoutEnds (cut tsxSession)
     = lineToUpdateWhenTimeoutEnds tsxSession
  /\ cut (cut tsxSession) = cut tsxSession
  /\ setDecorations (plainPass tsxSession plainHost).1.2 = setDecorations plainHost
  /\ (@tokenize plainCollaborators (getText (document tsxSession))
        (languageId (document tsxSession)) = Falsy ->
      (plainPass tsxSession plainHost).1.2 = plainHost).
Proof.
  apply (@aborted_pass_keeps_cut_cache PlainLine plainLineClass plainCollaborators
           tsxSession plainHost).
  - discriminate.
  - intros tokenized. vm_compute. discriminate.
Defined.

Lemma covering_tokens_always_color_witness :
  (plainPass goldSession plainHost).2 = Colored
  /\ Forall (fun bracket =>
               line (start (range bracket)) < length (textLines (document goldSession)))
            (@parseTokenOrStringArray PlainLine plainCollaborators (cut goldSession)
               goldTokens 0 0 []).2.
Proof.
  apply (@covering_tokens_always_color PlainLine plainLineClass plainCollaborators
           goldSession plainHost goldTokens).
  - discriminate.
  - vm_compute. reflexivity.
  - vm_compute. reflexivity.
  - discriminate.
  - repeat constructor; apply (bool_decide_unpack _); vm_compute; exact I.
Defined.

Lemma calls_come_from_the_table_witness :
  length (emitted plainHost (plainPass goldSession plainHost).1.2)
  = length (filter (fun entry => entry.1 ≠ JString "")
                   (bracketDecorations (settings goldSession)))
    * length (documentEditors goldSession plainHost).
Proof.
  apply (proj2 (@calls_come_from_the_table PlainLine plainLineClass plainCollaborators
                  goldSession plainHost)).
  vm_compute. reflexivity.
Defined.

Lemma disposed_session_is_inert_witness :
  bracketDecorations (settings (dispose goldSession)) = []
  /\ emitted plainHost (plainPass (dispose goldSession) plainHost).1.2 = [].
Proof.
  apply (proj1 (proj2 (proj2 (@disposed_session_is_inert PlainLine plainLineClass
                                plainCollaborators goldSession plainHost [])))).
  vm_compute. reflexivity.
Defined.

Lemma burst_leaves_one_timer_witness :
  timers (@afterEdits PlainLine plainLineClass plainCollaborators delayedSession
            plainHost [[changeAt 1]; [changeAt 0]]).2
  = [(nextTimer plainHost + 2 - 1, timeOutLength (settings delayedSession))].
Proof.
  apply (@burst_leaves_one_timer PlainLine plainLineClass plainCollaborators
           delayedSession plainHost [[changeAt 1]; [changeAt 0]]).
  - vm_compute. reflexivity.
  - vm_compute. reflexivity.
  - constructor.
  - discriminate.
Defined.

Lemma decoration_table_is_exact_witness :
  mapGet (JString "Orchid")
         (createBracketDecorations (bracketPairs (settings goldSession)) 0).1
  = Some {| key := 1; color := JString "Orchid" |}
  /\ color {| key := 1; color := JString "Orchid" |} = JString "Orchid"
  /\ 0 ≤ key {| key := 1; color := JString "Orchid" |}
  /\ key {| key := 1; color := JString "Orchid" |}
     < (createBracketDecorations (bracketPairs (settings goldSession)) 0).2.
Proof.
  apply (proj2 (proj2 (proj2 (proj2
           (decoration_table_is_exact (bracketPairs (settings goldSession)) 0))))).
  vm_compute. right. left.
Defined.

Lemma escape_is_characterwise_witness :
  escape (String "(" EmptyString) = String "\"%char (String "(" EmptyString).
Proof.
  apply (proj1 (proj2 (escape_is_characterwise "" "" "("))).
  apply (bool_decide_unpack _). vm_compute. exact I.
Defined.

Lemma createRegex_lists_escaped_literals_witness :
  source (regexNonExact (settings goldSession))
  = String.concat "|"
      (escape <$> sortByLength
                    (stringOf <$> literalsOf (bracketPairs (settings goldSession)))).
Proof.
  apply (proj2 (createRegex_lists_escaped_literals
                  (bracketPairs (settings goldSession)) false)
               (regexNonExact (settings goldSession))).
  - vm_compute. reflexivity.
  - vm_compute. repeat constructor; discriminate.
Defined.

Lemma constructed_settings_are_consistent_witness :
  isDisposed (settings goldSession) = false
  /\ prismLanguageID (settings goldSession) = "typescript"
  /\ Forall (fun literal => isString literal = true)
            (literalsOf (bracketPairs (settings goldSession)))
  /\ createRegex (bracketPairs (settings goldSession)) false
     = Normal (regexNonExact (settings goldSession))
  /\ global (regexNonExact (settings goldSession)) = true
  /\ (exists rest,
        filter (fun e => e.1 = "borderStyle")
               (activeScopeLineCSSElements (settings goldSession))
        = ("borderStyle", activeScopeLineCSSBorder (settings goldSession)) :: rest)
  /\ bracketDecorations (settings goldSession)
     = (createBracketDecorations (bracketPairs (settings goldSession)) 0).1
  /\ 3 = 0 + length (configuredColors (bracketPairs (settings goldSession))).
Proof.
  apply (constructed_settings_are_consistent "typescript" editorConfiguration
           (goldConfiguration 0) 0 (settings goldSession) 3).
  vm_compute. reflexivity.
Defined.

Lemma missing_border_style_throws_witness :
  exists message,
    newSettings "typescript" editorConfiguration borderlessConfiguration 0
    = Throw (TypeError message).
Proof.
  apply (missing_border_style_throws "typescript" editorConfiguration
           borderlessConfiguration 0
           (activeBracketCSSElements (settings goldSession))
           [("borderWidth", "1px")]).
  - vm_compute. reflexivity.
  - vm_compute. reflexivity.
  - repeat constructor. discriminate.
Defined.

Lemma consecutive_pairs_share_the_palette_witness :
  exists consecutiveSettings palette orphan,
    goldConfiguration 0 "consecutivePairColors" = JArray consecutiveSettings
    /\ 3 ≤ length consecutiveSettings
    /\ consecutiveSettings !! (length consecutiveSettings - 2) = Some (JArray palette)
    /\ consecutiveSettings !! (length consecutiveSettings - 1) = Some (JString orphan)
    /\ length (bracketPairs (settings goldSession)) = length consecutiveSettings - 2
    /\ forall index pair,
         bracketPairs (settings goldSession) !! index = Some pair ->
         colors pair = palette
         /\ orphanColor pair = orphan
         /\ exists brackets,
              consecutiveSettings !! index = Some brackets
              /\ isString brackets || isArray brackets = true
              /\ lengthOf brackets = 2
              /\ openCharacter pair = elementAt brackets 0
              /\ closeCharacter pair = elementAt brackets 1.
Proof.
  apply (consecutive_pairs_share_the_palette (goldConfiguration 0)
           (bracketPairs (settings goldSession))).
  vm_compute. reflexivity.
Defined.

Lemma independent_pairs_have_their_own_palette_witness :
  exists independentSettings,
    squareConfiguration "independentPairColors" = JArray independentSettings
    /\ length (bracketPairs (settingsOf squareConfiguration))
       = length independentSettings
    /\ forall index pair,
         bracketPairs (settingsOf squareConfiguration) !! index = Some pair ->
         exists innerArray brackets,
           independentSettings !! index = Some (JArray innerArray)
           /\ innerArray !! 0 = Some brackets
           /\ isString brackets || isArray brackets = true
           /\ 2 ≤ lengthOf brackets
           /\ innerArray !! 1 = Some (JArray (colors pair))
           /\ innerArray !! 2 = Some (JString (orphanColor pair))
           /\ openCharacter pair = elementAt brackets 0
           /\ closeCharacter pair = elementAt brackets 1.
Proof.
  apply (independent_pairs_have_their_own_palette squareConfiguration
           (bracketPairs (settingsOf squareConfiguration))).
  vm_compute. reflexivity.
Defined.

Lemma style_element_splits_at_first_colon_witness :
  cssElement (JString ("borderColor " +:+ ":" +:+ " {color}; opacity: 0.5"))
  = Normal (trim "borderColor ", trim " {color}; opacity: 0.5").
Proof.
  apply (proj1 (style_element_splits_at_first_colon
                  "borderColor " " {color}; opacity: 0.5" JNull)).
  apply (bool_decide_unpack _). vm_compute. exact I.
Defined.

Lemma placeholder_is_replaced_once_witness :
  stringReplace "{color}" "Gold" ("1px solid " +:+ "{color}" +:+ "; {color}")
  = "1px solid " +:+ "Gold" +:+ "; {color}".
Proof.
  apply (proj1 (placeholder_is_replaced_once "Gold" "1px solid " "; {color}")).
  - apply (bool_decide_unpack _). vm_compute. exact I.
  - apply (bool_decide_unpack _). vm_compute. exact I.
Defined.

Lemma scope_line_decoration_options_witness :
  renderOptions
    (createScopeLineDecorations (Uri := string) (settings goldSession) "Gold"
                                None (Some false) None None 7).1
  !! "borderColor"
  = match last (filter (fun e => e.1 = "borderColor" /\ "borderColor" ≠ "__proto__")
                       (activeScopeLineCSSElements (settings goldSession))) with
    | Some e => Some (OptString (stringReplace "{color}" "Gold" e.2))
    | None =>
        if decide ("borderColor" = "rangeBehavior") then Some ClosedClosed else None
    end.
Proof.
  apply (proj2 (proj2 (proj2 (proj2
           (scope_line_decoration_options (Uri := string) (settings goldSession)
              "Gold" None (Some false) None None 7 "borderColor"))))).
  discriminate.
Defined.

(** C7, the claim as written fails: in a burst of two edits, the first on
    line 0 and the second on line 1, no pass runs between them; the pass that
    follows the second edit, whose lowest touched line is 1, starts from line
    0 and replaces the cached state of line 0. *)
Lemma pass_replaces_below_the_last_edit :
  let first := plainEdit burstSession [changeAt 0] plainHost in
  let second := plainEdit first.1.1 [changeAt 1] first.1.2 in
  let fired := plainTimerFires 1 second.1.1 second.1.2 in
  first.2 = None
  /\ second.2 = None
  /\ fired.2 = Some Colored
  /\ lines burstSession !! 0
     = Some {| plainIndex := 0;
               plainText := "((";
               plainBrackets :=
                 [{| range := {| start := {| line := 0; character := 0 |};
                                 end_ := {| line := 0; character := 1 |} |};
                     bracketText := "(" |};
                  {| range := {| start := {| line := 0; character := 1 |};
                                 end_ := {| line := 0; character := 2 |} |};
                     bracketText := "(" |}] |}
  /\ lines fired.1.1 !! 0
     = Some {| plainIndex := 0;
               plainText := "(";
               plainBrackets :=
                 [{| range := {| start := {| line := 0; character := 0 |};
                                 end_ := {| line := 0; character := 1 |} |};
                     bracketText := "(" |}] |}
  /\ ~ (forall i,
          i < 1 -> i < length (lines burstSession) ->
          lines fired.1.1 !! i = lines burstSession !! i).
Proof.
  repeat split; try (vm_compute; reflexivity).
  intros H. specialize (H 0). vm_compute in H.
  assert (Hlt : 0 < 1) by lia. assert (Hlen : 0 < 2) by lia.
  specialize (H Hlt Hlen). discriminate.
Qed.

Lemma pass_replaces_only_from_marker_witness :
  lines (plainPass (updateLowestLineNumber editedSession [changeAt 1]) plainHost).1.1
    !! 0
  = lines editedSession !! 0
  /\ take 1 (lines editedSession) `prefix_of`
       lines (plainPass (updateLowestLineNumber editedSession [changeAt 1])
                        plainHost).1.1
  /\ @rebuiltFrom PlainLine plainLineClass
       (document editedSession) (settings editedSession)
       (lines (plainPass (updateLowestLineNumber editedSession [changeAt 1])
                         plainHost).1.1)
       1
       (@parseTokenOrStringArray PlainLine plainCollaborators
          (cut (updateLowestLineNumber editedSession [changeAt 1]))
          (charTokens (getText (document editedSession))) 0 0 []).2.
Proof.
  destruct (@pass_replaces_only_from_marker PlainLine plainLineClass
              plainCollaborators editedSession [changeAt 1] plainHost 1)
    as (_ & Hbelow & Hran & Hbuilt).
  - vm_compute. reflexivity.
  - split; [apply Hbelow; [lia|vm_compute; lia]|].
    split; [apply Hran; discriminate|].
    apply Hbuilt; vm_compute; reflexivity.
Defined.
